(** * The PHP buildpack supply phase: configuration synthesis

    A shallow embedding of [src/php/supply/supply.go]: version resolution
    ([SetupPhpVersion]), extension aggregation ([SetupExtensions]), the two
    binding contexts and the dual template render ([WriteConfigFiles]), and
    [versionLine].

    Go strings are byte strings and are modelled by [string]; Go maps are
    modelled by [gmap]; decoded JSON ([interface{}]) is an inductive type.
    The collaborators of the supplier (the file system, the manifest, the
    embedded box, [text/template]) are parameters of the functions that
    call them. *)

From Stdlib Require Import Ascii String List Arith Lia ZArith DecimalString.
From stdpp Require Import base option list gmap strings fin_maps sorting.

Local Open Scope string_scope.
Local Open Scope list_scope.
Set Warnings "-register-all".
#[local] Arguments String.append !s1 s2 : simpl nomatch.

(** ** The [strings] package *)

Module strings.

(** [strings.HasPrefix(s, prefix)]. *)
Fixpoint HasPrefix (s prefix : string) {struct prefix} : bool :=
  match prefix with
  | EmptyString => true
  | String p prefix' =>
      match s with
      | EmptyString => false
      | String c s' => if Ascii.eqb c p then HasPrefix s' prefix' else false
      end
  end.

(** The scan behind [strings.Replace(s, old, new, -1)] for a non-empty
    [old]: the occurrences of [old] are taken leftmost first and do not
    overlap.  [skip] counts the bytes of the occurrence just replaced that
    are still to be passed over. *)
Fixpoint replace_scan (old new : string) (skip : nat) (s : string) : string :=
  match s with
  | EmptyString => EmptyString
  | String c s' =>
      match skip with
      | S k => replace_scan old new k s'
      | O =>
          if HasPrefix s old
          then new +:+ replace_scan old new (String.length old - 1) s'
          else String c (replace_scan old new 0 s')
      end
  end.

(** [strings.Replace(s, old, new, -1)].  Every call in supply.go passes a
    non-empty literal for [old]; with an empty [old] Go splices [new] in at
    every rune boundary, which is not needed here and returns [s] as is. *)
Definition Replace (s old new : string) : string :=
  match old with
  | EmptyString => s
  | _ => replace_scan old new 0 s
  end.

(** Puts one more byte in front of the first component. *)
Definition push_byte (c : ascii) (parts : list string) : list string :=
  match parts with
  | [] => [String c ""]
  | p :: rest => String c p :: rest
  end.

(** The scan behind [strings.Split(s, sep)] for a non-empty [sep]: the
    occurrences of [sep] are taken leftmost first and do not overlap. *)
Fixpoint split_scan (sep : string) (skip : nat) (s : string) : list string :=
  match s with
  | EmptyString => [""]
  | String c s' =>
      match skip with
      | S k => split_scan sep k s'
      | O =>
          if HasPrefix s sep
          then "" :: split_scan sep (String.length sep - 1) s'
          else push_byte c (split_scan sep 0 s')
      end
  end.

(** [strings.Split(s, sep)] for a non-empty [sep] (the only use is with
    ["."]); the result always has at least one component. *)
Definition Split (s sep : string) : list string :=
  match sep with
  | EmptyString => [s]
  | _ => split_scan sep 0 s
  end.

(** [strings.Join(elems, sep)]. *)
Fixpoint Join (elems : list string) (sep : string) : string :=
  match elems with
  | [] => ""
  | [e] => e
  | e :: rest => e +:+ sep +:+ Join rest sep
  end.

End strings.

(** ** [versionLine] *)

(** [vs[len(vs)-1] = "x"]: the assignment to the last slot of the slice.
    On an empty slice Go panics; [strings.Split] never returns one. *)
Fixpoint set_last (vs : list string) (x : string) : list string :=
  match vs with
  | [] => []
  | [_] => [x]
  | v :: rest => v :: set_last rest x
  end.

Definition versionLine (v : string) : string :=
  let vs := strings.Split v "." in
  let vs := set_last vs "x" in
  strings.Join vs ".".

(** ** Decoded JSON and the logger *)

(** What [encoding/json] decodes into an [interface{}]: [nil], [bool],
    [float64] (kept as its literal), [string], [[]interface{}] and
    [map[string]interface{}]. *)
Inductive json : Type :=
| JNull
| JBool (b : bool)
| JNumber (literal : string)
| JString (s : string)
| JArray (elems : list json)
| JObject (fields : gmap string json).

(** The comma-ok type assertions [.(string)], [.([]interface{})] and
    [.(map[string]interface{})] on the result of a map lookup; a missing
    key yields the nil interface, on which every assertion fails. *)
Definition as_string (v : option json) : option string :=
  match v with Some (JString s) => Some s | _ => None end.

Definition as_array (v : option json) : option (list json) :=
  match v with Some (JArray a) => Some a | _ => None end.

Definition as_object (v : option json) : option (gmap string json) :=
  match v with Some (JObject o) => Some o | _ => None end.

Inductive Level := LBeginStep | LDebug | LWarning | LError.

#[global]
Instance Level_eq_dec : EqDecision Level.
Proof. solve_decision. Defined.

Inductive LogArg :=
| AString (s : string)
| AExtensions (m : gmap string bool)
| AObject (o : gmap string json).

(** One call to the logger: its level, its format string and arguments. *)
Record LogCall := { level : Level; format : string; args : list LogArg }.

Definition error := string.

Record Dependency := { Name : string; Version : string }.

(** The [Manifest] and [Stager] collaborators, restricted to the methods
    the modelled functions call. *)
Record Manifest := {
  AllDependencyVersions : string -> list string;
  DefaultVersion : string -> Dependency + error
}.

Record Stager := {
  BuildDir : string;
  CacheDir : string;
  DepDir : string;
  DepsDir : string;
  DepsIdx : string
}.

Record Supplier := {
  manifest : Manifest;
  stager : Stager;
  Log : list LogCall;
  PhpVersion : string;
  ComposerJson : gmap string json;
  OptionsJson : gmap string json;
  PhpExtensions : gmap string bool;
  ZendExtensions : gmap string bool;
  WebDir : string
}.

Definition set_PhpVersion (v : string) (s : Supplier) : Supplier :=
  {| manifest := manifest s; stager := stager s; Log := Log s;
     PhpVersion := v;
     ComposerJson := ComposerJson s; OptionsJson := OptionsJson s;
     PhpExtensions := PhpExtensions s; ZendExtensions := ZendExtensions s;
     WebDir := WebDir s |}.

Definition set_PhpExtensions (m : gmap string bool) (s : Supplier) : Supplier :=
  {| manifest := manifest s; stager := stager s; Log := Log s;
     PhpVersion := PhpVersion s;
     ComposerJson := ComposerJson s; OptionsJson := OptionsJson s;
     PhpExtensions := m; ZendExtensions := ZendExtensions s;
     WebDir := WebDir s |}.

Definition set_ZendExtensions (m : gmap string bool) (s : Supplier) : Supplier :=
  {| manifest := manifest s; stager := stager s; Log := Log s;
     PhpVersion := PhpVersion s;
     ComposerJson := ComposerJson s; OptionsJson := OptionsJson s;
     PhpExtensions := PhpExtensions s; ZendExtensions := m;
     WebDir := WebDir s |}.

(** Appends one call to the log. *)
Definition logf (l : Level) (fmt : string) (a : list LogArg) (s : Supplier)
  : Supplier :=
  {| manifest := manifest s; stager := stager s;
     Log := Log s ++ [{| level := l; format := fmt; args := a |}];
     PhpVersion := PhpVersion s;
     ComposerJson := ComposerJson s; OptionsJson := OptionsJson s;
     PhpExtensions := PhpExtensions s; ZendExtensions := ZendExtensions s;
     WebDir := WebDir s |}.

(** The warnings in a log, in order. *)
Definition warnings (l : list LogCall) : list LogCall :=
  filter (fun c => level c = LWarning) l.

(** ** Ranging over a Go map *)

(** [for k, v := range m { body }]: Go visits every key once, in an order
    it does not specify.  [order] is the order of one execution. *)
Definition range_of {V} (m : gmap string V) (order : list string) : Prop :=
  NoDup order /\ list_to_set order = dom m.

#[global]
Instance range_of_dec {V} (m : gmap string V) (order : list string) :
  Decision (range_of m order).
Proof. unfold range_of. apply _. Defined.

Definition range {V A} (m : gmap string V) (order : list string)
    (body : string -> V -> A -> A) (init : A) : A :=
  foldl (fun acc k => match m !! k with Some v => body k v acc | None => acc end)
        init order.

(** The line feed, written [\n] in Go. *)
Definition nl : string := String (ascii_of_nat 10) "".

(** ** [SetupPhpVersion] *)

(** The class [\d] of Go's regexp: the ASCII digits. *)
Definition isDigit (c : ascii) : bool :=
  let n := nat_of_ascii c in Nat.leb 48 n && Nat.leb n 57.

(** A match of [PHP_(\d)(\d)_LATEST] that starts at the first byte of [s]:
    the whole match and the two groups, or the empty slice. *)
Definition alias_match_here (s : string) : list string :=
  if strings.HasPrefix s "PHP_" then
    match String.substring 4 (String.length s - 4) s with
    | String d1 (String d2 rest) =>
        if isDigit d1 && isDigit d2 && strings.HasPrefix rest "_LATEST"
        then ["PHP_" +:+ String d1 (String d2 "_LATEST");
              String d1 ""; String d2 ""]
        else []
    | _ => []
    end
  else [].

(** [regexp.MustCompile(`PHP_(\d)(\d)_LATEST`).FindStringSubmatch(s)]: the
    pattern is not anchored, the leftmost match is returned, and a string
    without a match yields nil. *)
Fixpoint FindStringSubmatch (s : string) : list string :=
  match alias_match_here s with
  | [] => match s with
          | EmptyString => []
          | String _ s' => FindStringSubmatch s'
          end
  | m => m
  end.

(** The value the options file gives [s.PhpVersion] for a non-empty
    [PHP_VERSION] string (the branches on [len(m) == 3]). *)
Definition expandAlias (version : string) : string :=
  match FindStringSubmatch version with
  | [_; m1; m2] => m1 +:+ "." +:+ m2 +:+ ".x"
  | _ => version
  end.

Definition both_warning_1 : string :=
  "A version of PHP has been specified in both `composer.json` and `./bp-config/options.json`.".

Definition both_warning_2 : string :=
  "The version defined in `composer.json` will be used.".

(** The format of the warning logged when no catalog version matches. *)
Definition not_available_warning : string :=
  "PHP version %s not available, using default version." +:+ nl +:+
  "            In future versions of the buildpack, specifying a non-existent PHP version will cause staging to fail." +:+ nl +:+
  "            See: http://docs.cloudfoundry.org/buildpacks/php/gsg-php-composer.html".

Section Supply.

(** [libbuildpack.FindMatchingVersion(constraint, versions)], a function of
    the buildpack library: the matching version or an error. *)
Variable FindMatchingVersion : string -> list string -> string + error.

(** The first block of [SetupPhpVersion]: [.bp-config/options.json]. *)
Definition versionFromOptions (s : Supplier) : Supplier :=
  match as_string (OptionsJson s !! "PHP_VERSION") with
  | Some version =>
      if bool_decide (version <> "") then
        let s := logf LDebug "PHP Version from options.json: %s" [AString version] s in
        match FindStringSubmatch version with
        | [_; m1; m2] =>
            let s := set_PhpVersion (m1 +:+ "." +:+ m2 +:+ ".x") s in
            logf LDebug "PHP Version interpolated: %s" [AString (PhpVersion s)] s
        | _ => set_PhpVersion version s
        end
      else s
  | None => s
  end.

(** The second block: the [php] entry of [require] in composer.json. *)
Definition versionFromComposer (s : Supplier) : Supplier :=
  match as_object (ComposerJson s !! "require") with
  | Some require =>
      match as_string (require !! "php") with
      | Some version =>
          if bool_decide (version <> "") then
            let s :=
              if bool_decide (PhpVersion s <> "") then
                logf LWarning both_warning_2 []
                  (logf LWarning both_warning_1 [] s)
              else s in
            let s := logf LDebug "PHP Version from composer.json: %s" [AString version] s in
            set_PhpVersion (strings.Replace version ">=" "~>") s
          else s
      | None => s
      end
  | None => s
  end.

(** The third block: matching the candidate against the catalog. *)
Definition matchCatalog (s : Supplier) : Supplier :=
  if bool_decide (PhpVersion s <> "") then
    let versions := AllDependencyVersions (manifest s) "php" in
    match FindMatchingVersion (PhpVersion s) versions with
    | inr _ =>
        let s := logf LWarning not_available_warning [AString (PhpVersion s)] s in
        set_PhpVersion "" s
    | inl v =>
        let s := set_PhpVersion v s in
        logf LDebug "PHP Version interpolated: %s" [AString (PhpVersion s)] s
    end
  else s.

(** The last block: the default version of the catalog. *)
Definition defaultVersion (s : Supplier) : Supplier * option error :=
  if bool_decide (PhpVersion s = "") then
    match DefaultVersion (manifest s) "php" with
    | inr err => (s, Some err)
    | inl dep =>
        let s := set_PhpVersion (Version dep) s in
        (logf LDebug "PHP Version Default: %s" [AString (PhpVersion s)] s, None)
    end
  else (s, None).

(** [SetupPhpVersion]: the supplier it leaves and the error it returns. *)
Definition SetupPhpVersion (s : Supplier) : Supplier * option error :=
  let s := versionFromOptions s in
  let s := versionFromComposer s in
  let s := matchCatalog s in
  defaultVersion s.

End Supply.

(** ** [SetupExtensions] *)

Definition defaultExtensions : gmap string bool :=
  <["mcrypt" := true]> (<["curl" := true]> (<["zlib" := true]>
    (<["bz2" := true]> ∅))).

(** [for _, val := range arr { if ext, ok := val.(string); ok { m[ext] = true } }]. *)
Definition addStrings (arr : list json) (m : gmap string bool) : gmap string bool :=
  foldl (fun m val =>
           match as_string (Some val) with
           | Some ext => <[ext := true]> m
           | None => m
           end) m arr.

(** [k[4:]] for a key known to start with ["ext-"]. *)
Definition strip4 (k : string) : string :=
  String.substring 4 (String.length k - 4) k.

(** The body of the loop over [requires]. *)
Definition addRequire (k : string) (m : gmap string bool) : gmap string bool :=
  let m := if strings.HasPrefix k "ext-" then <[strip4 k := true]> m else m in
  if strings.HasPrefix k "ext-pdo_" then <["pdo" := true]> m else m.

(** The three steps of [SetupExtensions] on [s.PhpExtensions] and the
    log: the built-in defaults, the [PHP_EXTENSIONS] array of options.json,
    and the [require] keys of composer.json (ranged over in [order]). *)
Definition extensionsDefaults (s : Supplier) : Supplier :=
  set_ZendExtensions ∅ (set_PhpExtensions defaultExtensions s).

Definition extensionsFromOptions (s : Supplier) : Supplier :=
  let s :=
    match as_array (OptionsJson s !! "PHP_EXTENSIONS") with
    | Some arr =>
        let s := logf LWarning "PHP_EXTENSIONS in options.json is deprecated." [] s in
        let s := set_PhpExtensions (addStrings arr ∅) s in
        logf LDebug "Found php extensions in options.json: %v"
          [AExtensions (PhpExtensions s)] s
    | None => s
    end in
  match as_array (OptionsJson s !! "ZEND_EXTENSIONS") with
  | Some arr =>
      let s := set_ZendExtensions (addStrings arr ∅) s in
      logf LDebug "Found zend extensions in options.json: %v"
        [AExtensions (ZendExtensions s)] s
  | None => s
  end.

Definition extensionsFromComposer (order : list string) (s : Supplier) : Supplier :=
  match as_object (ComposerJson s !! "require") with
  | Some requires =>
      let s := logf LDebug "composer.json->require: %+v" [AObject requires] s in
      let s := set_PhpExtensions
                 (range requires order (fun k _ m => addRequire k m)
                    (PhpExtensions s)) s in
      logf LDebug "Found php extensions in composer.json: %v"
        [AExtensions (PhpExtensions s)] s
  | None => s
  end.

(** [SetupExtensions]; it always returns nil.  [order] is the order in
    which the keys of [require] are visited. *)
Definition SetupExtensions (order : list string) (s : Supplier) : Supplier :=
  let s := extensionsDefaults s in
  let s := extensionsFromOptions s in
  extensionsFromComposer order s.

(** ** [WriteConfigFiles]: the two binding contexts *)

(** [ctx[k]] on a [map[string]string]: a missing key reads as [""]. *)
Definition index (ctx : gmap string string) (k : string) : string :=
  default "" (ctx !! k).

(** The composite literal that initialises [ctxRun]. *)
Definition ctxRunLiteral (s : Supplier) : gmap string string :=
  list_to_map [
    ("DepsIdx", DepsIdx (stager s));
    ("PhpFpmConfInclude", "");
    ("PhpFpmListen", "127.0.0.1:9000");
    ("Webdir", WebDir s);
    ("HOME", "{{.HOME}}");
    ("DEPS_DIR", "{{.DEPS_DIR}}");
    ("TMPDIR", "{{.TMPDIR}}");
    ("Libdir", "lib");
    ("PhpExtensions", "");
    ("ZendExtensions", "")
  ].

(** [ctxRun] after the loops over [s.PhpExtensions] and
    [s.ZendExtensions], visited in [phpOrder] and [zendOrder]. *)
Definition ctxRun (phpOrder zendOrder : list string) (s : Supplier)
  : gmap string string :=
  let ctxRun := ctxRunLiteral s in
  let ctxRun :=
    range (PhpExtensions s) phpOrder
      (fun ext _ ctxRun =>
         <["PhpExtensions" :=
             index ctxRun "PhpExtensions" +:+ "extension=" +:+ ext +:+ ".so" +:+ nl]>
           ctxRun)
      ctxRun in
  range (ZendExtensions s) zendOrder
    (fun ext _ ctxRun =>
       <["ZendExtensions" :=
           index ctxRun "ZendExtensions" +:+ "zend_extension=" +:+ ext +:+ nl]>
         ctxRun)
    ctxRun.

(** [ctxStage]: a copy of [ctxRun] (its keys visited in [ctxOrder]) with
    four entries assigned afterwards. *)
Definition ctxStage (phpOrder zendOrder ctxOrder : list string) (s : Supplier)
  : gmap string string :=
  let ctxRun := ctxRun phpOrder zendOrder s in
  let ctxStage := range ctxRun ctxOrder (fun k v ctxStage => <[k := v]> ctxStage) ∅ in
  let ctxStage := <["DEPS_DIR" := DepsDir (stager s)]> ctxStage in
  let ctxStage := <["HOME" := BuildDir (stager s)]> ctxStage in
  let ctxStage := <["TMPDIR" := "/tmp"]> ctxStage in
  <["PhpExtensions" := index ctxRun "PhpExtensions" +:+ "extension=openssl.so" +:+ nl]>
    ctxStage.

(** ** [WriteConfigFiles]: rendering one template *)

(** What [text/template] does on the templates made of text and of
    actions that read one key of the data map, [{{.Key}}]: the fragment the
    rewrite of the legacy placeholders produces.  The library itself is a
    parameter of [WriteConfigFiles] below; these definitions say what it
    does on the fragment, and nothing on the other texts. *)
Inductive node :=
| TextNode (text : string)
| FieldNode (ident : string).

Definition isSpace (c : ascii) : bool :=
  Ascii.eqb c " " || Ascii.eqb c (ascii_of_nat 9).

Definition isLetter (c : ascii) : bool :=
  let n := nat_of_ascii c in
  (Nat.leb 65 n && Nat.leb n 90) || (Nat.leb 97 n && Nat.leb n 122)
  || Ascii.eqb c "_".

Definition isAlphaNumeric (c : ascii) : bool := isLetter c || isDigit c.

Fixpoint trimLeft (s : string) : string :=
  match s with
  | String c s' => if isSpace c then trimLeft s' else s
  | EmptyString => s
  end.

Fixpoint allSpace (s : string) : bool :=
  match s with
  | String c s' => isSpace c && allSpace s'
  | EmptyString => true
  end.

(** The identifier at the start of [s] and what follows it. *)
Fixpoint spanIdent (s : string) : string * string :=
  match s with
  | String c s' =>
      if isAlphaNumeric c
      then let '(i, r) := spanIdent s' in (String c i, r)
      else ("", s)
  | EmptyString => ("", "")
  end.

(** The text between [{{] and [}}]: a dot, an identifier that starts with
    a letter or an underscore, and blanks around them.  Every other action
    is outside the fragment. *)
Definition fieldAction (body : string) : option node :=
  match trimLeft body with
  | String dot (String c rest) =>
      if Ascii.eqb dot "." && isLetter c then
        let '(i, r) := spanIdent (String c rest) in
        if allSpace r then Some (FieldNode i) else None
      else None
  | _ => None
  end.

Definition textNode (cur : string) : list node :=
  match cur with
  | EmptyString => []
  | _ => [TextNode (String.rev cur)]
  end.

(** The lexer and parser in one pass.  [cur] is the text or action being
    read, in reverse; [skip] is set on the second byte of a delimiter. *)
Fixpoint lex (inAction skip : bool) (cur : string) (s : string)
  : option (list node) :=
  match s with
  | EmptyString => if inAction then None else Some (textNode cur)
  | String c s' =>
      if skip then lex inAction false cur s'
      else if inAction then
        if strings.HasPrefix s "}}" then
          match fieldAction (String.rev cur), lex false true "" s' with
          | Some n, Some rest => Some (n :: rest)
          | _, _ => None
          end
        else lex true false (String c cur) s'
      else
        if strings.HasPrefix s "{{" then
          match lex true true "" s' with
          | Some rest => Some (textNode cur ++ rest)
          | None => None
          end
        else lex false false (String c cur) s'
  end.

(** The nodes of a template of the fragment; [None] on every text outside
    the fragment, whether the library parses it or not. *)
Definition Parse (text : string) : option (list node) := lex false false "" text.

(** Printing one node on a [map[string]string]: with the default
    [missingkey] option a key that the map does not have prints as
    [<no value>]. *)
Definition evalNode (ctx : gmap string string) (n : node) : string :=
  match n with
  | TextNode t => t
  | FieldNode k => default "<no value>" (ctx !! k)
  end.

(** What [tmpl.Execute(fh, ctx)] writes to [fh] for these nodes. *)
Definition Execute (tmpl : list node) (ctx : gmap string string) : string :=
  foldr (fun n out => evalNode ctx n +:+ out) "" tmpl.

(** The rewrite of the legacy placeholders into template actions. *)
Definition rewriteLegacy (templateString : string) : string :=
  let templateString := strings.Replace templateString "@{DEPS_DIR}" "{{.DEPS_DIR}}" in
  let templateString := strings.Replace templateString "@{TMPDIR}" "{{.TMPDIR}}" in
  let templateString := strings.Replace templateString "@{HOME}" "{{.HOME}}" in
  strings.Replace templateString "#PHP_FPM_LISTEN" "{{.PhpFpmListen}}".

(** The map literal the handler ranges over: base directory to context. *)
Definition renderRoots (s : Supplier) (ctxRun ctxStage : gmap string string)
  : gmap string (gmap string string) :=
  <["/tmp/php_etc" := ctxStage]> (<[DepDir (stager s) := ctxRun]> ∅).

(** ** [fmt.Sprintf] *)

(** The double quote, which a Go raw string literal holds as it is. *)
Definition dq : string := String (ascii_of_nat 34) "".

(** The operands the formats of this repository are given. *)
Inductive fmtArg :=
| FmtString (s : string)
| FmtInt (n : Z).

Definition decimal (n : Z) : string := NilZero.string_of_int (Z.to_int n).

Definition goType (a : fmtArg) : string :=
  match a with FmtString _ => "string" | FmtInt _ => "int" end.

(** The operand under [%v]. *)
Definition printValue (a : fmtArg) : string :=
  match a with FmtString s => s | FmtInt n => decimal n end.

(** One verb on one operand: [%v], [%s] on a string, [%d] on an int; a
    verb that does not fit its operand prints as [%!verb(type=value)].
    The other verbs Go accepts ([%q], [%x], ...), flags, widths and
    argument indexes are used by no format here and are outside the model. *)
Definition printVerb (verb : ascii) (a : fmtArg) : string :=
  let bad := "%!" +:+ String verb "(" +:+ goType a +:+ "=" +:+ printValue a +:+ ")" in
  if Ascii.eqb verb "v" then printValue a
  else match a with
       | FmtString s => if Ascii.eqb verb "s" then s else bad
       | FmtInt n => if Ascii.eqb verb "d" then decimal n else bad
       end.

(** What [Sprintf] appends for the operands no verb consumed. *)
Definition extraArgs (a : list fmtArg) : string :=
  match a with
  | [] => ""
  | _ => "%!(EXTRA "
         +:+ strings.Join (map (fun x => goType x +:+ "=" +:+ printValue x) a) ", "
         +:+ ")"
  end.

Fixpoint sprintf_scan (afterPercent : bool) (format : string) (a : list fmtArg)
  : string :=
  match format with
  | EmptyString => (if afterPercent then "%!(NOVERB)" else "") +:+ extraArgs a
  | String c format' =>
      if afterPercent then
        if Ascii.eqb c "%" then String c (sprintf_scan false format' a)
        else match a with
             | [] => "%!" +:+ String c "(MISSING)" +:+ sprintf_scan false format' []
             | arg :: rest => printVerb c arg +:+ sprintf_scan false format' rest
             end
      else if Ascii.eqb c "%" then sprintf_scan true format' a
      else String c (sprintf_scan false format' a)
  end.

(** [fmt.Sprintf(format, a...)]. *)
Definition Sprintf (format : string) (a : list fmtArg) : string :=
  sprintf_scan false format a.

(** ** The installers and script writers of the supply phase *)

(** The [ComposerPath] and [ComposerGithubToken] fields of the Go
    [Supplier], which only [ReadConfig], [Run] and the composer steps
    touch. *)
Record ComposerFields := {
  ComposerPath : string;
  ComposerGithubToken : string
}.

(** An [exec.Cmd] as [RunComposer] fills it: the arguments (the program
    first), the environment, the working directory, and whether [Stdout]
    and [Stderr] are set to the writers that indent by seven spaces. *)
Record Cmd := {
  Args : list string;
  Env : list string;
  Dir : string;
  Indented : bool
}.

(** The environment-changing calls to the collaborators. [0755] is [493].
    [CallExecute] is [tmpl.Execute] on a file just created. *)
Inductive Call :=
| CallInstallOnlyVersion (name dir : string)
| CallInstallDependency (dep : Dependency) (dir : string)
| CallFetchDependency (dep : Dependency) (dest : string)
| CallLinkDirectoryInDepDir (src dest : string)
| CallWriteFile (path content : string) (perm : N)
| CallWriteProfileD (name script : string)
| CallCopyFile (src dest : string)
| CallMkdirAll (dir : string) (perm : N)
| CallCreate (path : string)
| CallExecute (path content : string)
| CallRun (cmd : Cmd).

(** A step leaves a supplier, the calls it made in order, and its error. *)
Definition Step : Type := Supplier * list Call * option error.

(** Runs [k] after [r] unless [r] returned an error. *)
Definition andThen (r : Step) (k : Supplier -> Step) : Step :=
  match r with
  | (s, cs, Some err) => (s, cs, Some err)
  | (s, cs, None) => let '(s', cs', e) := k s in (s', cs ++ cs', e)
  end.

(** The two [bytes.Replace] calls of [InstallHTTPD] on apachectl. *)
Definition rewriteApachectl (idx txt : string) : string :=
  let txt := strings.Replace txt "HTTPD='/app/httpd/bin/httpd'"
               ("HTTPD=" +:+ dq +:+ "/app/httpd/bin/httpd" +:+ dq) in
  strings.Replace txt "/app/httpd/" (Sprintf "$DEPS_DIR/%s/httpd/" [FmtString idx]).

(** The format of the start script of the supply phase: six verbs. *)
Definition supplyStartFormat : string :=
  "#!/usr/bin/env bash" +:+ nl +:+
  "# TODO real process management" +:+ nl +:+
  "$DEPS_DIR/%s/php/sbin/php-fpm -p " +:+ dq +:+ "$DEPS_DIR/%s/php/etc" +:+ dq +:+
  " -y " +:+ dq +:+ "$DEPS_DIR/%s/php/etc/php-fpm.conf" +:+ dq +:+
  " -c " +:+ dq +:+ "$DEPS_DIR/%s/php/etc" +:+ dq +:+ " &" +:+ nl +:+
  "$DEPS_DIR/%s/httpd/bin/apachectl -f " +:+ dq +:+ "$DEPS_DIR/%s/httpd/conf/httpd.conf"
  +:+ dq +:+ " -k start -DFOREGROUND" +:+ nl.

(** The format of the varify line, shared by the profile.d script and the
    start script of the finalize phase. *)
Definition varifyFormat : string :=
  "varify " +:+ dq +:+ "$DEPS_DIR/%s/php/etc/" +:+ dq +:+ " " +:+ dq
  +:+ "$DEPS_DIR/%s/httpd/conf/" +:+ dq.

Section IO.

(** [filepath.Join], the outcome of each collaborator call, and what the
    file system answers. *)
Variable filepath_Join : list string -> string.
Variable outcome : Call -> option error.
Variable FileExists : string -> bool + error.
Variable ReadFile : string -> string + error.

(** [s.Manifest.RootDir()]. *)
Variable RootDir : string.

Definition call (c : Call) (s : Supplier) : Step := (s, [c], outcome c).

(** [for _, dir := range dirs { LinkDirectoryInDepDir(Join(DepDir, name, dir), dir) }],
    left at the first error. *)
Fixpoint linkDirectories (name : string) (dirs : list string) (s : Supplier) : Step :=
  match dirs with
  | [] => (s, [], None)
  | dir :: rest =>
      andThen
        (call (CallLinkDirectoryInDepDir
                 (filepath_Join [DepDir (stager s); name; dir]) dir) s)
        (linkDirectories name rest)
  end.

Definition InstallHTTPD (s : Supplier) : Step :=
  andThen (call (CallInstallOnlyVersion "httpd" (DepDir (stager s))) s) (fun s =>
  andThen (linkDirectories "httpd" ["bin"; "lib"] s) (fun s =>
  let s := logf LDebug
             "Rewrite references in apachectl from '/app/httpd/' to '$DEPS_DIR/0/httpd/'"
             [] s in
  match ReadFile (filepath_Join [DepDir (stager s); "httpd/bin/apachectl"]) with
  | inr err => (s, [], Some err)
  | inl txt =>
      let txt := rewriteApachectl (DepsIdx (stager s)) txt in
      call (CallWriteFile
              (filepath_Join [DepDir (stager s); "httpd/bin/apachectl"]) txt 493) s
  end)).

Definition InstallPHP (s : Supplier) : Step :=
  let dep := {| Name := "php"; Version := PhpVersion s |} in
  andThen (call (CallInstallDependency dep (DepDir (stager s))) s)
    (linkDirectories "php" ["bin"; "lib"]).

Definition InstallComposer (s : Supplier) : Step :=
  let depVersions := AllDependencyVersions (manifest s) "composer" in
  match depVersions with
  | [version] =>
      let s := logf LBeginStep "Installing composer %s" [AString version] s in
      let dep := {| Name := "composer"; Version := version |} in
      call (CallFetchDependency dep
              (filepath_Join [DepDir (stager s); "bin"; "composer"])) s
  | _ =>
      (s, [], Some (Sprintf "expected 1 version of composer, found %d"
                      [FmtInt (Z.of_nat (List.length depVersions))]))
  end.

Definition InstallVarify (s : Supplier) : Step :=
  let s := logf LDebug "Installing Varify" [] s in
  match FileExists (filepath_Join [DepDir (stager s); "bin"; "varify"]) with
  | inr err => (s, [], Some err)
  | inl true => (s, [], None)
  | inl false =>
      call (CallCopyFile (filepath_Join [RootDir; "bin"; "varify"])
              (filepath_Join [DepDir (stager s); "bin"; "varify"])) s
  end.

Definition WriteProfileD (s : Supplier) : Step :=
  let s := logf LBeginStep "Writing profile.d script" [] s in
  let idx := FmtString (DepsIdx (stager s)) in
  let script := Sprintf ("export PHPRC=$DEPS_DIR/%s/php/etc" +:+ nl) [idx] in
  let script := script +:+ "export HTTPD_SERVER_ADMIN=admin@localhost" +:+ nl in
  match FileExists (filepath_Join [DepDir (stager s); "php/etc/php.ini.d"]) with
  | inr err => (s, [], Some err)
  | inl found =>
      let script :=
        if found
        then script +:+ Sprintf ("export PHP_INI_SCAN_DIR=$DEPS_DIR/%s/php/etc/php.ini.d"
                                 +:+ nl) [idx]
        else script in
      let script := script +:+ Sprintf varifyFormat [idx; idx] +:+ nl in
      call (CallWriteProfileD "bp_env_vars.sh" script) s
  end.

Definition WriteStartFile (s : Supplier) : Step :=
  let s := logf LBeginStep "Writing start script (php_buildpack_start)" [] s in
  let idx := FmtString (DepsIdx (stager s)) in
  let start := Sprintf supplyStartFormat [idx; idx; idx; idx; idx; idx; idx; idx] in
  call (CallWriteFile
          (filepath_Join [DepDir (stager s); "bin"; "php_buildpack_start"])
          start 493) s.

End IO.

(** ** [ReadConfig] *)

Definition set_OptionsJson (o : gmap string json) (s : Supplier) : Supplier :=
  {| manifest := manifest s; stager := stager s; Log := Log s;
     PhpVersion := PhpVersion s;
     ComposerJson := ComposerJson s; OptionsJson := o;
     PhpExtensions := PhpExtensions s; ZendExtensions := ZendExtensions s;
     WebDir := WebDir s |}.

Definition set_ComposerJson (o : gmap string json) (s : Supplier) : Supplier :=
  {| manifest := manifest s; stager := stager s; Log := Log s;
     PhpVersion := PhpVersion s;
     ComposerJson := o; OptionsJson := OptionsJson s;
     PhpExtensions := PhpExtensions s; ZendExtensions := ZendExtensions s;
     WebDir := WebDir s |}.

Definition set_WebDir (w : string) (s : Supplier) : Supplier :=
  {| manifest := manifest s; stager := stager s; Log := Log s;
     PhpVersion := PhpVersion s;
     ComposerJson := ComposerJson s; OptionsJson := OptionsJson s;
     PhpExtensions := PhpExtensions s; ZendExtensions := ZendExtensions s;
     WebDir := w |}.

Definition set_ComposerPath (path : string) (c : ComposerFields) : ComposerFields :=
  {| ComposerPath := path; ComposerGithubToken := ComposerGithubToken c |}.

Definition set_ComposerGithubToken (token : string) (c : ComposerFields)
  : ComposerFields :=
  {| ComposerPath := ComposerPath c; ComposerGithubToken := token |}.

Section Config.

(** [filepath.Join], [os.Getenv], [libbuildpack.FileExists],
    [os.IsNotExist], and [s.JSON.Load(file, &obj)], which is given the map
    [obj] holds and answers with the map it leaves there and its error. *)
Variable filepath_Join : list string -> string.
Variable Getenv : string -> string.
Variable FileExists : string -> bool + error.
Variable IsNotExist : error -> bool.
Variable JSONLoad : string -> gmap string json -> gmap string json * option error.

(** The last block of [ReadConfig]: loading composer.json. *)
Definition loadComposer (s : Supplier) (c : ComposerFields)
  : Supplier * ComposerFields * option error :=
  if bool_decide (ComposerPath c <> "") then
    let '(obj, err) := JSONLoad (ComposerPath c) (ComposerJson s) in
    let s := set_ComposerJson obj s in
    match err with
    | Some e =>
        if negb (IsNotExist e) then
          (logf LError "Invalid JSON present in composer.json. Parser said %s"
             [AString e] s, c, Some e)
        else (logf LDebug "File Not Exist: %s" [AString (ComposerPath c)] s, c, None)
    | None => (s, c, None)
    end
  else (s, c, None).

(** The middle blocks: the web directory, then composer.json in the build
    directory and under [COMPOSER_PATH]. *)
Definition findComposer (s : Supplier) (c : ComposerFields)
  : Supplier * ComposerFields * option error :=
  let s := set_WebDir (match as_string (OptionsJson s !! "WEBDIR") with
                       | Some val => val
                       | None => ""
                       end) s in
  match FileExists (filepath_Join [BuildDir (stager s); "composer.json"]) with
  | inr e => (s, c, Some e)
  | inl found =>
      let '(s, c) :=
        if found
        then (logf LDebug "Found composer in build dir" [] s,
              set_ComposerPath
                (filepath_Join [BuildDir (stager s); "composer.json"]) c)
        else (s, c) in
      let s := logf LDebug "COMPOSER_PATH: %s" [AString (Getenv "COMPOSER_PATH")] s in
      if bool_decide (Getenv "COMPOSER_PATH" <> "") then
        match FileExists (filepath_Join [BuildDir (stager s);
                                         Getenv "COMPOSER_PATH"; "composer.json"]) with
        | inr e => (s, c, Some e)
        | inl found =>
            if found
            then loadComposer (logf LDebug "Found composer in COMPOSER_PATH" [] s)
                   (set_ComposerPath
                      (filepath_Join [BuildDir (stager s);
                                      Getenv "COMPOSER_PATH"; "composer.json"]) c)
            else loadComposer s c
        end
      else loadComposer s c
  end.

Definition ReadConfig (s : Supplier) (c : ComposerFields)
  : Supplier * ComposerFields * option error :=
  let optionsPath :=
    filepath_Join [BuildDir (stager s); ".bp-config"; "options.json"] in
  let '(obj, err) := JSONLoad optionsPath (OptionsJson s) in
  let s := set_OptionsJson obj s in
  match err with
  | Some e =>
      if negb (IsNotExist e) then
        (logf LError "Invalid JSON present in options.json. Parser said %s"
           [AString e] s, c, Some e)
      else findComposer (logf LDebug "File Not Exist: %s" [AString optionsPath] s) c
  | None => findComposer s c
  end.

End Config.

(** ** [RunComposer] *)

Section Composer.

Variable filepath_Join : list string -> string.
Variable outcome : Call -> option error.

(** [os.Environ()]. *)
Variable Environ : list string.

(** [s.HttpClient.Do] on the GET request to [url] with the given
    [Authorization] header, followed by the JSON decoding of the body into
    a fresh map: the error of [Do], or the error of the decoder, or the
    map decoded.  [http.NewRequest] returns no error on the constant
    method and URL it is given here. *)
Variable HttpGet : string -> string -> error + (error + gmap string json).

Definition isComposerTokenValid (token : string) (s : Supplier) : Supplier * bool :=
  match HttpGet "https://api.github.com/rate_limit" ("token " +:+ token) with
  | inl err => (logf LError "client.Do: %s" [AString err] s, false)
  | inr (inl err) => (logf LError "parse json: %s" [AString err] s, false)
  | inr (inr hash) =>
      let s := logf LDebug "Github rate limit: %+v" [AObject hash] s in
      (s, bool_decide (is_Some (hash !! "resources")))
  end.

(** The environment [RunComposer] gives both commands. *)
Definition composerEnv (s : Supplier) (c : ComposerFields) : list string :=
  let env :=
    Environ ++
    ["COMPOSER_NO_INTERACTION=1";
     Sprintf "COMPOSER_CACHE_DIR=%s/composer" [FmtString (CacheDir (stager s))];
     Sprintf "COMPOSER_VENDOR_DIR=%s/vendor" [FmtString (BuildDir (stager s))];
     Sprintf "COMPOSER_BIN_DIR=%s/php/bin" [FmtString (DepDir (stager s))];
     "PHPRC=/tmp/php_etc/php/etc";
     "TMPDIR=/tmp"] in
  if bool_decide (ComposerPath c <> "")
  then env ++ ["COMPOSER=" +:+ ComposerPath c]
  else env.

Definition composerInstall (s : Supplier) (c : ComposerFields) : Step :=
  let cmd := {| Args := ["php";
                         filepath_Join [DepDir (stager s); "bin"; "composer"];
                         "install"; "--no-progress"; "--no-dev"];
                Env := composerEnv s c;
                Dir := BuildDir (stager s);
                Indented := true |} in
  (s, [CallRun cmd], outcome (CallRun cmd)).

Definition RunComposer (s : Supplier) (c : ComposerFields) : Step :=
  let s := logf LBeginStep "Running composer" [] s in
  if bool_decide (ComposerGithubToken c <> "") then
    let '(s, valid) := isComposerTokenValid (ComposerGithubToken c) s in
    if valid then
      let s := logf LBeginStep
                 "Using custom GitHub OAuth token in $COMPOSER_GITHUB_OAUTH_TOKEN"
                 [] s in
      let cmd := {| Args := ["php";
                             filepath_Join [DepDir (stager s); "bin"; "composer"];
                             "config"; "-g"; "github-oauth.github.com";
                             ComposerGithubToken c];
                    Env := composerEnv s c;
                    Dir := BuildDir (stager s);
                    Indented := false |} in
      andThen (s, [CallRun cmd], outcome (CallRun cmd))
        (fun s => composerInstall s c)
    else
      composerInstall
        (logf LBeginStep
           "The GitHub OAuth token supplied from $COMPOSER_GITHUB_OAUTH_TOKEN is invalid"
           [] s) c
  else composerInstall s c.

End Composer.

(** ** [WriteConfigFiles]: the walks over the template trees *)

(** [for k, v := range m { if err := body(k, v); err != nil { return err } }]
    with the keys visited in [order]. *)
Fixpoint rangeSteps {V} (m : gmap string V) (order : list string)
    (body : string -> V -> Supplier -> Step) (s : Supplier) : Step :=
  match order with
  | [] => (s, [], None)
  | k :: rest =>
      match m !! k with
      | Some v => andThen (body k v s) (rangeSteps m rest body)
      | None => rangeSteps m rest body s
      end
  end.

(** The entries of a walk: the function is called on each entry visited
    and the walk ends at the first error it returns. *)
Fixpoint walkSteps (entries : list (string * bool))
    (fn : string * bool -> Supplier -> Step) (s : Supplier) : Step :=
  match entries with
  | [] => (s, [], None)
  | entry :: rest => andThen (fn entry s) (walkSteps rest fn)
  end.

(** What [box.Walk] and [filepath.Walk] do on a root: the entries they
    hand to the function, each with [info.IsDir()], and then the error of
    the walker itself, if any ([box.Walk] on a directory that the box does
    not have hands over no entry and returns its error).  A walk that hands
    over a nil [info] makes the function panic and is outside the model. *)
Definition Walk : Type := list (string * bool) * option error.

Definition walk (w : Walk) (fn : string * bool -> Supplier -> Step)
    (s : Supplier) : Step :=
  andThen (walkSteps w.1 fn s) (fun s => (s, [], w.2)).

Section Walks.

(** The template library: the parsed templates, [template.New(name).Parse(text)],
    and [tmpl.Execute(fh, ctx)], which answers with the text it hands to
    [fh] up to its first error, and that error. *)
Variable Template : Type.
Variable template_Parse : string -> string -> Template + error.
Variable template_Execute : Template -> gmap string string -> string * option error.

(** The path functions, the outcome of the calls, and what the embedded
    box and the file system answer.  [rootsOrder] is the order in which the
    two roots are visited for the template of the given name. *)
Variable filepath_Join : list string -> string.
Variable filepath_Rel : string -> string -> string + error.
Variable filepath_Dir : string -> string.
Variable outcome : Call -> option error.
Variable FileExists : string -> bool + error.
Variable ReadFile : string -> string + error.
Variable boxBytes : string -> string + error.
Variable boxWalk : string -> Walk.
Variable dirWalk : string -> Walk.
Variable rootsOrder : string -> list string.

(** The body of the loop over the two roots: the directory, the file, and
    the execution of the template into it.  [CallExecute file text] is the
    writing of the text to the file just created; [Execute] returns the
    error of that writing, or else the error of the template. *)
Definition renderInto (tmplMessage : Template) (dest destFile basedir : string)
    (ctx : gmap string string) (s : Supplier) : Step :=
  let file := filepath_Join [basedir; dest; destFile] in
  andThen (call outcome (CallMkdirAll (filepath_Dir file) 493) s) (fun s =>
  andThen (call outcome (CallCreate file) s) (fun s =>
  let '(text, err) := template_Execute tmplMessage ctx in
  andThen (call outcome (CallExecute file text) s) (fun s => (s, [], err)))).

(** The function [handler(src, dest, readAll)] returns, on one entry. *)
Definition handleEntry (src dest : string) (readAll : string -> string + error)
    (ctxRun ctxStage : gmap string string) (entry : string * bool) (s : Supplier)
  : Step :=
  let '(path, isDir) := entry in
  if isDir then (s, [], None)
  else
    let s := logf LDebug "WriteConfigFile: %s" [AString path] s in
    match filepath_Rel src path with
    | inr err => (s, [], Some err)
    | inl destFile =>
        match readAll (filepath_Join [src; destFile]) with
        | inr err => (s, [], Some err)
        | inl templateBytes =>
            let templateString := rewriteLegacy templateBytes in
            match template_Parse (filepath_Join [src; destFile]) templateString with
            | inr err => (s, [], Some err)
            | inl tmplMessage =>
                rangeSteps (renderRoots s ctxRun ctxStage)
                  (rootsOrder (filepath_Join [src; destFile]))
                  (renderInto tmplMessage dest destFile) s
            end
        end
    end.

(** The walks over the two default trees of the embedded box, which
    [rice.MustFindBox] has found. *)
Definition boxPhase (ctxRun ctxStage : gmap string string)
    (boxOrder : list string) (s : Supplier) : Step :=
  let phpVersionLine := versionLine (PhpVersion s) in
  let s := logf LDebug "PHP VersionLine: %s" [AString phpVersionLine] s in
  rangeSteps
    (<["httpd" := "httpd/conf"]>
       (<[Sprintf "php/%s" [FmtString phpVersionLine] := "php/etc/"]> ∅))
    boxOrder
    (fun src dest s =>
       walk (boxWalk src) (handleEntry src dest boxBytes ctxRun ctxStage) s)
    s.

(** The map literal of the second loop: the override trees of the
    application. *)
Definition overrideTrees (s : Supplier) : gmap string string :=
  <[filepath_Join [BuildDir (stager s); ".bp-config"; "httpd"] := "httpd/conf"]>
    (<[filepath_Join [BuildDir (stager s); ".bp-config"; "php"] := "php/etc/"]> ∅).

(** The walks over the override trees of the application, when they exist. *)
Definition userPhase (ctxRun ctxStage : gmap string string)
    (userOrder : list string) (s : Supplier) : Step :=
  rangeSteps (overrideTrees s) userOrder
    (fun src dest s =>
       match FileExists src with
       | inr err => (s, [], Some err)
       | inl found =>
           if found
           then walk (dirWalk src) (handleEntry src dest ReadFile ctxRun ctxStage) s
           else (s, [], None)
       end)
    s.

Definition WriteConfigFiles (phpOrder zendOrder ctxOrder boxOrder userOrder : list string)
    (s : Supplier) : Step :=
  let s := logf LBeginStep "Write config files" [] s in
  let run := ctxRun phpOrder zendOrder s in
  let s := logf LDebug "PhpExtensions: %s"
             [AString (index (ctxRun phpOrder [] s) "PhpExtensions")] s in
  let s := logf LDebug "ZendExtensions: %s"
             [AString (index run "ZendExtensions")] s in
  let stage := ctxStage phpOrder zendOrder ctxOrder s in
  andThen (boxPhase run stage boxOrder s) (userPhase run stage userOrder).

End Walks.

(** ** [Run] *)

(** [s.Log.Error(format, err)] before an error is returned. *)
Definition logError (fmt : string) (r : Step) : Step :=
  match r with
  | (s, cs, Some err) => (logf LError fmt [AString err] s, cs, Some err)
  | _ => r
  end.

(** [fmt.Errorf(format, err)] around an error that is returned. *)
Definition wrapError (fmt : string) (r : Step) : Step :=
  match r with
  | (s, cs, Some err) => (s, cs, Some (Sprintf fmt [FmtString err]))
  | _ => r
  end.

Section Pipeline.

Variable Template : Type.
Variable template_Parse : string -> string -> Template + error.
Variable template_Execute : Template -> gmap string string -> string * option error.
Variable filepath_Join : list string -> string.
Variable filepath_Rel : string -> string -> string + error.
Variable filepath_Dir : string -> string.
Variable Getenv : string -> string.
Variable Environ : list string.
Variable FileExists : string -> bool + error.
Variable ReadFile : string -> string + error.
Variable IsNotExist : error -> bool.
Variable JSONLoad : string -> gmap string json -> gmap string json * option error.
Variable FindMatchingVersion : string -> list string -> string + error.
Variable outcome : Call -> option error.
Variable HttpGet : string -> string -> error + (error + gmap string json).
Variable RootDir : string.
Variable boxBytes : string -> string + error.
Variable boxWalk : string -> Walk.
Variable dirWalk : string -> Walk.
Variable rootsOrder : string -> list string.

(** The orders in which the Go maps are ranged over during this run. *)
Variable requireOrder phpOrder zendOrder ctxOrder boxOrder userOrder : list string.

(** The steps of [Run] that follow [SetupExtensions]. *)
Definition installAndRender (s : Supplier) (c : ComposerFields) : Step :=
  andThen (wrapError "Installing HTTPD: %s"
             (InstallHTTPD filepath_Join outcome ReadFile s)) (fun s =>
  andThen (wrapError "Installing PHP: %s" (InstallPHP filepath_Join outcome s))
    (fun s =>
  andThen (logError "Error writing config files: %s"
             (WriteConfigFiles Template template_Parse template_Execute
                filepath_Join filepath_Rel filepath_Dir outcome
                FileExists ReadFile boxBytes boxWalk dirWalk rootsOrder
                phpOrder zendOrder ctxOrder boxOrder userOrder s)) (fun s =>
  andThen (if bool_decide (ComposerPath c <> "") then
             andThen (logError "Failed to install composer: %s"
                        (InstallComposer filepath_Join outcome s)) (fun s =>
             logError "Failed to run composer: %s"
               (RunComposer filepath_Join outcome Environ HttpGet s c))
           else (s, [], None)) (fun s =>
  andThen (logError "Failed to copy verify: %s"
             (InstallVarify filepath_Join outcome FileExists RootDir s)) (fun s =>
  andThen (logError "Failed to write profile.d: %s"
             (WriteProfileD filepath_Join outcome FileExists s)) (fun s =>
  logError "Error writing start file: %v"
    (WriteStartFile filepath_Join outcome s))))))).

Definition Run (s : Supplier) (c : ComposerFields)
  : Supplier * ComposerFields * list Call * option error :=
  let s := logf LBeginStep "Supplying php" [] s in
  let c := set_ComposerGithubToken (Getenv "COMPOSER_GITHUB_OAUTH_TOKEN") c in
  match ReadConfig filepath_Join Getenv FileExists IsNotExist JSONLoad s c with
  | (s, c, Some err) =>
      (s, c, [], Some (Sprintf "reading config: %s" [FmtString err]))
  | (s, c, None) =>
      match SetupPhpVersion FindMatchingVersion s with
      | (s, Some err) =>
          (s, c, [], Some (Sprintf "Initialiizing: php version: %s" [FmtString err]))
      | (s, None) =>
          let s := SetupExtensions requireOrder s in
          let '(s, cs, err) := installAndRender s c in
          (s, c, cs, err)
      end
  end.

End Pipeline.

(** ** The finalize phase *)

Module finalize.

Record Finalizer := {
  stager : Stager;
  Log : list LogCall
}.

Definition logf (l : Level) (fmt : string) (a : list LogArg) (f : Finalizer)
  : Finalizer :=
  {| stager := stager f;
     Log := Log f ++ [{| level := l; format := fmt; args := a |}] |}.

(** The calls the finalize phase makes. *)
Inductive Call :=
| CallWriteFile (path content : string) (perm : N)
| CallYAMLWrite (dest : string) (data : gmap string (gmap string string)).

(** The format of the start script of the finalize phase: eight verbs. *)
Definition startFormat : string :=
  "#!/usr/bin/env bash" +:+ nl +:+
  varifyFormat +:+ nl +:+
  "# TODO real process management" +:+ nl +:+
  "$DEPS_DIR/%s/php/sbin/php-fpm -p " +:+ dq +:+ "$DEPS_DIR/%s/php/etc" +:+ dq +:+
  " -y " +:+ dq +:+ "$DEPS_DIR/%s/php/etc/php-fpm.conf" +:+ dq +:+
  " -c " +:+ dq +:+ "$DEPS_DIR/%s/php/etc" +:+ dq +:+ " &" +:+ nl +:+
  "$DEPS_DIR/%s/httpd/bin/apachectl -f " +:+ dq +:+ "$DEPS_DIR/%s/httpd/conf/httpd.conf"
  +:+ dq +:+ " -k start -DFOREGROUND" +:+ nl.

Section IO.

Variable filepath_Join : list string -> string.
Variable outcome : Call -> option error.

Definition WriteStartFile (f : Finalizer) : list Call * option error :=
  let idx := FmtString (DepsIdx (stager f)) in
  let start := Sprintf startFormat [idx; idx; idx; idx; idx; idx; idx; idx] in
  let c := CallWriteFile
             (filepath_Join [DepDir (stager f); "bin"; "php_buildpack_start"])
             start 493 in
  ([c], outcome c).

(** [GenerateReleaseYaml]; its error is always nil. *)
Definition GenerateReleaseYaml (f : Finalizer) : gmap string (gmap string string) :=
  {[ "default_process_types" :=
       {[ "web" := Sprintf "$DEPS_DIR/%s/bin/php_buildpack_start"
                     [FmtString (DepsIdx (stager f))] ]} ]}.

Definition Run (f : Finalizer) : Finalizer * list Call * option error :=
  let f := logf LBeginStep "Finalizing php" [] f in
  match WriteStartFile f with
  | (cs, Some err) =>
      (logf LError "Error writing start file: %v" [AString err] f, cs, Some err)
  | (cs, None) =>
      let data := GenerateReleaseYaml f in
      let c := CallYAMLWrite "/tmp/php-buildpack-release-step.yml" data in
      (f, cs ++ [c], outcome c)
  end.

End IO.

End finalize.

(** ** Vocabulary of the statements *)

(** The number of bytes [c] in [s]. *)
Fixpoint countByte (c : ascii) (s : string) : nat :=
  match s with
  | EmptyString => 0
  | String b s' => (if Ascii.eqb b c then 1 else 0) + countByte c s'
  end.

(** [s] has no byte [c]. *)
Fixpoint without (c : ascii) (s : string) : bool :=
  match s with
  | EmptyString => true
  | String b s' => negb (Ascii.eqb b c) && without c s'
  end.

(** The non-empty version string options.json supplies, if any. *)
Definition optionsVersion (s : Supplier) : option string :=
  match as_string (OptionsJson s !! "PHP_VERSION") with
  | Some version => if bool_decide (version <> "") then Some version else None
  | None => None
  end.

(** The non-empty [php] constraint composer.json supplies, if any. *)
Definition composerVersion (s : Supplier) : option string :=
  match as_object (ComposerJson s !! "require") with
  | Some require =>
      match as_string (require !! "php") with
      | Some version => if bool_decide (version <> "") then Some version else None
      | None => None
      end
  | None => None
  end.

(** The constraint [SetupPhpVersion] hands to the catalog match: the value
    of [s.PhpVersion] once both declarative sources were read. *)
Definition candidate (s : Supplier) : string :=
  PhpVersion (versionFromComposer (versionFromOptions s)).

(** The two-line precedence warning is in the log. *)
Definition precedenceWarned (l : list LogCall) : Prop :=
  {| level := LWarning; format := both_warning_1; args := [] |} ∈ l /\
  {| level := LWarning; format := both_warning_2; args := [] |} ∈ l.

(** No entry of [new] is a line of the precedence warning. *)
Definition quiet (new : list LogCall) : Prop :=
  Forall (fun c => format c <> both_warning_1 /\ format c <> both_warning_2) new.

(** [order] is an order in which Go can visit the keys of [require] in
    composer.json (any list when there is no such object to range over). *)
Definition requireOrder (s : Supplier) (order : list string) : Prop :=
  match as_object (ComposerJson s !! "require") with
  | Some requires => range_of requires order
  | None => True
  end.

#[global]
Instance requireOrder_dec (s : Supplier) (order : list string) :
  Decision (requireOrder s order).
Proof. unfold requireOrder. destruct (as_object _); apply _. Defined.

(** What the key [k] of [require] puts into the extension set: the name
    [x] when the key is [ext-] followed by [x], and [pdo] when the key
    starts with [ext-pdo_]. *)
Definition contributes (k x : string) : bool :=
  bool_decide (k = "ext-" +:+ x)
  || (strings.HasPrefix k "ext-pdo_" && bool_decide (x = "pdo")).

(** Some key of [require] in composer.json puts [x] into the set. *)
Definition requiredExtension (s : Supplier) (x : string) : Prop :=
  exists requires k,
    ComposerJson s !! "require" = Some (JObject requires) /\
    is_Some (requires !! k) /\ contributes k x = true.

Definition deprecationWarning : LogCall :=
  {| level := LWarning;
     format := "PHP_EXTENSIONS in options.json is deprecated.";
     args := [] |}.

(** The [extension=<name>.so] lines of the extensions visited in [order]. *)
Definition extensionLines (order : list string) : string :=
  foldr (fun ext rest => ("extension=" +:+ ext +:+ ".so" +:+ nl) +:+ rest) "" order.

Definition zendExtensionLines (order : list string) : string :=
  foldr (fun ext rest => ("zend_extension=" +:+ ext +:+ nl) +:+ rest) "" order.

(** [line] is one of the lines of [block]. *)
Definition hasLine (line block : string) : bool :=
  bool_decide (line ∈ strings.Split block nl).

(** The keys the binding contexts are documented to differ in: the home
    directory, the dependency root and the temp directory.  The cache
    directory of the package manager is bound in neither context (it is
    handed to composer as [COMPOSER_CACHE_DIR] by [RunComposer]). *)
Definition pathKeys : list string := ["HOME"; "DEPS_DIR"; "TMPDIR"].

(** The lines the two start scripts share, for the dependency index
    [idx]. *)
Definition startScriptBody (idx : string) : string :=
  "# TODO real process management" +:+ nl +:+
  "$DEPS_DIR/" +:+ idx +:+ "/php/sbin/php-fpm -p " +:+ dq +:+ "$DEPS_DIR/" +:+ idx
  +:+ "/php/etc" +:+ dq +:+ " -y " +:+ dq +:+ "$DEPS_DIR/" +:+ idx
  +:+ "/php/etc/php-fpm.conf" +:+ dq +:+ " -c " +:+ dq +:+ "$DEPS_DIR/" +:+ idx
  +:+ "/php/etc" +:+ dq +:+ " &" +:+ nl +:+
  "$DEPS_DIR/" +:+ idx +:+ "/httpd/bin/apachectl -f " +:+ dq +:+ "$DEPS_DIR/" +:+ idx
  +:+ "/httpd/conf/httpd.conf" +:+ dq +:+ " -k start -DFOREGROUND" +:+ nl.

(** The line that runs the verifier on the two configuration trees. *)
Definition varifyLine (idx : string) : string :=
  "varify " +:+ dq +:+ "$DEPS_DIR/" +:+ idx +:+ "/php/etc/" +:+ dq +:+ " " +:+ dq
  +:+ "$DEPS_DIR/" +:+ idx +:+ "/httpd/conf/" +:+ dq.

(** [strings.Contains(s, substr)]. *)
Fixpoint Contains (s substr : string) : bool :=
  strings.HasPrefix s substr
  || match s with
     | EmptyString => false
     | String _ s' => Contains s' substr
     end.

(** The four legacy placeholders of the templates. *)
Inductive marker :=
| MarkDepsDir
| MarkTmpDir
| MarkHome
| MarkFpmListen.

(** The placeholder as it stands in a template file. *)
Definition legacy (m : marker) : string :=
  match m with
  | MarkDepsDir => "@{DEPS_DIR}"
  | MarkTmpDir => "@{TMPDIR}"
  | MarkHome => "@{HOME}"
  | MarkFpmListen => "#PHP_FPM_LISTEN"
  end.

(** The action the rewrite puts in its place. *)
Definition action (m : marker) : string :=
  match m with
  | MarkDepsDir => "{{.DEPS_DIR}}"
  | MarkTmpDir => "{{.TMPDIR}}"
  | MarkHome => "{{.HOME}}"
  | MarkFpmListen => "{{.PhpFpmListen}}"
  end.

(** The key of the contexts that the action reads. *)
Definition key (m : marker) : string :=
  match m with
  | MarkDepsDir => "DEPS_DIR"
  | MarkTmpDir => "TMPDIR"
  | MarkHome => "HOME"
  | MarkFpmListen => "PhpFpmListen"
  end.

(** What stands at the placeholder in the file rendered under
    [/tmp/php_etc], for staging ... *)
Definition stagedAt (s : Supplier) (m : marker) : string :=
  match m with
  | MarkDepsDir => DepsDir (stager s)
  | MarkTmpDir => "/tmp"
  | MarkHome => BuildDir (stager s)
  | MarkFpmListen => "127.0.0.1:9000"
  end.

(** ... and in the file rendered under the dependency directory, for the
    running application: the three paths stay placeholders there. *)
Definition runAt (m : marker) : string :=
  match m with
  | MarkDepsDir => "{{.DEPS_DIR}}"
  | MarkTmpDir => "{{.TMPDIR}}"
  | MarkHome => "{{.HOME}}"
  | MarkFpmListen => "127.0.0.1:9000"
  end.

(** Plain text: none of the four placeholders stands in it and no action
    opens in it. *)
Definition plainText (t : string) : bool :=
  negb (Contains t "@{DEPS_DIR}") && negb (Contains t "@{TMPDIR}")
  && negb (Contains t "@{HOME}") && negb (Contains t "#PHP_FPM_LISTEN")
  && negb (Contains t "{{").

(** The last byte of a text. *)
Fixpoint lastByte (t : string) : option ascii :=
  match t with
  | EmptyString => None
  | String c EmptyString => Some c
  | String _ t' => lastByte t'
  end.

(** The keys the nodes of a template read. *)
Definition fields (nodes : list node) : list string :=
  omap (fun n => match n with FieldNode k => Some k | TextNode _ => None end) nodes.

(** The keys bound differently in the two contexts. *)
Definition contextKeys : list string := "PhpExtensions" :: pathKeys.

(** The files executed by a sequence of calls, with their texts. *)
Definition executed (cs : list Call) : list (string * string) :=
  omap (fun c => match c with
                 | CallExecute file text => Some (file, text)
                 | _ => None
                 end) cs.

(** The template library does on the fragment what [Parse] and [Execute]
    say: it parses every template of the fragment, and executing it writes
    the text of its nodes and returns no error. *)
Definition rendersFragment {Template : Type}
    (template_Parse : string -> string -> Template + error)
    (template_Execute : Template -> gmap string string -> string * option error)
  : Prop :=
  forall name text nodes,
    Parse text = Some nodes ->
    exists t,
      template_Parse name text = inl t /\
      forall ctx, template_Execute t ctx = (Execute nodes ctx, None).

(** [text] is the rendering, for the root of [file], of a template that
    the second loop found in an override tree of the application, read
    with [ioutil.ReadFile] and rewrote. *)
Definition fromOverride {Template : Type}
    (template_Parse : string -> string -> Template + error)
    (template_Execute : Template -> gmap string string -> string * option error)
    (filepath_Join : list string -> string)
    (filepath_Rel : string -> string -> string + error)
    (FileExists : string -> bool + error)
    (ReadFile : string -> string + error)
    (dirWalk : string -> Walk)
    (s : Supplier) (ctxRun ctxStage : gmap string string)
    (file text : string) : Prop :=
  exists src dest path destFile templateBytes tmplMessage basedir ctx,
    overrideTrees filepath_Join s !! src = Some dest /\
    FileExists src = inl true /\
    (path, false) ∈ (dirWalk src).1 /\
    filepath_Rel src path = inl destFile /\
    ReadFile (filepath_Join [src; destFile]) = inl templateBytes /\
    template_Parse (filepath_Join [src; destFile]) (rewriteLegacy templateBytes)
      = inl tmplMessage /\
    renderRoots s ctxRun ctxStage !! basedir = Some ctx /\
    file = filepath_Join [basedir; dest; destFile] /\
    text = (template_Execute tmplMessage ctx).1.

(** The non-empty suffixes of a text, longest first. *)
Fixpoint suffixes (t : string) : list string :=
  match t with
  | EmptyString => []
  | String _ t' => t :: suffixes t'
  end.

(** No occurrence of [old] starts in [a] and ends in [b]. *)
Fixpoint apart (old a b : string) : Prop :=
  match a with
  | EmptyString => True
  | String _ a' =>
      strings.HasPrefix (a +:+ b) old = strings.HasPrefix a old /\ apart old a' b
  end.

(** A step keeps [I] of the supplier, and its calls have the property [T]
    under the condition [Q] on its error. *)
Definition traced (I : Supplier -> Prop) (Q : option error -> Prop)
    (T : list Call -> Prop) (r : Step) : Prop :=
  I r.1.1 /\ (Q r.2 -> T r.1.2).

(** The calls of one rendering: the directory made, the file created, the
    text executed into it. *)
Definition renderCalls (t : string * string * string) : list Call :=
  let '(dir, file, content) := t in
  [CallMkdirAll dir 493; CallCreate file; CallExecute file content].

(** The template files a sequence of successful calls leaves, from the
    files [fs]: [os.Create] truncates, [Execute] writes the text. *)
Definition applyCall (fs : gmap string string) (c : Call) : gmap string string :=
  match c with
  | CallCreate path => <[path := ""]> fs
  | CallExecute path content => <[path := content]> fs
  | _ => fs
  end.

Definition renderedFiles (cs : list Call) (fs : gmap string string)
  : gmap string string :=
  foldl applyCall fs cs.

(** The calls that need composer: its download and the commands run. *)
Definition composerCall (c : Call) : bool :=
  match c with
  | CallFetchDependency _ _ | CallRun _ => true
  | _ => false
  end.

(** No call of the step needs composer, whatever its error. *)
Definition withoutComposer (r : Step) : Prop :=
  traced (fun _ => True) (fun _ => True)
    (Forall (fun c => composerCall c = false)) r.

(** ** Sample inputs *)

Definition sampleStager : Stager :=
  {| BuildDir := "/tmp/app"; CacheDir := "/tmp/cache";
     DepDir := "/tmp/deps/0"; DepsDir := "/tmp/deps"; DepsIdx := "0" |}.

(** A catalog with three versions; [withDefault] says whether it names a
    default version. *)
Definition sampleManifest (withDefault : bool) : Manifest :=
  {| AllDependencyVersions := fun _ => ["7.2.1"; "7.2.9"; "7.3.0"];
     DefaultVersion := fun _ =>
       if withDefault then inl {| Name := "php"; Version := "7.4.0" |}
       else inr "no default version for php" |}.

(** A supplier as [Run] finds it after [ReadConfig]. *)
Definition sampleSupplier (withDefault : bool)
    (options composer : gmap string json) : Supplier :=
  {| manifest := sampleManifest withDefault; stager := sampleStager;
     Log := []; PhpVersion := "";
     ComposerJson := composer; OptionsJson := options;
     PhpExtensions := ∅; ZendExtensions := ∅; WebDir := "" |}.

(** A matcher that knows two constraints. *)
Definition sampleMatch (constraint : string) (versions : list string)
  : string + error :=
  if bool_decide (constraint = "7.2.x") then inl "7.2.9"
  else if bool_decide (constraint = "~>7.2") then inl "7.3.0"
  else inr "no match found".

(** A [require] map with two extension keys and a package. *)
Definition sampleRequire : gmap string json :=
  <["ext-pdo_mysql" := JString "*"]>
    (<["ext-curl" := JString "*"]> {[ "monolog/monolog" := JString "^1.0" ]}).

(** A supplier with a [PHP_EXTENSIONS] array and [sampleRequire]. *)
Definition sampleExtSupplier : Supplier :=
  sampleSupplier true
    {[ "PHP_EXTENSIONS" := JArray [JString "foo"; JNull] ]}
    {[ "require" := JObject sampleRequire ]}.

Definition sampleOrder : list string :=
  ["ext-pdo_mysql"; "monolog/monolog"; "ext-curl"].

(** A supplier after [SetupExtensions] with no options.json and no
    composer.json: the extension set is the built-in defaults. *)
Definition sampleStaged : Supplier := SetupExtensions [] (sampleSupplier true ∅ ∅).

Definition samplePhpOrder : list string := ["mcrypt"; "bz2"; "curl"; "zlib"].

Definition sampleCtxOrder : list string :=
  ["TMPDIR"; "Webdir"; "PhpExtensions"; "HOME"; "Libdir"; "DepsIdx";
   "ZendExtensions"; "PhpFpmListen"; "DEPS_DIR"; "PhpFpmConfInclude"].

(** A template library that knows the fragment and nothing else. *)
Definition sampleParse (name text : string) : list node + error :=
  match Parse text with
  | Some nodes => inl nodes
  | None => inr ("template: " +:+ name +:+ ": outside the fragment")
  end.

Definition sampleExecute (nodes : list node) (ctx : gmap string string)
  : string * option error :=
  (Execute nodes ctx, None).

(** [filepath.Join] on elements that need no other cleaning than the
    removal of one trailing slash. *)
Fixpoint trimSlash (p : string) : string :=
  match p with
  | EmptyString => EmptyString
  | String c EmptyString => if Ascii.eqb c "/" then EmptyString else p
  | String c p' => String c (trimSlash p')
  end.

Definition sampleJoin (elem : list string) : string :=
  strings.Join (map trimSlash elem) "/".

(** A walk that visits a directory and the one file in it. *)
Definition sampleWalk (src : string) : Walk :=
  ([(src, true); (src +:+ "/php.ini", false)], None).

(** * Properties *)

#[local] Arguments strings.Split : simpl never.
#[local] Arguments strings.Replace : simpl never.

(** ** Strings *)

Lemma append_nil_r (s : string) : s +:+ "" = s.
Proof. induction s as [|x s IH]; simpl; [done|by rewrite IH]. Qed.

Lemma append_assoc (a b c : string) : (a +:+ b) +:+ c = a +:+ (b +:+ c).
Proof. induction a as [|x a IH]; simpl; [done|by rewrite IH]. Qed.

Lemma length_append (a b : string) :
  String.length (a +:+ b) = String.length a + String.length b.
Proof. induction a as [|x a IH]; simpl; [done|by rewrite IH]. Qed.

Lemma countByte_append (c : ascii) (a b : string) :
  countByte c (a +:+ b) = countByte c a + countByte c b.
Proof. induction a as [|x a IH]; simpl; [done|]. rewrite IH. lia. Qed.

Lemma without_countByte (c : ascii) (s : string) :
  without c s = true -> countByte c s = 0.
Proof.
  induction s as [|b s IH]; simpl; [done|].
  destruct (Ascii.eqb b c); simpl; [done|auto].
Qed.

(** ** [strings.Split] and [strings.Join] on the dot *)

Lemma Split_dot_cons (c : ascii) (s : string) :
  strings.Split (String c s) "." =
  if Ascii.eqb c "." then "" :: strings.Split s "."
  else strings.push_byte c (strings.Split s ".").
Proof. unfold strings.Split. simpl. by destruct (Ascii.eqb c "."). Qed.

Lemma Split_dot_nonempty (s : string) : strings.Split s "." <> [].
Proof.
  destruct s as [|c s]; [done|]. rewrite Split_dot_cons.
  destruct (Ascii.eqb c "."); [done|].
  by destruct (strings.Split s ".").
Qed.

Lemma Join_cons (e : string) (rest : list string) (sep : string) :
  rest <> [] -> strings.Join (e :: rest) sep = e +:+ sep +:+ strings.Join rest sep.
Proof. by destruct rest. Qed.

Lemma Join_push_byte (c : ascii) (parts : list string) (sep : string) :
  parts <> [] ->
  strings.Join (strings.push_byte c parts) sep = String c (strings.Join parts sep).
Proof. destruct parts as [|p [|q rest]]; [done|done|done]. Qed.

Lemma Join_Split_dot (s : string) : strings.Join (strings.Split s ".") "." = s.
Proof.
  induction s as [|c s IH]; [done|]. rewrite Split_dot_cons.
  destruct (Ascii.eqb c ".") eqn:E.
  - apply Ascii.eqb_eq in E as ->.
    rewrite Join_cons by apply Split_dot_nonempty. by rewrite IH.
  - rewrite Join_push_byte by apply Split_dot_nonempty. by rewrite IH.
Qed.

Lemma Split_dot_without (s : string) :
  Forall (fun p => without "." p = true) (strings.Split s ".").
Proof.
  induction s as [|c s IH]; [by repeat constructor|]. rewrite Split_dot_cons.
  destruct (Ascii.eqb c ".") eqn:E.
  - by constructor.
  - destruct (strings.Split s ".") as [|p rest]; simpl.
    + repeat constructor. simpl. by rewrite E.
    + inversion IH; subst. constructor; [|done]. simpl. by rewrite E.
Qed.

Lemma Split_dot_component (p r : string) :
  without "." p = true ->
  strings.Split (p +:+ "." +:+ r) "." = p :: strings.Split r ".".
Proof.
  induction p as [|c p IH]; intros Hp.
  - simpl. by rewrite Split_dot_cons.
  - simpl in Hp. apply andb_true_iff in Hp as [Hc Hp].
    change (String c p +:+ "." +:+ r) with (String c (p +:+ "." +:+ r)).
    rewrite Split_dot_cons. apply negb_true_iff in Hc. rewrite Hc.
    by rewrite IH.
Qed.

Lemma Split_dot_single (p : string) :
  without "." p = true -> strings.Split p "." = [p].
Proof.
  induction p as [|c p IH]; intros Hp; [done|].
  simpl in Hp. apply andb_true_iff in Hp as [Hc Hp].
  rewrite Split_dot_cons. apply negb_true_iff in Hc. rewrite Hc.
  by rewrite IH.
Qed.

Lemma Split_Join_dot (parts : list string) :
  parts <> [] -> Forall (fun p => without "." p = true) parts ->
  strings.Split (strings.Join parts ".") "." = parts.
Proof.
  induction parts as [|p rest IH]; [done|]. intros _ Hall.
  inversion Hall as [|? ? Hp Hrest]; subst.
  destruct rest as [|q rest].
  - by apply Split_dot_single.
  - rewrite Join_cons by done. rewrite Split_dot_component by done.
    by rewrite IH.
Qed.

Lemma countByte_Join_dot (parts : list string) :
  Forall (fun p => without "." p = true) parts ->
  countByte "." (strings.Join parts ".") = List.length parts - 1.
Proof.
  induction parts as [|p rest IH]; [done|]. intros Hall.
  inversion Hall as [|? ? Hp Hrest]; subst.
  destruct rest as [|q rest].
  - simpl. by apply without_countByte.
  - rewrite Join_cons by done. rewrite !countByte_append.
    rewrite (without_countByte _ _ Hp), IH by done. simpl. lia.
Qed.

Lemma set_last_snoc (cs : list string) (c x : string) :
  set_last (cs ++ [c]) x = cs ++ [x].
Proof.
  induction cs as [|a cs IH]; [done|]. simpl.
  destruct (cs ++ [c]) as [|b l] eqn:E.
  - by destruct cs.
  - by rewrite <- IH.
Qed.

Lemma Split_dot_snoc (v : string) :
  exists cs c, strings.Split v "." = cs ++ [c].
Proof.
  destruct (strings.Split v ".") as [|p l] eqn:E using rev_ind.
  - by apply Split_dot_nonempty in E.
  - eauto.
Qed.

Lemma versionLine_Join (cs : list string) (c : string) :
  Forall (fun p => without "." p = true) (cs ++ [c]) ->
  versionLine (strings.Join (cs ++ [c]) ".") = strings.Join (cs ++ ["x"]) ".".
Proof.
  intros Hall. unfold versionLine.
  rewrite Split_Join_dot; [|by destruct cs|done].
  by rewrite set_last_snoc.
Qed.

(** C10. [versionLine] replaces exactly the last dot-separated component
    of its input with ["x"]: every [v] is the dot-join of dot-free
    components [cs ++ [c]] and [versionLine v] is the dot-join of
    [cs ++ ["x"]], so the leading components and the number of dots are
    kept; ["7.2.14"], ["7.2"] and ["7"] give ["7.2.x"], ["7.x"] and ["x"];
    a string whose last component is ["x"] is left as it is, and
    [versionLine] is idempotent. *)
Theorem versionLine_last_component :
  (forall v, exists cs c,
      strings.Split v "." = cs ++ [c] /\
      Forall (fun p => without "." p = true) (cs ++ [c]) /\
      v = strings.Join (cs ++ [c]) "." /\
      versionLine v = strings.Join (cs ++ ["x"]) ".") /\
  (forall v, countByte "." (versionLine v) = countByte "." v) /\
  versionLine "7.2.14" = "7.2.x" /\
  versionLine "7.2" = "7.x" /\
  versionLine "7" = "x" /\
  (forall v, last (strings.Split v ".") = Some "x" -> versionLine v = v) /\
  (forall v, versionLine (versionLine v) = versionLine v).
Proof.
  assert (Hdec : forall v, exists cs c,
      strings.Split v "." = cs ++ [c] /\
      Forall (fun p => without "." p = true) (cs ++ [c]) /\
      v = strings.Join (cs ++ [c]) "." /\
      versionLine v = strings.Join (cs ++ ["x"]) ".").
  { intros v. destruct (Split_dot_snoc v) as (cs & c & E).
    exists cs, c. split; [done|].
    assert (Hall := Split_dot_without v). rewrite E in Hall.
    split; [done|]. split.
    - by rewrite <- E, Join_Split_dot.
    - unfold versionLine. by rewrite E, set_last_snoc. }
  assert (Hx : forall cs : list string,
      Forall (fun p => without "." p = true) cs ->
      Forall (fun p => without "." p = true) (cs ++ ["x"])).
  { intros cs H. apply Forall_app. split; [done|]. by repeat constructor. }
  split; [done|]. split; [|split; [done|split; [done|split; [done|split]]]].
  - intros v. destruct (Hdec v) as (cs & c & _ & Hall & Hv & Hl).
    rewrite Hl. rewrite Hv at 1.
    apply Forall_app in Hall as [Hcs Hc].
    rewrite (countByte_Join_dot (cs ++ ["x"])) by (by apply Hx).
    rewrite (countByte_Join_dot (cs ++ [c])) by (apply Forall_app; by split).
    by rewrite !length_app.
  - intros v Hlast. destruct (Hdec v) as (cs & c & E & _ & Hv & Hl).
    rewrite E, last_snoc in Hlast. injection Hlast as ->. congruence.
  - intros v. destruct (Hdec v) as (cs & c & _ & Hall & _ & Hl).
    rewrite Hl. apply Forall_app in Hall as [Hcs _].
    apply versionLine_Join. by apply Hx.
Qed.

Lemma versionLine_last_component_witness :
  last (strings.Split "7.2.x" ".") = Some "x" /\ versionLine "7.2.x" = "7.2.x".
Proof.
  split; [reflexivity|].
  apply (proj1 (proj2 (proj2 (proj2 (proj2 (proj2 versionLine_last_component)))))).
  reflexivity.
Defined.

(** ** Alias expansion *)

Lemma alias_match_here_shape (s : string) :
  alias_match_here s = [] \/
  exists w d1 d2, alias_match_here s = [w; String d1 ""; String d2 ""].
Proof.
  unfold alias_match_here.
  destruct (strings.HasPrefix s "PHP_"); [|by left].
  destruct (String.substring 4 (String.length s - 4) s) as [|d1 [|d2 rest]];
    [by left|by left|].
  destruct (isDigit d1 && isDigit d2 && strings.HasPrefix rest "_LATEST");
    [right; eauto|by left].
Qed.

Lemma FindStringSubmatch_shape (s : string) :
  FindStringSubmatch s = [] \/
  exists w d1 d2, FindStringSubmatch s = [w; String d1 ""; String d2 ""].
Proof.
  induction s as [|c s IH].
  - by left.
  - simpl FindStringSubmatch.
    destruct (alias_match_here_shape (String c s)) as [->|(w & d1 & d2 & ->)].
    + exact IH.
    + right; eauto.
Qed.

Lemma FindStringSubmatch_dotted (d1 d2 : ascii) :
  FindStringSubmatch (String d1 (String "." (String d2 ".x"))) = [].
Proof.
  unfold FindStringSubmatch, alias_match_here. simpl.
  destruct (Ascii.eqb d1 "P"), (Ascii.eqb d2 "P"); reflexivity.
Qed.

Lemma expandAlias_cases (v : string) :
  (FindStringSubmatch v = [] /\ expandAlias v = v) \/
  exists d1 d2, expandAlias v = String d1 (String "." (String d2 ".x")).
Proof.
  unfold expandAlias.
  destruct (FindStringSubmatch_shape v) as [E|(w & d1 & d2 & E)]; rewrite E.
  - by left.
  - right. by exists d1, d2.
Qed.

Lemma expandAlias_nonempty (v : string) : v <> "" -> expandAlias v <> "".
Proof.
  intros Hv. destruct (expandAlias_cases v) as [[_ ->]|(d1 & d2 & ->)]; done.
Qed.

Lemma alias_match_here_alias (d1 d2 : ascii) :
  isDigit d1 = true -> isDigit d2 = true ->
  alias_match_here ("PHP_" +:+ String d1 (String d2 "_LATEST")) =
  ["PHP_" +:+ String d1 (String d2 "_LATEST"); String d1 ""; String d2 ""].
Proof.
  intros H1 H2. unfold alias_match_here. simpl. by rewrite H1, H2.
Qed.

Lemma expandAlias_alias (d1 d2 : ascii) :
  isDigit d1 = true -> isDigit d2 = true ->
  expandAlias ("PHP_" +:+ String d1 (String d2 "_LATEST")) =
  String d1 (String "." (String d2 ".x")).
Proof.
  intros H1 H2. unfold expandAlias.
  change ("PHP_" +:+ String d1 (String d2 "_LATEST"))
    with (String "P" ("HP_" +:+ String d1 (String d2 "_LATEST"))).
  cbv beta iota delta [FindStringSubmatch]; fold FindStringSubmatch.
  change (String "P" ("HP_" +:+ String d1 (String d2 "_LATEST")))
    with ("PHP_" +:+ String d1 (String d2 "_LATEST")).
  by rewrite alias_match_here_alias.
Qed.

(** ** The steps of [SetupPhpVersion] *)

Section SupplyFacts.

Variable FindMatchingVersion : string -> list string -> string + error.

Lemma versionFromOptions_PhpVersion (s : Supplier) :
  PhpVersion (versionFromOptions s) =
  match optionsVersion s with
  | Some version => expandAlias version
  | None => PhpVersion s
  end.
Proof.
  unfold versionFromOptions, optionsVersion, expandAlias.
  destruct (as_string (OptionsJson s !! "PHP_VERSION")) as [version|]; [|done].
  destruct (bool_decide (version <> "")); [|done].
  by destruct (FindStringSubmatch version) as [|? [|? [|? [|? ?]]]].
Qed.

Lemma versionFromOptions_frame (s : Supplier) :
  manifest (versionFromOptions s) = manifest s /\
  ComposerJson (versionFromOptions s) = ComposerJson s /\
  OptionsJson (versionFromOptions s) = OptionsJson s.
Proof.
  unfold versionFromOptions.
  destruct (as_string (OptionsJson s !! "PHP_VERSION")) as [version|]; [|done].
  destruct (bool_decide (version <> "")); [|done].
  by destruct (FindStringSubmatch version) as [|? [|? [|? [|? ?]]]].
Qed.

Lemma versionFromComposer_PhpVersion (s : Supplier) :
  PhpVersion (versionFromComposer s) =
  match composerVersion s with
  | Some version => strings.Replace version ">=" "~>"
  | None => PhpVersion s
  end.
Proof.
  unfold versionFromComposer, composerVersion.
  destruct (as_object (ComposerJson s !! "require")) as [require|]; [|done].
  destruct (as_string (require !! "php")) as [version|]; [|done].
  by destruct (bool_decide (version <> "")).
Qed.

Lemma versionFromComposer_frame (s : Supplier) :
  manifest (versionFromComposer s) = manifest s /\
  ComposerJson (versionFromComposer s) = ComposerJson s /\
  OptionsJson (versionFromComposer s) = OptionsJson s.
Proof.
  unfold versionFromComposer.
  destruct (as_object (ComposerJson s !! "require")) as [require|]; [|done].
  destruct (as_string (require !! "php")) as [version|]; [|done].
  destruct (bool_decide (version <> "")); [|done].
  by destruct (bool_decide (PhpVersion s <> "")).
Qed.

Lemma candidate_manifest (s : Supplier) :
  manifest (versionFromComposer (versionFromOptions s)) = manifest s.
Proof.
  destruct (versionFromComposer_frame (versionFromOptions s)) as [-> _].
  apply versionFromOptions_frame.
Qed.

Lemma composerVersion_after_options (s : Supplier) :
  composerVersion (versionFromOptions s) = composerVersion s.
Proof.
  unfold composerVersion.
  by destruct (versionFromOptions_frame s) as (_ & -> & _).
Qed.

Lemma Replace_ge_nonempty (version : string) :
  version <> "" -> strings.Replace version ">=" "~>" <> "".
Proof.
  destruct version as [|c v]; [done|]. intros _.
  unfold strings.Replace. simpl.
  by destruct (Ascii.eqb c ">"); [destruct v as [|c' v]; [|destruct (Ascii.eqb c' "=")]|].
Qed.

Lemma candidate_cases (s : Supplier) :
  candidate s =
  match composerVersion s with
  | Some version => strings.Replace version ">=" "~>"
  | None => match optionsVersion s with
            | Some version => expandAlias version
            | None => PhpVersion s
            end
  end.
Proof.
  unfold candidate.
  rewrite versionFromComposer_PhpVersion, composerVersion_after_options.
  by rewrite versionFromOptions_PhpVersion.
Qed.

Lemma quiet_precedenceWarned (a b c : list LogCall) :
  quiet a -> quiet c -> precedenceWarned (a ++ b ++ c) <-> precedenceWarned b.
Proof.
  unfold quiet, precedenceWarned. rewrite !Forall_forall. intros Ha Hc.
  rewrite !elem_of_app.
  split.
  - intros [[H1|[H1|H1]] [H2|[H2|H2]]]; try done;
      try (apply Ha in H1; simpl in H1; by destruct H1);
      try (apply Hc in H1; simpl in H1; by destruct H1);
      try (apply Ha in H2; simpl in H2; by destruct H2);
      try (apply Hc in H2; simpl in H2; by destruct H2).
  - intros [H1 H2]. auto.
Qed.

Lemma quiet_nil : quiet [].
Proof. constructor. Qed.

Ltac nothing_logged :=
  exists []; rewrite app_nil_r; split; [reflexivity|apply quiet_nil].

Ltac logged :=
  simpl; rewrite <- ?app_assoc; eexists; (split; [reflexivity|]);
  repeat constructor; done.

Lemma log_versionFromOptions (s : Supplier) :
  exists new, Log (versionFromOptions s) = Log s ++ new /\ quiet new.
Proof.
  unfold versionFromOptions.
  destruct (as_string (OptionsJson s !! "PHP_VERSION")) as [version|];
    [|nothing_logged].
  destruct (bool_decide (version <> ""));
    [|nothing_logged].
  destruct (FindStringSubmatch version) as [|? [|? [|? [|? ?]]]]; logged.
Qed.

Lemma log_versionFromComposer (s : Supplier) :
  exists new, Log (versionFromComposer s) = Log s ++ new /\
    (precedenceWarned new <-> composerVersion s <> None /\ PhpVersion s <> "").
Proof.
  assert (Hnil : ~ precedenceWarned []).
  { intros [H _]. by apply elem_of_nil in H. }
  unfold versionFromComposer, composerVersion.
  destruct (as_object (ComposerJson s !! "require")) as [require|];
    [|exists []; rewrite app_nil_r; split; [done|]; split; [done|by intros [? _]]].
  destruct (as_string (require !! "php")) as [version|];
    [|exists []; rewrite app_nil_r; split; [done|]; split; [done|by intros [? _]]].
  destruct (bool_decide (version <> ""));
    [|exists []; rewrite app_nil_r; split; [done|]; split; [done|by intros [? _]]].
  destruct (bool_decide_reflect (PhpVersion s <> "")) as [Hv|Hv]; simpl;
    rewrite <- ?app_assoc; eexists; (split; [reflexivity|]).
  - split; [done|]. intros _. unfold precedenceWarned. simpl.
    rewrite !elem_of_cons. auto.
  - split; [|by intros [_ ?]]. intros [H _].
    apply list_elem_of_singleton in H. discriminate H.
Qed.

Lemma log_matchCatalog (s : Supplier) :
  exists new, Log (matchCatalog FindMatchingVersion s) = Log s ++ new /\ quiet new.
Proof.
  unfold matchCatalog.
  destruct (bool_decide (PhpVersion s <> ""));
    [|nothing_logged].
  destruct (FindMatchingVersion _ _); logged.
Qed.

Lemma log_defaultVersion (s : Supplier) :
  exists new, Log (defaultVersion s).1 = Log s ++ new /\ quiet new.
Proof.
  unfold defaultVersion.
  destruct (bool_decide (PhpVersion s = ""));
    [|nothing_logged].
  destruct (DefaultVersion _ _); [logged|nothing_logged].
Qed.

Lemma quiet_app (a b : list LogCall) : quiet a -> quiet b -> quiet (a ++ b).
Proof. unfold quiet. intros. by apply Forall_app. Qed.

Lemma log_SetupPhpVersion (s : Supplier) :
  PhpVersion s = "" ->
  exists new, Log (SetupPhpVersion FindMatchingVersion s).1 = Log s ++ new /\
    (precedenceWarned new <-> optionsVersion s <> None /\ composerVersion s <> None).
Proof.
  intros H0. unfold SetupPhpVersion.
  destruct (log_versionFromOptions s) as (n1 & E1 & Q1).
  destruct (log_versionFromComposer (versionFromOptions s)) as (n2 & E2 & W2).
  destruct (log_matchCatalog (versionFromComposer (versionFromOptions s)))
    as (n3 & E3 & Q3).
  destruct (log_defaultVersion
    (matchCatalog FindMatchingVersion (versionFromComposer (versionFromOptions s))))
    as (n4 & E4 & Q4).
  exists (n1 ++ n2 ++ (n3 ++ n4)). split.
  - rewrite E4, E3, E2, E1. by rewrite <- !app_assoc.
  - rewrite quiet_precedenceWarned by (done || by apply quiet_app).
    rewrite W2, composerVersion_after_options, versionFromOptions_PhpVersion, H0.
    destruct (optionsVersion s) as [version|] eqn:Eo.
    + assert (version <> "") as Hne.
      { unfold optionsVersion in Eo.
        destruct (as_string _); [|done].
        destruct (bool_decide_reflect (s0 <> "")); [congruence|done]. }
      apply expandAlias_nonempty in Hne. split; intros [? ?]; by split.
    + split; intros [? ?]; done.
Qed.

Lemma SetupPhpVersion_matched (s : Supplier) (v : string) :
  candidate s <> "" ->
  FindMatchingVersion (candidate s) (AllDependencyVersions (manifest s) "php")
    = inl v ->
  v <> "" ->
  PhpVersion (SetupPhpVersion FindMatchingVersion s).1 = v /\
  (SetupPhpVersion FindMatchingVersion s).2 = None.
Proof.
  intros Hc HF Hv. unfold SetupPhpVersion, matchCatalog.
  fold (candidate s). rewrite candidate_manifest.
  rewrite (bool_decide_eq_true_2 _ Hc), HF.
  unfold defaultVersion. simpl.
  by rewrite (bool_decide_eq_false_2 _ Hv).
Qed.

(** C5. When composer.json supplies a non-empty [php] constraint, the
    constraint handed to the catalog match is that constraint with every
    [>=] replaced by [~>], whatever options.json says, and a catalog match
    of it is the resolved version.  Started from a supplier with no
    version yet, [SetupPhpVersion] logs the precedence warning exactly when
    options.json and composer.json both supplied a version. *)
Theorem composer_constraint_overrides_options (s : Supplier) :
  (forall (require : gmap string json) (version : string),
     ComposerJson s !! "require" = Some (JObject require) ->
     require !! "php" = Some (JString version) ->
     version <> "" ->
     candidate s = strings.Replace version ">=" "~>" /\
     forall v,
       FindMatchingVersion (strings.Replace version ">=" "~>")
         (AllDependencyVersions (manifest s) "php") = inl v ->
       v <> "" ->
       PhpVersion (SetupPhpVersion FindMatchingVersion s).1 = v /\
       (SetupPhpVersion FindMatchingVersion s).2 = None) /\
  (PhpVersion s = "" ->
   exists new,
     Log (SetupPhpVersion FindMatchingVersion s).1 = Log s ++ new /\
     (precedenceWarned new <->
      optionsVersion s <> None /\ composerVersion s <> None)).
Proof.
  split; [|apply log_SetupPhpVersion].
  intros require version Hr Hp Hne.
  assert (composerVersion s = Some version) as Hc.
  { unfold composerVersion. rewrite Hr. simpl. rewrite Hp. simpl.
    by rewrite (bool_decide_eq_true_2 _ Hne). }
  assert (candidate s = strings.Replace version ">=" "~>") as Hcand.
  { by rewrite candidate_cases, Hc. }
  split; [done|]. intros v HF Hv. rewrite <- Hcand in HF.
  apply SetupPhpVersion_matched; [|done|done].
  rewrite Hcand. by apply Replace_ge_nonempty.
Qed.

(** C6. A candidate constraint that matches no catalog entry does not
    make [SetupPhpVersion] fail: the warning is logged and the default
    version of the catalog is used.  When no candidate survives (none was
    supplied, or the supplied one matched nothing) and the default-version
    lookup returns an error, [SetupPhpVersion] returns that error. *)
Theorem unmatched_candidate_uses_default (s : Supplier) :
  (forall (e : error) (dep : Dependency),
     candidate s <> "" ->
     FindMatchingVersion (candidate s) (AllDependencyVersions (manifest s) "php")
       = inr e ->
     DefaultVersion (manifest s) "php" = inl dep ->
     (SetupPhpVersion FindMatchingVersion s).2 = None /\
     PhpVersion (SetupPhpVersion FindMatchingVersion s).1 = Version dep /\
     {| level := LWarning; format := not_available_warning;
        args := [AString (candidate s)] |}
       ∈ Log (SetupPhpVersion FindMatchingVersion s).1) /\
  (forall err : error,
     candidate s = "" \/
     (exists e, FindMatchingVersion (candidate s)
                  (AllDependencyVersions (manifest s) "php") = inr e) ->
     DefaultVersion (manifest s) "php" = inr err ->
     (SetupPhpVersion FindMatchingVersion s).2 = Some err).
Proof.
  split.
  - intros e dep Hc HF HD. unfold SetupPhpVersion, matchCatalog.
    fold (candidate s). rewrite candidate_manifest.
    rewrite (bool_decide_eq_true_2 _ Hc), HF.
    unfold defaultVersion. simpl. rewrite candidate_manifest, HD. simpl.
    split; [done|]. split; [done|].
    rewrite !elem_of_app, !list_elem_of_singleton. auto.
  - intros err Hno HD. unfold SetupPhpVersion, matchCatalog.
    fold (candidate s). rewrite candidate_manifest.
    destruct (bool_decide_reflect (candidate s <> "")) as [Hc|Hc].
    + destruct Hno as [Hno|[e HF]]; [done|]. rewrite HF.
      unfold defaultVersion. simpl. by rewrite candidate_manifest, HD.
    + unfold defaultVersion. fold (candidate s).
      rewrite candidate_manifest, HD.
      destruct (bool_decide_reflect (candidate s = "")) as [|Hc']; [done|].
      destruct (decide (candidate s = "")); done.
Qed.

(** C7. An options-file version [PHP_<d><d>_LATEST] expands to
    [<d>.<d>.x], and it is the expanded string that is matched against the
    catalog; a version without a match of the alias pattern is left
    unchanged; expanding twice is expanding once. *)
Theorem expandAlias_idempotent :
  (forall d1 d2 : ascii,
     isDigit d1 = true -> isDigit d2 = true ->
     expandAlias ("PHP_" +:+ String d1 (String d2 "_LATEST")) =
     String d1 (String "." (String d2 ".x"))) /\
  expandAlias "PHP_72_LATEST" = "7.2.x" /\
  (forall v, FindStringSubmatch v = [] -> expandAlias v = v) /\
  expandAlias "7.2.x" = "7.2.x" /\
  (forall v, expandAlias (expandAlias v) = expandAlias v) /\
  (forall (s : Supplier) (version : string),
     OptionsJson s !! "PHP_VERSION" = Some (JString version) ->
     version <> "" ->
     composerVersion s = None ->
     candidate s = expandAlias version /\
     forall v,
       FindMatchingVersion (expandAlias version)
         (AllDependencyVersions (manifest s) "php") = inl v ->
       v <> "" ->
       PhpVersion (SetupPhpVersion FindMatchingVersion s).1 = v).
Proof.
  split; [apply expandAlias_alias|]. split; [reflexivity|].
  split; [intros v E; unfold expandAlias; by rewrite E|].
  split; [reflexivity|]. split.
  - intros v. destruct (expandAlias_cases v) as [[_ E]|(d1 & d2 & E)]; rewrite E.
    + exact E.
    + unfold expandAlias. by rewrite FindStringSubmatch_dotted.
  - intros s version Ho Hne Hc.
    assert (candidate s = expandAlias version) as Hcand.
    { rewrite candidate_cases, Hc. unfold optionsVersion. rewrite Ho. simpl.
      by rewrite (bool_decide_eq_true_2 _ Hne). }
    split; [done|]. intros v HF Hv. rewrite <- Hcand in HF.
    apply SetupPhpVersion_matched; [|done|done].
    rewrite Hcand. by apply expandAlias_nonempty.
Qed.

End SupplyFacts.

Lemma composer_constraint_overrides_options_witness :
  let require : gmap string json := {[ "php" := JString ">=7.2" ]} in
  let s := sampleSupplier true {[ "PHP_VERSION" := JString "7.1.x" ]}
             {[ "require" := JObject require ]} in
  (ComposerJson s !! "require" = Some (JObject require) /\
   require !! "php" = Some (JString ">=7.2") /\
   ">=7.2" <> "" /\ PhpVersion s = "") /\
  candidate s = "~>7.2" /\
  PhpVersion (SetupPhpVersion sampleMatch s).1 = "7.3.0" /\
  exists new,
    Log (SetupPhpVersion sampleMatch s).1 = Log s ++ new /\
    (precedenceWarned new <->
     optionsVersion s <> None /\ composerVersion s <> None).
Proof.
  intros require s.
  destruct (composer_constraint_overrides_options sampleMatch s) as [H1 H2].
  destruct (H1 require ">=7.2") as [Hc Hv]; [reflexivity|reflexivity|done|].
  split; [repeat split; done|].
  split; [exact Hc|].
  split; [by apply Hv|].
  by apply H2.
Defined.

Lemma unmatched_candidate_uses_default_witness :
  let s := sampleSupplier true {[ "PHP_VERSION" := JString "5.3.x" ]} ∅ in
  let s' := sampleSupplier false ∅ ∅ in
  (candidate s <> "" /\
   sampleMatch (candidate s) (AllDependencyVersions (manifest s) "php")
     = inr "no match found" /\
   candidate s' = "") /\
  (SetupPhpVersion sampleMatch s).2 = None /\
  PhpVersion (SetupPhpVersion sampleMatch s).1 = "7.4.0" /\
  (SetupPhpVersion sampleMatch s').2 = Some "no default version for php".
Proof.
  intros s s'.
  destruct (unmatched_candidate_uses_default sampleMatch s) as [H1 _].
  destruct (unmatched_candidate_uses_default sampleMatch s') as [_ H2].
  destruct (H1 "no match found" {| Name := "php"; Version := "7.4.0" |})
    as (Herr & Hv & _); [done|reflexivity|reflexivity|].
  split; [repeat split; done|].
  split; [exact Herr|]. split; [exact Hv|].
  apply H2; [by left|reflexivity].
Defined.

Lemma expandAlias_idempotent_witness :
  let s := sampleSupplier true {[ "PHP_VERSION" := JString "PHP_72_LATEST" ]} ∅ in
  (isDigit "7"%char = true /\ isDigit "2"%char = true /\
   OptionsJson s !! "PHP_VERSION" = Some (JString "PHP_72_LATEST") /\
   composerVersion s = None) /\
  expandAlias "PHP_72_LATEST" = "7.2.x" /\
  PhpVersion (SetupPhpVersion sampleMatch s).1 = "7.2.9".
Proof.
  intros s.
  destruct (expandAlias_idempotent sampleMatch) as (H1 & _ & _ & _ & _ & H2).
  destruct (H2 s "PHP_72_LATEST") as [_ Hv]; [reflexivity|done|reflexivity|].
  split; [repeat split; reflexivity|].
  split; [apply (H1 "7"%char "2"%char); reflexivity|].
  by apply Hv.
Defined.

(** ** [SetupExtensions] *)

Lemma foldl_Permutation {A B} (f : A -> B -> A) (l1 l2 : list B) :
  (forall a x y, f (f a x) y = f (f a y) x) ->
  l1 ≡ₚ l2 -> forall a, foldl f a l1 = foldl f a l2.
Proof.
  intros Hf Hp. induction Hp as [|x l1 l2 _ IH|x y l|l1 l2 l3 _ IH1 _ IH2];
    intros a; simpl.
  - done.
  - apply IH.
  - by rewrite Hf.
  - by rewrite IH1.
Qed.

Lemma insert_true_comm (a b : string) (m : gmap string bool) :
  <[a := true]> (<[b := true]> m) = <[b := true]> (<[a := true]> m).
Proof.
  destruct (decide (a = b)) as [->|Hne]; [done|]. by apply insert_insert_ne.
Qed.

Lemma range_of_Permutation {V} (m : gmap string V) (o1 o2 : list string) :
  range_of m o1 -> range_of m o2 -> o1 ≡ₚ o2.
Proof.
  intros [N1 E1] [N2 E2]. apply NoDup_Permutation; [done|done|].
  intros x. rewrite <- !(elem_of_list_to_set (C := gset string)).
  by rewrite E1, E2.
Qed.

Lemma range_of_elem {V} (m : gmap string V) (order : list string) (k : string) :
  range_of m order -> k ∈ order <-> is_Some (m !! k).
Proof.
  intros [_ E]. rewrite <- elem_of_dom, <- E.
  by rewrite elem_of_list_to_set.
Qed.

Lemma substring_all (s : string) : String.substring 0 (String.length s) s = s.
Proof. induction s as [|c s IH]; simpl; [done|by rewrite IH]. Qed.

(** [k[4:]] of [ext-] followed by [x] is [x]. *)
Lemma strip4_ext (x : string) : strip4 ("ext-" +:+ x) = x.
Proof. unfold strip4. simpl. rewrite Nat.sub_0_r. apply substring_all. Qed.

(** A key with the prefix [ext-] is [ext-] followed by [k[4:]]. *)
Lemma HasPrefix_ext (k : string) :
  strings.HasPrefix k "ext-" = true -> k = "ext-" +:+ strip4 k.
Proof.
  destruct k as [|c1 [|c2 [|c3 [|c4 r]]]]; simpl; try done;
    repeat (match goal with
            | |- context [Ascii.eqb ?a ?b] =>
                destruct (Ascii.eqb_spec a b) as [->|?]; [|done]
            end); try done.
  intros _. exact (f_equal (String.append "ext-") (eq_sym (strip4_ext r))).
Qed.

Lemma contributes_key (k x : string) :
  bool_decide (k = "ext-" +:+ x) =
  strings.HasPrefix k "ext-" && bool_decide (x = strip4 k).
Proof.
  destruct (strings.HasPrefix k "ext-") eqn:Hp; simpl.
  - apply HasPrefix_ext in Hp. apply bool_decide_ext. split.
    + intros ->. symmetry. exact (strip4_ext x).
    + by intros ->.
  - apply bool_decide_eq_false_2. intros ->.
    by compute in Hp.
Qed.

Lemma addRequire_lookup (k x : string) (m : gmap string bool) :
  addRequire k m !! x = if contributes k x then Some true else m !! x.
Proof.
  unfold addRequire, contributes. rewrite contributes_key.
  destruct (strings.HasPrefix k "ext-"), (strings.HasPrefix k "ext-pdo_"); simpl;
    rewrite ?lookup_insert; repeat case_decide; repeat case_bool_decide;
    simpl; congruence.
Qed.

Lemma addRequire_comm (k1 k2 : string) (m : gmap string bool) :
  addRequire k2 (addRequire k1 m) = addRequire k1 (addRequire k2 m).
Proof.
  apply map_eq. intros x. rewrite !addRequire_lookup.
  by destruct (contributes k1 x), (contributes k2 x).
Qed.

Lemma range_addRequire_comm (requires : gmap string json) (o1 o2 : list string)
    (m : gmap string bool) :
  o1 ≡ₚ o2 ->
  range requires o1 (fun k _ m => addRequire k m) m =
  range requires o2 (fun k _ m => addRequire k m) m.
Proof.
  intros Hp. unfold range. apply foldl_Permutation; [|done].
  intros a x y. destruct (requires !! x), (requires !! y); try done.
  apply addRequire_comm.
Qed.

Lemma range_addRequire_hit (requires : gmap string json) (order : list string)
    (m : gmap string bool) (k x : string) :
  k ∈ order -> is_Some (requires !! k) -> contributes k x = true ->
  range requires order (fun k _ m => addRequire k m) m !! x = Some true.
Proof.
  unfold range. intros Hin [v Hv] Hc.
  assert (Hkeep : forall l (m' : gmap string bool),
    m' !! x = Some true ->
    foldl (fun acc k => match requires !! k with
                        | Some _ => addRequire k acc | None => acc end) m' l
      !! x = Some true).
  { induction l as [|k' l IH]; intros m' Hm'; [done|]. simpl. apply IH.
    destruct (requires !! k'); [|done]. rewrite addRequire_lookup.
    by destruct (contributes k' x). }
  revert m. induction order as [|k' order IH]; intros m.
  - by apply elem_of_nil in Hin.
  - apply elem_of_cons in Hin as [<-|Hin]; simpl.
    + apply Hkeep. rewrite Hv, addRequire_lookup. by rewrite Hc.
    + by apply IH.
Qed.

Lemma range_addRequire_miss (requires : gmap string json) (order : list string)
    (m : gmap string bool) (x : string) :
  range requires order (fun k _ m => addRequire k m) m !! x = m !! x \/
  exists k, k ∈ order /\ is_Some (requires !! k) /\ contributes k x = true.
Proof.
  unfold range. revert m. induction order as [|k order IH]; intros m; [by left|].
  simpl. destruct (requires !! k) as [v|] eqn:Hv.
  - destruct (contributes k x) eqn:Hc.
    + right. exists k. rewrite elem_of_cons, Hv. eauto.
    + destruct (IH (addRequire k m)) as [E|(k' & Hin & Hs & Hc')].
      * left. by rewrite E, addRequire_lookup, Hc.
      * right. exists k'. rewrite elem_of_cons. eauto.
  - destruct (IH m) as [E|(k' & Hin & Hs & Hc')]; [by left|].
    right. exists k'. rewrite elem_of_cons. eauto.
Qed.

Lemma addStrings_hit (arr : list json) (m : gmap string bool) (x : string) :
  JString x ∈ arr -> addStrings arr m !! x = Some true.
Proof.
  unfold addStrings. intros Hin.
  assert (Hkeep : forall l (m' : gmap string bool),
    m' !! x = Some true ->
    foldl (fun m val => match as_string (Some val) with
                        | Some ext => <[ext := true]> m | None => m end) m' l
      !! x = Some true).
  { induction l as [|v l IH]; intros m' Hm'; [done|]. simpl. apply IH.
    destruct v as [| | |ext| |]; simpl; try done.
    rewrite lookup_insert. by case_decide. }
  revert m. induction arr as [|v arr IH]; intros m.
  - by apply elem_of_nil in Hin.
  - apply elem_of_cons in Hin as [<-|Hin]; simpl.
    + apply Hkeep. by rewrite lookup_insert_eq.
    + by apply IH.
Qed.

Lemma addStrings_miss (arr : list json) (m : gmap string bool) (x : string) :
  addStrings arr m !! x = m !! x \/ JString x ∈ arr.
Proof.
  unfold addStrings. revert m. induction arr as [|v arr IH]; intros m; [by left|].
  simpl. destruct (IH (match as_string (Some v) with
                       | Some ext => <[ext := true]> m | None => m end))
    as [E|Hin]; [|right; rewrite elem_of_cons; by right].
  destruct v as [| | |ext| |]; simpl in *; try (by left).
  destruct (decide (ext = x)) as [->|Hne].
  - right. rewrite elem_of_cons. by left.
  - left. by rewrite E, lookup_insert_ne.
Qed.

Lemma addStrings_Permutation (arr1 arr2 : list json) (m : gmap string bool) :
  arr1 ≡ₚ arr2 -> addStrings arr1 m = addStrings arr2 m.
Proof.
  intros Hp. unfold addStrings. apply foldl_Permutation; [|done].
  intros a x y. destruct (as_string (Some x)), (as_string (Some y)); try done.
  apply insert_true_comm.
Qed.

(** The extension set before the [require] keys are added. *)
Lemma extensionsFromOptions_PhpExtensions (s : Supplier) :
  PhpExtensions (extensionsFromOptions (extensionsDefaults s)) =
  match as_array (OptionsJson s !! "PHP_EXTENSIONS") with
  | Some arr => addStrings arr ∅
  | None => defaultExtensions
  end.
Proof.
  unfold extensionsFromOptions, extensionsDefaults. simpl.
  destruct (as_array (OptionsJson s !! "PHP_EXTENSIONS")); simpl;
    by destruct (as_array (OptionsJson s !! "ZEND_EXTENSIONS")).
Qed.

Lemma extensionsFromOptions_ComposerJson (s : Supplier) :
  ComposerJson (extensionsFromOptions (extensionsDefaults s)) = ComposerJson s.
Proof.
  unfold extensionsFromOptions, extensionsDefaults. simpl.
  destruct (as_array (OptionsJson s !! "PHP_EXTENSIONS")); simpl;
    by destruct (as_array (OptionsJson s !! "ZEND_EXTENSIONS")).
Qed.

Lemma extensionsFromOptions_warns (s : Supplier) (arr : list json) :
  OptionsJson s !! "PHP_EXTENSIONS" = Some (JArray arr) ->
  deprecationWarning ∈ Log (extensionsFromOptions (extensionsDefaults s)).
Proof.
  intros Ho. unfold extensionsFromOptions, extensionsDefaults. simpl.
  rewrite Ho. simpl.
  destruct (as_array (OptionsJson s !! "ZEND_EXTENSIONS")); simpl;
    rewrite !elem_of_app, !list_elem_of_singleton; auto.
Qed.

Lemma extensionsFromComposer_Log (order : list string) (s : Supplier) (c : LogCall) :
  c ∈ Log s -> c ∈ Log (extensionsFromComposer order s).
Proof.
  intros Hc. unfold extensionsFromComposer.
  destruct (as_object (ComposerJson s !! "require")); [|done]. simpl.
  rewrite !elem_of_app. auto.
Qed.

Lemma SetupExtensions_PhpExtensions (order : list string) (s : Supplier) :
  PhpExtensions (SetupExtensions order s) =
  let base := match as_array (OptionsJson s !! "PHP_EXTENSIONS") with
              | Some arr => addStrings arr ∅
              | None => defaultExtensions
              end in
  match as_object (ComposerJson s !! "require") with
  | Some requires => range requires order (fun k _ m => addRequire k m) base
  | None => base
  end.
Proof.
  unfold SetupExtensions, extensionsFromComposer.
  rewrite extensionsFromOptions_ComposerJson.
  destruct (as_object (ComposerJson s !! "require")); simpl;
    by rewrite extensionsFromOptions_PhpExtensions.
Qed.

Lemma SetupExtensions_required (order : list string) (s : Supplier)
    (requires : gmap string json) (k x : string) :
  requireOrder s order ->
  ComposerJson s !! "require" = Some (JObject requires) ->
  is_Some (requires !! k) -> contributes k x = true ->
  PhpExtensions (SetupExtensions order s) !! x = Some true.
Proof.
  intros Ho Hr Hk Hc. rewrite SetupExtensions_PhpExtensions.
  unfold requireOrder in Ho. rewrite Hr in *. simpl in *.
  apply range_addRequire_hit with k; [|done|done].
  by apply (range_of_elem requires).
Qed.

Lemma contributes_ext (x : string) : contributes ("ext-" +:+ x) x = true.
Proof. unfold contributes. by rewrite bool_decide_eq_true_2. Qed.

Lemma contributes_pdo (k : string) :
  strings.HasPrefix k "ext-pdo_" = true -> contributes k "pdo" = true.
Proof.
  intros H. unfold contributes. rewrite H.
  rewrite (bool_decide_eq_true_2 ("pdo" = "pdo")) by done.
  apply orb_true_r.
Qed.

(** C3. When options.json provides a [PHP_EXTENSIONS] array, the
    extension set is made of the strings of that array and of what the
    [require] keys of composer.json put in: a built-in default that neither
    lists again is no longer in it, and the deprecation warning is logged.
    With or without the array, every [require] key [ext-] followed by [x]
    puts the name [x] in the set. *)
Theorem options_array_replaces_defaults (order : list string) (s : Supplier) :
  requireOrder s order ->
  (forall arr : list json,
     OptionsJson s !! "PHP_EXTENSIONS" = Some (JArray arr) ->
     (forall x, is_Some (PhpExtensions (SetupExtensions order s) !! x) <->
                JString x ∈ arr \/ requiredExtension s x) /\
     (forall d, is_Some (defaultExtensions !! d) ->
                JString d ∉ arr -> ~ requiredExtension s d ->
                PhpExtensions (SetupExtensions order s) !! d = None) /\
     deprecationWarning ∈ Log (SetupExtensions order s)) /\
  (forall (requires : gmap string json) (x : string),
     ComposerJson s !! "require" = Some (JObject requires) ->
     is_Some (requires !! ("ext-" +:+ x)) ->
     PhpExtensions (SetupExtensions order s) !! x = Some true).
Proof.
  intros Ho. split.
  - intros arr Harr.
    assert (Hiff : forall x,
      is_Some (PhpExtensions (SetupExtensions order s) !! x) <->
      JString x ∈ arr \/ requiredExtension s x).
    { intros x. split.
      - rewrite SetupExtensions_PhpExtensions, Harr. simpl.
        unfold requiredExtension, requireOrder in *.
        destruct (ComposerJson s !! "require") as [[| | | | |requires]|] eqn:Hr;
          simpl in *;
          try (intros Hx; destruct (addStrings_miss arr ∅ x) as [E|Hin];
               [rewrite E, lookup_empty in Hx; by destruct Hx|by left]).
        intros Hx.
        destruct (range_addRequire_miss requires order (addStrings arr ∅) x)
          as [E|(k & Hin & Hk & Hc)].
        + rewrite E in Hx. destruct (addStrings_miss arr ∅ x) as [E'|Hin'];
            [rewrite E', lookup_empty in Hx; by destruct Hx|by left].
        + right. eauto.
      - intros [Hin|(requires & k & Hr & Hk & Hc)].
        + rewrite SetupExtensions_PhpExtensions, Harr. simpl.
          assert (Hbase := addStrings_hit arr ∅ x Hin).
          destruct (as_object (ComposerJson s !! "require")) as [requires|];
            [|by rewrite Hbase].
          destruct (range_addRequire_miss requires order (addStrings arr ∅) x)
            as [E|(k & Hk & Hs & Hc)].
          * by rewrite E, Hbase.
          * unfold range_of in *.
            erewrite range_addRequire_hit; eauto.
        + erewrite SetupExtensions_required; eauto. }
    split; [done|]. split.
    + intros d _ Hd Hreq.
      destruct (PhpExtensions (SetupExtensions order s) !! d) eqn:E; [|done].
      destruct (proj1 (Hiff d)); [by rewrite E|done|done].
    + apply extensionsFromComposer_Log. by apply extensionsFromOptions_warns with arr.
  - intros requires x Hr Hk.
    apply SetupExtensions_required with requires ("ext-" +:+ x); [done..|].
    apply contributes_ext.
Qed.

(** C8. With the keys [ext-curl] and [ext-pdo_mysql] in the [require] map
    of composer.json, the extension set has [curl], [pdo_mysql] and [pdo];
    any key with the prefix [ext-pdo_] puts [pdo] in the set. *)
Theorem pdo_driver_implies_pdo (order : list string) (s : Supplier)
    (requires : gmap string json) :
  requireOrder s order ->
  ComposerJson s !! "require" = Some (JObject requires) ->
  (is_Some (requires !! "ext-curl") ->
   is_Some (requires !! "ext-pdo_mysql") ->
   PhpExtensions (SetupExtensions order s) !! "curl" = Some true /\
   PhpExtensions (SetupExtensions order s) !! "pdo_mysql" = Some true /\
   PhpExtensions (SetupExtensions order s) !! "pdo" = Some true) /\
  (forall k, is_Some (requires !! k) ->
             strings.HasPrefix k "ext-pdo_" = true ->
             PhpExtensions (SetupExtensions order s) !! "pdo" = Some true).
Proof.
  intros Ho Hr. split.
  - intros Hcurl Hpdo. split; [|split].
    + by apply SetupExtensions_required with requires "ext-curl".
    + by apply SetupExtensions_required with requires "ext-pdo_mysql".
    + by apply SetupExtensions_required with requires "ext-pdo_mysql".
  - intros k Hk Hp.
    apply SetupExtensions_required with requires k; [done..|].
    by apply contributes_pdo.
Qed.

Lemma options_array_replaces_defaults_witness :
  requireOrder sampleExtSupplier sampleOrder /\
  OptionsJson sampleExtSupplier !! "PHP_EXTENSIONS"
    = Some (JArray [JString "foo"; JNull]) /\
  (is_Some (PhpExtensions (SetupExtensions sampleOrder sampleExtSupplier) !! "bz2")
   <-> JString "bz2" ∈ [JString "foo"; JNull]
       \/ requiredExtension sampleExtSupplier "bz2") /\
  deprecationWarning ∈ Log (SetupExtensions sampleOrder sampleExtSupplier) /\
  PhpExtensions (SetupExtensions sampleOrder sampleExtSupplier)
    !! "curl" = Some true.
Proof.
  assert (Ho : requireOrder sampleExtSupplier sampleOrder).
  { apply (bool_decide_unpack _). by vm_compute. }
  destruct (options_array_replaces_defaults sampleOrder sampleExtSupplier Ho)
    as [H1 H2].
  destruct (H1 [JString "foo"; JNull]) as (Hiff & _ & Hw); [reflexivity|].
  split; [exact Ho|]. split; [reflexivity|].
  split; [apply Hiff|]. split; [exact Hw|].
  apply (H2 sampleRequire "curl"); reflexivity || (by eexists).
Defined.

Lemma pdo_driver_implies_pdo_witness :
  requireOrder sampleExtSupplier sampleOrder /\
  ComposerJson sampleExtSupplier !! "require" = Some (JObject sampleRequire) /\
  is_Some (sampleRequire !! "ext-curl") /\
  is_Some (sampleRequire !! "ext-pdo_mysql") /\
  PhpExtensions (SetupExtensions sampleOrder sampleExtSupplier) !! "curl"
    = Some true /\
  PhpExtensions (SetupExtensions sampleOrder sampleExtSupplier) !! "pdo_mysql"
    = Some true /\
  PhpExtensions (SetupExtensions sampleOrder sampleExtSupplier) !! "pdo"
    = Some true.
Proof.
  assert (Ho : requireOrder sampleExtSupplier sampleOrder).
  { apply (bool_decide_unpack _). by vm_compute. }
  assert (Hc : is_Some (sampleRequire !! "ext-curl")) by (by eexists).
  assert (Hp : is_Some (sampleRequire !! "ext-pdo_mysql")) by (by eexists).
  destruct (pdo_driver_implies_pdo sampleOrder sampleExtSupplier sampleRequire
              Ho eq_refl) as [H _].
  split; [exact Ho|]. split; [reflexivity|]. split; [exact Hc|].
  split; [exact Hp|]. by apply H.
Defined.

(** C4, as stated, fails: the three sources do not commute.  Adding the
    [require] keys before the options array is applied loses them, because
    the array replaces the set. *)
Lemma merge_order_matters :
  let s := sampleExtSupplier in
  dom (PhpExtensions
         (extensionsFromComposer sampleOrder
            (extensionsFromOptions (extensionsDefaults s))))
  <> dom (PhpExtensions
            (extensionsFromOptions
               (extensionsFromComposer sampleOrder (extensionsDefaults s)))).
Proof.
  intros s H.
  assert (Hin : "curl" ∈ dom (PhpExtensions
         (extensionsFromComposer sampleOrder
            (extensionsFromOptions (extensionsDefaults s))))).
  { apply elem_of_dom. by eexists. }
  rewrite H in Hin. apply elem_of_dom in Hin as [b Hb].
  vm_compute in Hb. discriminate Hb.
Qed.

(** C4, amended.  The final extension set does not depend on the order in
    which the entries of one source are visited: any two orders in which
    the keys of [require] can be ranged over give the same set, and so do
    any two arrangements of the entries of an options array.  The sources
    themselves are merged in the one sequence [SetupExtensions] has. *)
Theorem extension_set_independent_of_visit_order (s : Supplier)
    (order1 order2 : list string) :
  requireOrder s order1 -> requireOrder s order2 ->
  PhpExtensions (SetupExtensions order1 s) =
  PhpExtensions (SetupExtensions order2 s) /\
  forall (arr1 arr2 : list json) (m : gmap string bool),
    arr1 ≡ₚ arr2 -> addStrings arr1 m = addStrings arr2 m.
Proof.
  intros H1 H2. split; [|intros; by apply addStrings_Permutation].
  rewrite !SetupExtensions_PhpExtensions. simpl.
  unfold requireOrder in *.
  destruct (as_object (ComposerJson s !! "require")) as [requires|]; [|done].
  apply range_addRequire_comm. by apply (range_of_Permutation requires).
Qed.

Lemma extension_set_independent_of_visit_order_witness :
  requireOrder sampleExtSupplier sampleOrder /\
  requireOrder sampleExtSupplier (reverse sampleOrder) /\
  PhpExtensions (SetupExtensions sampleOrder sampleExtSupplier) =
  PhpExtensions (SetupExtensions (reverse sampleOrder) sampleExtSupplier).
Proof.
  assert (H1 : requireOrder sampleExtSupplier sampleOrder).
  { apply (bool_decide_unpack _). by vm_compute. }
  assert (H2 : requireOrder sampleExtSupplier (reverse sampleOrder)).
  { apply (bool_decide_unpack _). by vm_compute. }
  split; [exact H1|]. split; [exact H2|].
  apply (extension_set_independent_of_visit_order _ _ _ H1 H2).
Defined.

(** ** The binding contexts *)

Section AppendLoop.

(** A loop that appends one line per visited key to the entry [K]. *)
Context {V : Type} (K : string) (line : string -> string) (m : gmap string V).

Lemma appendLoop_other (order : list string) (ctx : gmap string string) (k : string) :
  k <> K ->
  range m order (fun ext _ ctx => <[K := index ctx K +:+ line ext]> ctx) ctx !! k
  = ctx !! k.
Proof.
  intros Hk. unfold range. revert ctx.
  induction order as [|ext order IH]; intros ctx; [done|]. simpl.
  rewrite IH. destruct (m !! ext); [|done]. by rewrite lookup_insert_ne.
Qed.

Lemma appendLoop_dom (order : list string) (ctx : gmap string string) :
  is_Some (ctx !! K) ->
  dom (range m order (fun ext _ ctx => <[K := index ctx K +:+ line ext]> ctx) ctx)
  = dom ctx.
Proof.
  unfold range. revert ctx.
  induction order as [|ext order IH]; intros ctx HK; [done|]. simpl.
  destruct (m !! ext); [|by apply IH].
  rewrite IH by (rewrite lookup_insert_eq; by eexists).
  destruct HK as [w Hw]. by apply dom_insert_lookup_L.
Qed.

Lemma appendLoop_index (order : list string) (ctx : gmap string string) :
  (forall k, k ∈ order -> is_Some (m !! k)) ->
  index (range m order
           (fun ext _ ctx => <[K := index ctx K +:+ line ext]> ctx) ctx) K =
  index ctx K +:+ foldr (fun ext rest => line ext +:+ rest) "" order.
Proof.
  unfold range. revert ctx.
  induction order as [|ext order IH]; intros ctx Hall; simpl.
  - by rewrite append_nil_r.
  - destruct (Hall ext) as [v Hv]; [apply elem_of_cons; by left|]. rewrite Hv.
    rewrite IH by (intros k Hk; apply Hall, elem_of_cons; by right).
    unfold index. rewrite lookup_insert_eq. simpl.
    by rewrite append_assoc.
Qed.

End AppendLoop.

Lemma range_copy_lookup (m acc : gmap string string) (order : list string)
    (x : string) :
  range m order (fun k v acc => <[k := v]> acc) acc !! x =
  match (if decide (x ∈ order) then m !! x else None) with
  | Some v => Some v
  | None => acc !! x
  end.
Proof.
  unfold range. revert acc.
  induction order as [|k order IH]; intros acc; cbn [foldl].
  - by rewrite decide_False by apply not_elem_of_nil.
  - rewrite IH. destruct (decide (x ∈ order)) as [Hin|Hin].
    + rewrite decide_True by (apply elem_of_cons; by right).
      destruct (m !! x) eqn:Hx; [done|].
      destruct (m !! k) eqn:Hk; [|done].
      rewrite lookup_insert_ne; [done|]. congruence.
    + destruct (decide (x = k)) as [->|Hne].
      * rewrite decide_True by (apply elem_of_cons; by left).
        destruct (m !! k); [by rewrite lookup_insert_eq|done].
      * rewrite decide_False by (rewrite elem_of_cons; by intros [?|?]).
        destruct (m !! k); [by rewrite lookup_insert_ne|done].
Qed.

Lemma range_copy (m : gmap string string) (order : list string) :
  range_of m order -> range m order (fun k v acc => <[k := v]> acc) ∅ = m.
Proof.
  intros Ho. apply map_eq. intros x. rewrite range_copy_lookup.
  destruct (decide (x ∈ order)) as [Hin|Hin].
  - by destruct (m !! x).
  - rewrite lookup_empty. destruct (m !! x) eqn:Hx; [|done].
    exfalso. apply Hin. apply (range_of_elem m); [done|by eexists].
Qed.

Lemma ctxRun_other (phpOrder zendOrder : list string) (s : Supplier) (k : string) :
  k <> "PhpExtensions" -> k <> "ZendExtensions" ->
  ctxRun phpOrder zendOrder s !! k = ctxRunLiteral s !! k.
Proof.
  intros H1 H2. unfold ctxRun.
  rewrite (appendLoop_other "ZendExtensions"
             (fun ext => "zend_extension=" +:+ ext +:+ nl)) by done.
  by rewrite (appendLoop_other "PhpExtensions"
                (fun ext => "extension=" +:+ ext +:+ ".so" +:+ nl)).
Qed.

Lemma index_eq (m1 m2 : gmap string string) (k : string) :
  m1 !! k = m2 !! k -> index m1 k = index m2 k.
Proof. unfold index. by intros ->. Qed.

Lemma ctxRun_PhpExtensions (phpOrder zendOrder : list string) (s : Supplier) :
  range_of (PhpExtensions s) phpOrder ->
  index (ctxRun phpOrder zendOrder s) "PhpExtensions" = extensionLines phpOrder.
Proof.
  intros Ho. unfold ctxRun.
  rewrite (index_eq _ _ "PhpExtensions"
             (appendLoop_other "ZendExtensions"
                (fun ext => "zend_extension=" +:+ ext +:+ nl)
                (ZendExtensions s) zendOrder _ "PhpExtensions" ltac:(done))).
  rewrite (appendLoop_index "PhpExtensions"
             (fun ext => "extension=" +:+ ext +:+ ".so" +:+ nl)).
  - reflexivity.
  - intros k Hk. by apply (range_of_elem (PhpExtensions s) phpOrder).
Qed.

Lemma ctxRun_dom (phpOrder zendOrder : list string) (s : Supplier) :
  dom (ctxRun phpOrder zendOrder s) = dom (ctxRunLiteral s).
Proof.
  unfold ctxRun.
  rewrite (appendLoop_dom "ZendExtensions"
             (fun ext => "zend_extension=" +:+ ext +:+ nl)).
  - rewrite (appendLoop_dom "PhpExtensions"
               (fun ext => "extension=" +:+ ext +:+ ".so" +:+ nl)); [done|].
    by eexists.
  - rewrite (appendLoop_other "PhpExtensions"
               (fun ext => "extension=" +:+ ext +:+ ".so" +:+ nl)) by done.
    by eexists.
Qed.

Lemma ctxRun_is_Some (phpOrder zendOrder : list string) (s : Supplier) (k : string) :
  is_Some (ctxRunLiteral s !! k) -> is_Some (ctxRun phpOrder zendOrder s !! k).
Proof. rewrite <- !elem_of_dom. by rewrite ctxRun_dom. Qed.

Lemma ctxStage_inserts (phpOrder zendOrder ctxOrder : list string) (s : Supplier) :
  range_of (ctxRun phpOrder zendOrder s) ctxOrder ->
  ctxStage phpOrder zendOrder ctxOrder s =
  <["PhpExtensions" := index (ctxRun phpOrder zendOrder s) "PhpExtensions"
                       +:+ "extension=openssl.so" +:+ nl]>
    (<["TMPDIR" := "/tmp"]>
       (<["HOME" := BuildDir (stager s)]>
          (<["DEPS_DIR" := DepsDir (stager s)]> (ctxRun phpOrder zendOrder s)))).
Proof. intros Ho. unfold ctxStage. by rewrite range_copy. Qed.

Lemma ctxStage_PhpExtensions (phpOrder zendOrder ctxOrder : list string)
    (s : Supplier) :
  ctxStage phpOrder zendOrder ctxOrder s !! "PhpExtensions" =
  Some (index (ctxRun phpOrder zendOrder s) "PhpExtensions"
        +:+ "extension=openssl.so" +:+ nl).
Proof. unfold ctxStage. by rewrite lookup_insert_eq. Qed.

(** ** Lines *)

Lemma Split_char_cons (sep c : ascii) (s : string) :
  strings.Split (String c s) (String sep "") =
  if Ascii.eqb c sep then "" :: strings.Split s (String sep "")
  else strings.push_byte c (strings.Split s (String sep "")).
Proof. unfold strings.Split. simpl. by destruct (Ascii.eqb c sep). Qed.

Lemma Split_char_nonempty (sep : ascii) (s : string) :
  strings.Split s (String sep "") <> [].
Proof.
  destruct s as [|c s]; [done|]. rewrite Split_char_cons.
  destruct (Ascii.eqb c sep); [done|].
  by destruct (strings.Split s (String sep "")).
Qed.

Lemma Split_char_app (sep : ascii) (a b : string) :
  strings.Split (a +:+ String sep b) (String sep "") =
  strings.Split a (String sep "") ++ strings.Split b (String sep "").
Proof.
  induction a as [|c a IH]; simpl.
  - by rewrite Split_char_cons, Ascii.eqb_refl.
  - rewrite !Split_char_cons, IH. destruct (Ascii.eqb c sep); [done|].
    assert (Hne := Split_char_nonempty sep a).
    by destruct (strings.Split a (String sep "")).
Qed.

Lemma extensionLines_shape (order : list string) :
  extensionLines order = "" \/ exists Y, extensionLines order = Y +:+ nl.
Proof.
  induction order as [|ext order IH]; [by left|]. right. simpl.
  destruct IH as [->|[Y ->]].
  - exists ("extension=" +:+ ext +:+ ".so").
    by rewrite append_nil_r, !append_assoc.
  - exists (("extension=" +:+ ext +:+ ".so" +:+ nl) +:+ Y).
    by rewrite !append_assoc.
Qed.

Lemma hasLine_appended (X line : string) :
  X = "" \/ (exists Y, X = Y +:+ nl) ->
  strings.Split line nl = [line] ->
  hasLine line (X +:+ line +:+ nl) = true.
Proof.
  intros HX Hline. unfold hasLine. apply bool_decide_eq_true_2.
  assert (Hl : line ∈ strings.Split (line +:+ nl) nl).
  { unfold nl. rewrite Split_char_app. fold nl. rewrite Hline.
    apply elem_of_app. left. apply list_elem_of_singleton. done. }
  destruct HX as [->|[Y ->]]; [done|].
  rewrite append_assoc. unfold nl at 1. simpl.
  rewrite Split_char_app. apply elem_of_app. by right.
Qed.

(** ** The two contexts compared *)

(** C1, as stated, fails: with the built-in default set, which has no
    [openssl], the block of the run context has no line
    [extension=openssl.so], and the block of the stage context is not the
    serialization of the set alone. *)
Lemma run_context_lacks_openssl :
  let s := sampleStaged in
  let run := ctxRun samplePhpOrder [] s in
  let stage := ctxStage samplePhpOrder [] sampleCtxOrder s in
  (range_of (PhpExtensions s) samplePhpOrder /\
   range_of (ZendExtensions s) [] /\
   range_of run sampleCtxOrder) /\
  PhpExtensions s !! "openssl" = None /\
  hasLine "extension=openssl.so" (index run "PhpExtensions") = false /\
  index stage "PhpExtensions" <> extensionLines samplePhpOrder.
Proof.
  intros s run stage. split; [|split; [|split]].
  - split; [|split]; apply (bool_decide_unpack _); by vm_compute.
  - reflexivity.
  - by vm_compute.
  - intros H. vm_compute in H. discriminate H.
Qed.

(** C1, amended.  It is the stage context that force-enables the
    secure-transport extension: its [PhpExtensions] block is the block of
    the run context followed by the line [extension=openssl.so], whether
    or not the aggregated set has [openssl]; the block of the run context
    (the one rendered under the dependency directory) is the serialization
    of the aggregated set alone. *)
Theorem stage_context_enables_openssl (s : Supplier)
    (phpOrder zendOrder ctxOrder : list string) :
  range_of (PhpExtensions s) phpOrder ->
  ctxRun phpOrder zendOrder s !! "PhpExtensions"
    = Some (extensionLines phpOrder) /\
  ctxStage phpOrder zendOrder ctxOrder s !! "PhpExtensions"
    = Some (extensionLines phpOrder +:+ "extension=openssl.so" +:+ nl) /\
  hasLine "extension=openssl.so"
    (index (ctxStage phpOrder zendOrder ctxOrder s) "PhpExtensions") = true.
Proof.
  intros Ho.
  assert (Hrun := ctxRun_PhpExtensions phpOrder zendOrder s Ho).
  assert (Hstage := ctxStage_PhpExtensions phpOrder zendOrder ctxOrder s).
  rewrite Hrun in Hstage. split; [|split; [done|]].
  - destruct (ctxRun_is_Some phpOrder zendOrder s "PhpExtensions") as [v Hv];
      [by eexists|].
    unfold index in Hrun. rewrite Hv in Hrun. simpl in Hrun. by rewrite Hv, Hrun.
  - unfold index. rewrite Hstage. simpl.
    apply hasLine_appended; [apply extensionLines_shape|reflexivity].
Qed.

Lemma stage_context_enables_openssl_witness :
  range_of (PhpExtensions sampleStaged) samplePhpOrder /\
  ctxStage samplePhpOrder [] sampleCtxOrder sampleStaged !! "PhpExtensions"
    = Some (extensionLines samplePhpOrder +:+ "extension=openssl.so" +:+ nl).
Proof.
  assert (Ho : range_of (PhpExtensions sampleStaged) samplePhpOrder).
  { apply (bool_decide_unpack _). by vm_compute. }
  split; [exact Ho|].
  apply (stage_context_enables_openssl sampleStaged samplePhpOrder []
           sampleCtxOrder Ho).
Defined.

(** C2, as stated, fails: [PhpExtensions] is not a path or cache key, and
    the two contexts bind it to different values. *)
Lemma contexts_differ_in_PhpExtensions :
  let s := sampleStaged in
  let run := ctxRun samplePhpOrder [] s in
  let stage := ctxStage samplePhpOrder [] sampleCtxOrder s in
  (range_of (PhpExtensions s) samplePhpOrder /\
   range_of (ZendExtensions s) [] /\
   range_of run sampleCtxOrder) /\
  ("PhpExtensions" ∉ pathKeys) /\
  stage !! "PhpExtensions" <> run !! "PhpExtensions".
Proof.
  intros s run stage. split; [|split].
  - split; [|split]; apply (bool_decide_unpack _); by vm_compute.
  - apply (bool_decide_unpack _). by vm_compute.
  - intros H. vm_compute in H. discriminate H.
Qed.

Lemma append_neq_self (a b : string) : b <> "" -> a +:+ b <> a.
Proof.
  intros Hb H. apply (f_equal String.length) in H.
  rewrite length_append in H. destruct b; [done|]. simpl in H. lia.
Qed.

(** C2, amended.  The stage and run contexts have the same key set, the
    ten keys of the literal, and they bind the same value to every key other than [HOME], [DEPS_DIR],
    [TMPDIR] and [PhpExtensions]: the three path keys hold the template
    placeholders in the run context and the staging paths in the stage
    context, and the [PhpExtensions] block of the stage context is that of
    the run context with the line [extension=openssl.so] appended, so it
    always differs. *)
Theorem contexts_congruent (s : Supplier)
    (phpOrder zendOrder ctxOrder : list string) :
  let run := ctxRun phpOrder zendOrder s in
  let stage := ctxStage phpOrder zendOrder ctxOrder s in
  range_of run ctxOrder ->
  dom stage = dom run /\
  dom run = list_to_set
              ["DepsIdx"; "PhpFpmConfInclude"; "PhpFpmListen"; "Webdir"; "HOME";
               "DEPS_DIR"; "TMPDIR"; "Libdir"; "PhpExtensions"; "ZendExtensions"] /\
  (forall k, k ∉ "PhpExtensions" :: pathKeys -> stage !! k = run !! k) /\
  (run !! "HOME" = Some "{{.HOME}}" /\
   stage !! "HOME" = Some (BuildDir (stager s))) /\
  (run !! "DEPS_DIR" = Some "{{.DEPS_DIR}}" /\
   stage !! "DEPS_DIR" = Some (DepsDir (stager s))) /\
  (run !! "TMPDIR" = Some "{{.TMPDIR}}" /\
   stage !! "TMPDIR" = Some "/tmp") /\
  stage !! "PhpExtensions"
    = Some (index run "PhpExtensions" +:+ "extension=openssl.so" +:+ nl) /\
  stage !! "PhpExtensions" <> run !! "PhpExtensions".
Proof.
  intros run stage Ho. subst run stage.
  rewrite (ctxStage_inserts _ _ _ _ Ho).
  assert (Hk : forall k, is_Some (ctxRunLiteral s !! k) ->
                 is_Some (ctxRun phpOrder zendOrder s !! k))
    by apply ctxRun_is_Some.
  split; [|split; [|split; [|split; [|split; [|split; [|split]]]]]].
  - rewrite !dom_insert_L.
    assert ("PhpExtensions" ∈ dom (ctxRun phpOrder zendOrder s))
      by (apply elem_of_dom, Hk; by eexists).
    assert ("TMPDIR" ∈ dom (ctxRun phpOrder zendOrder s))
      by (apply elem_of_dom, Hk; by eexists).
    assert ("HOME" ∈ dom (ctxRun phpOrder zendOrder s))
      by (apply elem_of_dom, Hk; by eexists).
    assert ("DEPS_DIR" ∈ dom (ctxRun phpOrder zendOrder s))
      by (apply elem_of_dom, Hk; by eexists).
    apply set_eq. intros x. rewrite !elem_of_union, !elem_of_singleton.
    split; [intros [->|[->|[->|[->|?]]]]; done|intros; by repeat right].
  - rewrite ctxRun_dom. unfold ctxRunLiteral. by rewrite dom_list_to_map_L.
  - intros k Hnot. unfold pathKeys in Hnot.
    rewrite !elem_of_cons in Hnot.
    rewrite !lookup_insert_ne; [done|..]; intros <-; apply Hnot; auto.
  - split; [by rewrite ctxRun_other|].
    rewrite ?lookup_insert_ne by done. by rewrite lookup_insert_eq.
  - split; [by rewrite ctxRun_other|].
    rewrite ?lookup_insert_ne by done. by rewrite lookup_insert_eq.
  - split; [by rewrite ctxRun_other|].
    rewrite ?lookup_insert_ne by done. by rewrite lookup_insert_eq.
  - by rewrite lookup_insert_eq.
  - rewrite lookup_insert_eq.
    destruct (Hk "PhpExtensions") as [v Hv]; [by eexists|].
    unfold index. rewrite Hv. simpl. intros [= H].
    by apply append_neq_self in H.
Qed.

Lemma contexts_congruent_witness :
  range_of (ctxRun samplePhpOrder [] sampleStaged) sampleCtxOrder /\
  dom (ctxStage samplePhpOrder [] sampleCtxOrder sampleStaged)
    = dom (ctxRun samplePhpOrder [] sampleStaged).
Proof.
  assert (Ho : range_of (ctxRun samplePhpOrder [] sampleStaged) sampleCtxOrder).
  { apply (bool_decide_unpack _). by vm_compute. }
  split; [exact Ho|].
  apply (contexts_congruent sampleStaged samplePhpOrder [] sampleCtxOrder Ho).
Defined.

(** ** The rewrite of the legacy placeholders *)

Lemma replace_scan_text (c0 : ascii) (old' new t rest : string) :
  without c0 t = true ->
  strings.replace_scan (String c0 old') new 0 (t +:+ rest) =
  t +:+ strings.replace_scan (String c0 old') new 0 rest.
Proof.
  induction t as [|c t IH]; intros Ht; [done|].
  simpl in Ht. apply andb_true_iff in Ht as [Hc Ht].
  apply negb_true_iff in Hc.
  simpl. rewrite Hc. by rewrite IH.
Qed.

Lemma replace_scan_absent (old new s : string) :
  Contains s old = false -> strings.replace_scan old new 0 s = s.
Proof.
  induction s as [|c s IH]; [done|]. intros H.
  cbn [Contains] in H. apply orb_false_iff in H as [Hp Hc].
  cbn [strings.replace_scan]. rewrite Hp. by rewrite IH.
Qed.

Lemma HasPrefix_app (s r p : string) :
  strings.HasPrefix s p = true -> strings.HasPrefix (s +:+ r) p = true.
Proof.
  revert s. induction p as [|x p IH]; intros s H; [done|].
  destruct s as [|c s]; [done|]. simpl in *.
  destruct (Ascii.eqb c x); [by apply IH|done].
Qed.

Lemma HasPrefix_length (s p : string) :
  strings.HasPrefix s p = true -> String.length p <= String.length s.
Proof.
  revert s. induction p as [|x p IH]; intros s H; simpl; [lia|].
  destruct s as [|c s]; [done|]. simpl in *.
  destruct (Ascii.eqb c x); [|done]. specialize (IH s H). lia.
Qed.

Lemma HasPrefix_eq (s p : string) :
  strings.HasPrefix s p = true -> exists r, s = p +:+ r.
Proof.
  revert s. induction p as [|x p IH]; intros s H; [by exists s|].
  destruct s as [|c s]; [done|]. simpl in H.
  destruct (Ascii.eqb_spec c x) as [->|]; [|done].
  destruct (IH s H) as [r ->]. by exists r.
Qed.

(** A prefix found in [q] followed by [r] lies in [q], or starts in [q]
    and ends in [r]. *)
Lemma HasPrefix_split (q r old : string) :
  strings.HasPrefix (q +:+ r) old = true ->
  strings.HasPrefix q old = true \/
  exists v, v <> "" /\ old = q +:+ v /\ strings.HasPrefix r v = true.
Proof.
  revert q. induction old as [|p old IH]; intros q H; [by left|].
  destruct q as [|c q].
  - right. by exists (String p old).
  - simpl in H. destruct (Ascii.eqb_spec c p) as [->|]; [|done].
    destruct (IH q H) as [Hq|(v & Hv & -> & Hr)].
    + left. simpl. by rewrite Ascii.eqb_refl.
    + right. by exists v.
Qed.

Lemma suffixes_in (q v : string) : v <> "" -> v ∈ suffixes (q +:+ v).
Proof.
  intros Hv. induction q as [|c q IH]; simpl.
  - destruct v; [done|]. simpl. apply elem_of_cons. by left.
  - apply elem_of_cons. by right.
Qed.

(** When no proper suffix of [old] is a prefix of [r], no occurrence of
    [old] starts in a text and ends in [r] after it. *)
Lemma apart_any (c0 : ascii) (old' r : string) :
  Forall (fun v => strings.HasPrefix r v = false) (suffixes old') ->
  forall x, apart (String c0 old') x r.
Proof.
  intros Hr x. induction x as [|c x IH]; [done|].
  split; [|done].
  destruct (strings.HasPrefix (String c x) (String c0 old')) eqn:E.
  - by apply HasPrefix_app.
  - destruct (strings.HasPrefix (String c x +:+ r) (String c0 old')) eqn:E2; [|done].
    apply HasPrefix_split in E2 as [E2|(v & Hv & Hold & Hp)]; [congruence|].
    simpl in Hold. injection Hold as _ ->.
    rewrite Forall_forall in Hr. by rewrite (Hr v (suffixes_in x v Hv)) in Hp.
Qed.

(** The scan of two texts with no occurrence across their junction is the
    scan of the one followed by the scan of the other. *)
Lemma replace_scan_app (old new a b : string) :
  apart old a b ->
  forall skip, skip <= String.length a ->
    strings.replace_scan old new skip (a +:+ b) =
    strings.replace_scan old new skip a +:+ strings.replace_scan old new 0 b.
Proof.
  induction a as [|c a IH]; intros Ha skip Hs.
  - simpl in Hs. by replace skip with 0 by lia.
  - destruct Ha as [Hh Ha]. destruct skip as [|k].
    + change (String c a +:+ b) with (String c (a +:+ b)) in *.
      cbn [strings.replace_scan]. rewrite Hh.
      destruct (strings.HasPrefix (String c a) old) eqn:E.
      * apply HasPrefix_length in E. simpl in E.
        rewrite IH by (done || lia). by rewrite append_assoc.
      * rewrite IH by (done || lia). done.
    + simpl. simpl in Hs. apply IH; [done|lia].
Qed.

(** One pass over a text in which the piece [M] stands between two
    arbitrary texts, when no occurrence of [old] reaches from outside into
    the piece or from the piece into what follows. *)
Lemma replace_scan_around (c0 : ascii) (old' new X M M' Y : string) :
  Forall (fun v => strings.HasPrefix (M +:+ Y) v = false) (suffixes old') ->
  apart (String c0 old') M Y ->
  strings.replace_scan (String c0 old') new 0 M = M' ->
  strings.replace_scan (String c0 old') new 0 (X +:+ M +:+ Y) =
  strings.replace_scan (String c0 old') new 0 X +:+ M' +:+
  strings.replace_scan (String c0 old') new 0 Y.
Proof.
  intros Hout Hin <-.
  rewrite (replace_scan_app _ _ X) by (by apply apart_any || lia).
  by rewrite (replace_scan_app _ _ M) by (done || lia).
Qed.

(** Each placeholder is rewritten to its action wherever it stands:
    whatever comes before and after it is rewritten on its own. *)
Lemma rewriteLegacy_marker (m : marker) (pre post : string) :
  rewriteLegacy (pre +:+ legacy m +:+ post) =
  rewriteLegacy pre +:+ action m +:+ rewriteLegacy post.
Proof.
  unfold rewriteLegacy, strings.Replace.
  destruct m; cbn [legacy action];
    repeat (erewrite replace_scan_around;
            [|repeat constructor|simpl; repeat split; reflexivity|reflexivity]);
    reflexivity.
Qed.

Lemma rewriteLegacy_plain (t : string) : plainText t = true -> rewriteLegacy t = t.
Proof.
  unfold plainText. rewrite !andb_true_iff, !negb_true_iff.
  intros ((((H1 & H2) & H3) & H4) & _).
  unfold rewriteLegacy, strings.Replace.
  rewrite (replace_scan_absent "@{DEPS_DIR}" _ t H1).
  rewrite (replace_scan_absent "@{TMPDIR}" _ t H2).
  rewrite (replace_scan_absent "@{HOME}" _ t H3).
  by rewrite (replace_scan_absent "#PHP_FPM_LISTEN" _ t H4).
Qed.

(** *** The byte before a placeholder *)

Lemma lastByte_cons (c : ascii) (t : string) :
  t <> "" -> lastByte (String c t) = lastByte t.
Proof. by destruct t. Qed.

Lemma lastByte_app (a b : string) : b <> "" -> lastByte (a +:+ b) = lastByte b.
Proof.
  intros Hb. induction a as [|c a IH]; [done|].
  change (String c a +:+ b) with (String c (a +:+ b)).
  rewrite lastByte_cons; [done|]. by destruct a, b.
Qed.

Lemma lastByte_tail (c x : ascii) (t : string) :
  lastByte (String c t) <> Some x -> lastByte t <> Some x.
Proof. destruct t; [done|]. by rewrite lastByte_cons. Qed.

Lemma replace_scan_skip (old new a b : string) :
  strings.replace_scan old new (String.length a) (a +:+ b) =
  strings.replace_scan old new 0 b.
Proof. induction a as [|c a IH]; [done|]. simpl. apply IH. Qed.

Lemma HasPrefix_refl (p : string) : strings.HasPrefix p p = true.
Proof. induction p as [|x p IH]; [done|]. simpl. by rewrite Ascii.eqb_refl. Qed.

Lemma replace_scan_match (c0 : ascii) (old' new s : string) :
  strings.replace_scan (String c0 old') new 0 (String c0 old' +:+ s) =
  new +:+ strings.replace_scan (String c0 old') new 0 s.
Proof.
  pose proof (HasPrefix_app _ s _ (HasPrefix_refl (String c0 old'))) as H.
  change (String c0 old' +:+ s) with (String c0 (old' +:+ s)) in *.
  cbn [strings.replace_scan]. rewrite H.
  replace (String.length (String c0 old') - 1) with (String.length old')
    by (simpl; lia).
  by rewrite replace_scan_skip.
Qed.

Lemma replace_scan_nonempty (old new s : string) :
  new <> "" -> s <> "" -> strings.replace_scan old new 0 s <> "".
Proof.
  intros Hn Hs. destruct s as [|c s]; [done|]. cbn [strings.replace_scan].
  destruct (strings.HasPrefix _ _); [|done]. by destruct new.
Qed.

(** A pass whose [old] and [new] do not end in the byte [x] keeps whether
    the text ends in [x]. *)
Lemma lastByte_replace_scan (x c0 : ascii) (old' new s : string) :
  new <> "" ->
  lastByte (String c0 old') <> Some x -> lastByte new <> Some x ->
  lastByte (strings.replace_scan (String c0 old') new 0 s) = Some x <->
  lastByte s = Some x.
Proof.
  intros Hn Ho Hnew.
  remember (String.length s) as n eqn:Hlen. revert s Hlen.
  induction n as [n IH] using lt_wf_ind. intros s ->.
  destruct s as [|c s]; [done|].
  destruct (strings.HasPrefix (String c s) (String c0 old')) eqn:E.
  - destruct (HasPrefix_eq _ _ E) as [r Hr]. rewrite Hr, replace_scan_match.
    destruct r as [|c' r].
    + rewrite append_nil_r. simpl strings.replace_scan. rewrite append_nil_r.
      split; intros H; [by apply Hnew in H|by apply Ho in H].
    + rewrite !lastByte_app by (done || by apply replace_scan_nonempty).
      apply (IH (String.length (String c' r))); [|done].
      rewrite Hr, length_append. simpl. lia.
  - cbn [strings.replace_scan]. rewrite E.
    destruct s as [|c' s]; [done|].
    rewrite !lastByte_cons by (done || by apply replace_scan_nonempty).
    apply (IH (String.length (String c' s))); [simpl; lia|done].
Qed.

Lemma lastByte_rewriteLegacy (t : string) :
  lastByte (rewriteLegacy t) = Some "{"%char <-> lastByte t = Some "{"%char.
Proof.
  unfold rewriteLegacy, strings.Replace.
  by rewrite !lastByte_replace_scan.
Qed.

(** *** The templates of the fragment *)

Lemma rev_app_acc (cur acc : string) :
  String.rev_app cur acc = String.rev_app cur "" +:+ acc.
Proof.
  revert acc. induction cur as [|c cur IH]; intros acc; [done|].
  simpl. rewrite IH, (IH (String c "")). by rewrite append_assoc.
Qed.

Lemma rev_rev_app (t cur : string) :
  String.rev (String.rev_app t cur) = String.rev cur +:+ t.
Proof.
  unfold String.rev.
  assert (H : forall acc, String.rev_app (String.rev_app t cur) acc =
                          String.rev_app cur (t +:+ acc)).
  { revert cur. induction t as [|c t IH]; intros cur acc; [done|].
    simpl. by rewrite IH. }
  by rewrite H, append_nil_r, rev_app_acc.
Qed.

Lemma Execute_app (a b : list node) (ctx : gmap string string) :
  Execute (a ++ b) ctx = Execute a ctx +:+ Execute b ctx.
Proof.
  induction a as [|n a IH]; [done|]. simpl. by rewrite IH, append_assoc.
Qed.

Lemma Execute_textNode (cur : string) (ctx : gmap string string) :
  Execute (textNode cur) ctx = String.rev cur.
Proof. destruct cur; [done|]. simpl. by rewrite append_nil_r. Qed.

(** Text in which no action opens is one text node. *)
Lemma lex_plain (t cur : string) :
  Contains t "{{" = false ->
  lex false false cur t = Some (textNode (String.rev_app t cur)).
Proof.
  revert cur. induction t as [|c t IH]; intros cur Ht; [done|].
  cbn [Contains] in Ht. apply orb_false_iff in Ht as [Hp Ht].
  cbn [lex]. rewrite Hp. by apply IH.
Qed.

Lemma Parse_plain (t : string) :
  plainText t = true ->
  exists nodes,
    Parse t = Some nodes /\ fields nodes = [] /\
    forall ctx, Execute nodes ctx = t.
Proof.
  unfold plainText. rewrite !andb_true_iff, !negb_true_iff. intros (_ & H).
  exists (textNode (String.rev_app t "")). split; [by apply lex_plain|].
  split; [by destruct (String.rev_app t "")|].
  intros ctx. by rewrite Execute_textNode, rev_rev_app.
Qed.

(** A template of the fragment that does not end in an opening brace,
    followed by a template that starts with an action, is a template of
    the fragment, and renders to the two texts one after the other. *)
Lemma lex_join (R : string) (nR : list node) :
  lex false false "" R = Some nR ->
  strings.HasPrefix R "{{" = true ->
  forall A inAction skip cur nA,
    lastByte A <> Some "{"%char ->
    (skip = true -> A <> "") ->
    lex inAction skip cur A = Some nA ->
    exists n,
      lex inAction skip cur (A +:+ R) = Some n /\
      forall ctx, Execute n ctx = Execute nA ctx +:+ Execute nR ctx.
Proof.
  intros HR Hopen. induction A as [|c A IH]; intros inAction skip cur nA Hlast Hskip HA.
  - destruct skip; [by destruct Hskip|]. destruct inAction; [done|].
    simpl in HA. injection HA as <-. simpl.
    destruct R as [|c R]; [done|]. cbn [lex] in *. rewrite Hopen in *.
    destruct (lex true true "" R) as [rest|]; [|done].
    injection HR as <-. exists (textNode cur ++ rest). split; [done|].
    intros ctx. by rewrite Execute_app.
  - change (String c A +:+ R) with (String c (A +:+ R)).
    pose proof (lastByte_tail _ _ _ Hlast) as Hlast'.
    pose proof (fun p => HasPrefix_app (String c A) R p) as Happ.
    pose proof (fun old => HasPrefix_split (String c A) R old) as Hsplit.
    change (String c A +:+ R) with (String c (A +:+ R)) in Happ, Hsplit.
    destruct skip.
    { cbn [lex] in *. by apply IH. }
    destruct inAction.
    + cbn [lex] in *.
      destruct (strings.HasPrefix (String c A) "}}") eqn:E.
      * rewrite (Happ "}}" E).
        destruct (fieldAction (String.rev cur)) as [n0|]; [|done].
        destruct (lex false true "" A) as [rest|] eqn:Hrest; [|done].
        injection HA as <-.
        destruct (IH false true "" rest Hlast') as (n' & Hn' & He); [|done|].
        { intros _ ->. by destruct c as [[] [] [] [] [] [] [] []]. }
        rewrite Hn'. exists (n0 :: n'). split; [done|].
        intros ctx. simpl. by rewrite He, append_assoc.
      * destruct (strings.HasPrefix (String c (A +:+ R)) "}}") eqn:E2.
        { apply Hsplit in E2 as [E2|(v & Hv & Hold & _)]; [congruence|].
          destruct A; [by simpl in HA|].
          destruct v; [done|]. simpl in Hold. injection Hold as _ Hold.
          by destruct A. }
        by apply IH.
    + cbn [lex] in *.
      destruct (strings.HasPrefix (String c A) "{{") eqn:E.
      * rewrite (Happ "{{" E).
        destruct (lex true true "" A) as [rest|] eqn:Hrest; [|done].
        injection HA as <-.
        destruct (IH true true "" rest Hlast') as (n' & Hn' & He); [|done|].
        { intros _ ->. by destruct c as [[] [] [] [] [] [] [] []]. }
        rewrite Hn'. exists (textNode cur ++ n'). split; [done|].
        intros ctx. by rewrite !Execute_app, He, append_assoc.
      * destruct (strings.HasPrefix (String c (A +:+ R)) "{{") eqn:E2.
        { apply Hsplit in E2 as [E2|(v & Hv & Hold & _)]; [congruence|].
          destruct A as [|c' A].
          - destruct v; [done|]. simpl in Hold. injection Hold as <- _.
            by destruct Hlast.
          - destruct v; [done|]. simpl in Hold. injection Hold as _ _ Hold.
            by destruct A. }
        by apply IH.
Qed.

(** The template with a placeholder between two templates of the
    fragment. *)
Lemma Parse_marker (m : marker) (pre post : string) (n1 n2 : list node) :
  Parse (rewriteLegacy pre) = Some n1 ->
  Parse (rewriteLegacy post) = Some n2 ->
  lastByte pre <> Some "{"%char ->
  exists nodes,
    Parse (rewriteLegacy (pre +:+ legacy m +:+ post)) = Some nodes /\
    forall ctx,
      Execute nodes ctx =
      Execute n1 ctx +:+ default "<no value>" (ctx !! key m) +:+ Execute n2 ctx.
Proof.
  unfold Parse. intros H1 H2 Hlast. rewrite rewriteLegacy_marker.
  assert (HR : lex false false "" (action m +:+ rewriteLegacy post)
               = Some (FieldNode (key m) :: n2)).
  { destruct m; simpl; by rewrite H2. }
  destruct (lex_join _ _ HR) with (A := rewriteLegacy pre) (inAction := false)
    (skip := false) (cur := "") (nA := n1) as (nodes & Hn & He); try done.
  - by destruct m.
  - by rewrite lastByte_rewriteLegacy.
  - exists nodes. split; [done|]. intros ctx. by rewrite He.
Qed.

(** *** The two contexts at the keys of the placeholders *)

Lemma ctxRun_key (phpOrder zendOrder : list string) (s : Supplier) (m : marker) :
  ctxRun phpOrder zendOrder s !! key m = Some (runAt m).
Proof. rewrite ctxRun_other by (by destruct m). by destruct m. Qed.

Lemma ctxStage_key (phpOrder zendOrder ctxOrder : list string) (s : Supplier)
    (m : marker) :
  range_of (ctxRun phpOrder zendOrder s) ctxOrder ->
  ctxStage phpOrder zendOrder ctxOrder s !! key m = Some (stagedAt s m).
Proof.
  intros Ho. rewrite ctxStage_inserts by done.
  destruct m; simpl; rewrite ?lookup_insert_ne by done;
    rewrite ?lookup_insert_eq; try done.
  by rewrite ctxRun_other.
Qed.

Lemma contexts_agree (phpOrder zendOrder ctxOrder : list string) (s : Supplier)
    (k : string) :
  range_of (ctxRun phpOrder zendOrder s) ctxOrder ->
  k ∉ contextKeys ->
  ctxStage phpOrder zendOrder ctxOrder s !! k = ctxRun phpOrder zendOrder s !! k.
Proof.
  intros Ho Hk. rewrite ctxStage_inserts by done.
  unfold contextKeys, pathKeys in Hk. rewrite !elem_of_cons in Hk.
  rewrite !lookup_insert_ne; [done|..]; intros <-; apply Hk; auto.
Qed.

Lemma Execute_agree (nodes : list node) (ctx1 ctx2 : gmap string string) :
  (forall k, k ∈ fields nodes -> ctx1 !! k = ctx2 !! k) ->
  Execute nodes ctx1 = Execute nodes ctx2.
Proof.
  induction nodes as [|[t|k] nodes IH]; intros H; [done|..]; simpl.
  - by rewrite IH.
  - rewrite (H k) by (simpl; apply elem_of_cons; by left).
    rewrite IH; [done|]. intros k' Hk'. apply H. simpl. apply elem_of_cons. by right.
Qed.

(** *** The calls of the handler *)

Lemma andThen_ok (r : Step) (k : Supplier -> Step) s' cs :
  andThen r k = (s', cs, None) ->
  exists s1 cs1 cs2,
    r = (s1, cs1, None) /\ k s1 = (s', cs2, None) /\ cs = cs1 ++ cs2.
Proof.
  destruct r as [[s1 cs1] [e|]]; simpl; [done|].
  destruct (k s1) as [[s2 cs2] e2] eqn:E. intros [= -> <- ->].
  by exists s1, cs1, cs2.
Qed.

Lemma executed_app (a b : list Call) : executed (a ++ b) = executed a ++ executed b.
Proof. apply omap_app. Qed.

(** A loop whose body, when it succeeds, executes one file. *)
Lemma executed_rangeSteps {V} (m : gmap string V)
    (body : string -> V -> Supplier -> Step) (F : string -> V -> string * string) :
  (forall k v s s' cs,
     m !! k = Some v -> body k v s = (s', cs, None) -> executed cs = [F k v]) ->
  forall order s s' cs,
    rangeSteps m order body s = (s', cs, None) ->
    executed cs = omap (fun k => F k <$> m !! k) order.
Proof.
  intros Hbody. induction order as [|k order IH]; intros s s' cs H; simpl in *.
  - by injection H as _ <-.
  - destruct (m !! k) as [v|] eqn:Hk; simpl; [|by apply IH with s s'].
    apply andThen_ok in H as (s1 & cs1 & cs2 & H1 & H2 & ->).
    rewrite executed_app, (Hbody _ _ _ _ _ Hk H1).
    simpl. f_equal. by apply IH with s1 s'.
Qed.

Section RenderFacts.

Variable Template : Type.
Variable template_Parse : string -> string -> Template + error.
Variable template_Execute : Template -> gmap string string -> string * option error.
Variable J : list string -> string.
Variable Rel : string -> string -> string + error.
Variable Dir' : string -> string.
Variable outcome : Call -> option error.
Variable rootsOrder : string -> list string.

(** A rendering that succeeds: its three calls succeeded and the template
    executed without error. *)
Lemma renderInto_ok (t : Template) (dest destFile basedir : string)
    (ctx : gmap string string) (s s' : Supplier) (cs : list Call) :
  let file := J [basedir; dest; destFile] in
  renderInto Template template_Execute J Dir' outcome t dest destFile basedir ctx s
    = (s', cs, None) ->
  s' = s /\
  cs = renderCalls (Dir' file, file, (template_Execute t ctx).1) /\
  (template_Execute t ctx).2 = None /\
  Forall (fun c => outcome c = None) cs.
Proof.
  unfold renderInto, call, andThen. cbv zeta.
  destruct (outcome (CallMkdirAll _ _)) eqn:E1; [done|].
  destruct (outcome (CallCreate _)) eqn:E2; [done|].
  destruct (template_Execute t ctx) as [text err].
  destruct (outcome (CallExecute _ _)) eqn:E3; [done|].
  intros [= <- <- ->]. simpl. repeat split; try done.
  by repeat constructor.
Qed.

Hypothesis library : rendersFragment template_Parse template_Execute.

(** C9, amended.  A template of the fragment in which a legacy
    placeholder stands between two templates of the fragment, not right
    after an opening brace, is rendered twice when the handler succeeds:
    under [/tmp/php_etc] with the staging value at the placeholder and
    under the dependency directory with the run value, which for
    [@{TMPDIR}] are [/tmp] and [{{.TMPDIR}}].  What stands before and after
    is rendered from the same nodes in the two contexts: alike where the
    nodes read no key that the contexts bind differently, and to itself
    where it is plain text. *)
Theorem tmpdir_marker_renders_per_context (s : Supplier)
    (phpOrder zendOrder ctxOrder : list string)
    (src dest path destFile : string) (readAll : string -> string + error)
    (m : marker) (pre post : string) (n1 n2 : list node)
    (s' : Supplier) (cs : list Call) :
  let run := ctxRun phpOrder zendOrder s in
  let stage := ctxStage phpOrder zendOrder ctxOrder s in
  let name := J [src; destFile] in
  range_of run ctxOrder ->
  DepDir (stager s) <> "/tmp/php_etc" ->
  range_of (renderRoots s run stage) (rootsOrder name) ->
  Rel src path = inl destFile ->
  readAll name = inl (pre +:+ legacy m +:+ post) ->
  Parse (rewriteLegacy pre) = Some n1 ->
  Parse (rewriteLegacy post) = Some n2 ->
  lastByte pre <> Some "{"%char ->
  handleEntry Template template_Parse template_Execute J Rel Dir' outcome rootsOrder
    src dest readAll run stage (path, false) s = (s', cs, None) ->
  executed cs ≡ₚ
    [(J ["/tmp/php_etc"; dest; destFile],
      Execute n1 stage +:+ stagedAt s m +:+ Execute n2 stage);
     (J [DepDir (stager s); dest; destFile],
      Execute n1 run +:+ runAt m +:+ Execute n2 run)] /\
  (forall nodes,
     (forall k, k ∈ fields nodes -> k ∉ contextKeys) ->
     Execute nodes stage = Execute nodes run) /\
  (plainText pre = true -> fields n1 = [] /\ forall ctx, Execute n1 ctx = pre) /\
  (plainText post = true -> fields n2 = [] /\ forall ctx, Execute n2 ctx = post).
Proof.
  intros run stage name Ho Hdir Hroots HRel Hread H1 H2 Hlast H.
  split; [|split; [|split]].
  - destruct (Parse_marker m pre post n1 n2 H1 H2 Hlast) as (nodes & Hn & He).
    destruct (library name _ nodes Hn) as (t & Ht & Hexec).
    unfold handleEntry in H. rewrite HRel in H. fold name in H.
    rewrite Hread, Ht in H.
    apply (executed_rangeSteps _ _
             (fun basedir ctx =>
                (J [basedir; dest; destFile], (template_Execute t ctx).1)))
      in H.
    2:{ intros basedir ctx s1 s2 cs2 _ Hr.
        by destruct (renderInto_ok _ _ _ _ _ _ _ _ Hr) as (_ & -> & _). }
    rewrite H.
    assert (Hperm : rootsOrder name ≡ₚ ["/tmp/php_etc"; DepDir (stager s)]).
    { apply (range_of_Permutation (renderRoots s run stage)); [done|].
      split.
      - apply NoDup_cons. split; [|apply NoDup_singleton].
        intros E%list_elem_of_singleton. congruence.
      - unfold renderRoots. rewrite !dom_insert_L. set_solver. }
    rewrite Hperm. simpl. unfold renderRoots at 1 2. simpl stager.
    rewrite lookup_insert_eq, lookup_insert_ne, lookup_insert_eq by done.
    simpl. rewrite !Hexec. simpl. rewrite !He.
    subst run stage. by rewrite ctxStage_key, ctxRun_key.
  - intros nodes Hk. apply Execute_agree. intros k Hin.
    by apply contexts_agree, Hk.
  - intros Hp. destruct (Parse_plain pre Hp) as (nodes & Hn & Hf & He).
    rewrite rewriteLegacy_plain in H1 by done. by simplify_eq.
  - intros Hp. destruct (Parse_plain post Hp) as (nodes & Hn & Hf & He).
    rewrite rewriteLegacy_plain in H2 by done. by simplify_eq.
Qed.

End RenderFacts.

Lemma sample_library : rendersFragment sampleParse sampleExecute.
Proof.
  intros name text nodes H. exists nodes. unfold sampleParse. by rewrite H.
Qed.

(** C9, as stated, fails: a template with the temp-dir marker and the home
    marker renders to two texts that are not one text with [/tmp] in one
    and the temp placeholder in the other at the same place. *)
Lemma tmpdir_rest_not_identical :
  let s := sampleStaged in
  let run := ctxRun samplePhpOrder [] s in
  let stage := ctxStage samplePhpOrder [] sampleCtxOrder s in
  let r := handleEntry (list node) sampleParse sampleExecute
             (fun l => strings.Join l "/") (fun _ _ => inl "php.ini")
             (fun p => p +:+ "/..") (fun _ => None)
             (fun _ => ["/tmp/php_etc"; "/tmp/deps/0"])
             "php/7.2.x" "php/etc" (fun _ => inl "@{TMPDIR}@{HOME}")
             run stage ("php/7.2.x/php.ini", false) s in
  (range_of (PhpExtensions s) samplePhpOrder /\
   range_of (ZendExtensions s) [] /\
   range_of run sampleCtxOrder) /\
  r.2 = None /\
  executed r.1.2 =
    [("/tmp/php_etc/php/etc/php.ini", "/tmp/tmp/app");
     ("/tmp/deps/0/php/etc/php.ini", "{{.TMPDIR}}{{.HOME}}")] /\
  forall pre post,
    ~ ("/tmp/tmp/app" = pre +:+ "/tmp" +:+ post /\
       "{{.TMPDIR}}{{.HOME}}" = pre +:+ "{{.TMPDIR}}" +:+ post).
Proof.
  intros s run stage r. split.
  - split; [|split]; apply (bool_decide_unpack _); by vm_compute.
  - split; [by vm_compute|]. split; [by vm_compute|].
    intros pre post [H1 H2].
    apply (f_equal String.length) in H1, H2.
    rewrite !length_append in H1, H2. simpl in H1, H2. lia.
Qed.

Lemma tmpdir_marker_renders_per_context_witness :
  let s := sampleStaged in
  let run := ctxRun samplePhpOrder [] s in
  let stage := ctxStage samplePhpOrder [] sampleCtxOrder s in
  let r := handleEntry (list node) sampleParse sampleExecute
             (fun l => strings.Join l "/") (fun _ _ => inl "php.ini")
             (fun p => p +:+ "/..") (fun _ => None)
             (fun _ => ["/tmp/deps/0"; "/tmp/php_etc"])
             "php/7.2.x" "php/etc"
             (fun _ => inl ("# uploads go to " +:+ "@{TMPDIR}" +:+ "/uploads"))
             run stage ("php/7.2.x/php.ini", false) s in
  r.2 = None /\
  executed r.1.2 ≡ₚ
    [("/tmp/php_etc/php/etc/php.ini", "# uploads go to /tmp/uploads");
     ("/tmp/deps/0/php/etc/php.ini", "# uploads go to {{.TMPDIR}}/uploads")].
Proof.
  intros s run stage r.
  assert (Ho : range_of run sampleCtxOrder).
  { apply (bool_decide_unpack _). by vm_compute. }
  assert (Hroots : range_of (renderRoots s run stage) ["/tmp/deps/0"; "/tmp/php_etc"]).
  { apply (bool_decide_unpack _). by vm_compute. }
  assert (H : r = (r.1.1, r.1.2, None)) by (vm_compute; reflexivity).
  split; [by rewrite H|].
  exact (proj1 (tmpdir_marker_renders_per_context (list node) sampleParse
                  sampleExecute (fun l => strings.Join l "/")
                  (fun _ _ => inl "php.ini") (fun p => p +:+ "/..") (fun _ => None)
                  (fun _ => ["/tmp/deps/0"; "/tmp/php_etc"]) sample_library
                  s samplePhpOrder [] sampleCtxOrder "php/7.2.x" "php/etc"
                  "php/7.2.x/php.ini" "php.ini" _ MarkTmpDir
                  "# uploads go to " "/uploads"
                  [TextNode "# uploads go to "] [TextNode "/uploads"] _ _
                  Ho ltac:(done) Hroots eq_refl eq_refl eq_refl eq_refl
                  ltac:(done) H)).
Defined.
(** * Further properties of the modelled code *)

(** ** [SetupPhpVersion] beyond the claims *)

Lemma versionFromOptions_none (s : Supplier) :
  optionsVersion s = None -> versionFromOptions s = s.
Proof.
  unfold optionsVersion, versionFromOptions.
  destruct (as_string (OptionsJson s !! "PHP_VERSION")) as [version|]; [|done].
  by destruct (bool_decide (version <> "")).
Qed.

Lemma versionFromComposer_none (s : Supplier) :
  composerVersion s = None -> versionFromComposer s = s.
Proof.
  unfold composerVersion, versionFromComposer.
  destruct (as_object (ComposerJson s !! "require")) as [require|]; [|done].
  destruct (as_string (require !! "php")) as [version|]; [|done].
  by destruct (bool_decide (version <> "")).
Qed.

Lemma warnings_snoc_debug (l : list LogCall) (fmt : string) (a : list LogArg) :
  warnings (l ++ [{| level := LDebug; format := fmt; args := a |}]) = warnings l.
Proof. unfold warnings. rewrite filter_app. simpl. apply app_nil_r. Qed.

(** X1. With no version in options.json and none in composer.json,
    [SetupPhpVersion] takes the default version of the catalog without
    consulting the matcher and without a warning; if the catalog has no
    default, the lookup error is returned and the supplier is unchanged. *)
Theorem no_declared_version_uses_default
    (F : string -> list string -> string + error) (s : Supplier) :
  optionsVersion s = None -> composerVersion s = None -> PhpVersion s = "" ->
  (forall dep, DefaultVersion (manifest s) "php" = inl dep ->
     (SetupPhpVersion F s).2 = None /\
     PhpVersion (SetupPhpVersion F s).1 = Version dep /\
     warnings (Log (SetupPhpVersion F s).1) = warnings (Log s)) /\
  (forall e, DefaultVersion (manifest s) "php" = inr e ->
     SetupPhpVersion F s = (s, Some e)).
Proof.
  intros Ho Hc Hv. unfold SetupPhpVersion.
  rewrite (versionFromOptions_none s Ho), (versionFromComposer_none s Hc).
  unfold matchCatalog. rewrite (bool_decide_eq_false_2 (PhpVersion s <> ""))
    by (intros H; by apply H).
  unfold defaultVersion. rewrite (bool_decide_eq_true_2 _ Hv).
  split.
  - intros dep ->. simpl. split; [done|]. split; [done|].
    apply warnings_snoc_debug.
  - by intros e ->.
Qed.

Lemma no_declared_version_uses_default_witness :
  let s := sampleSupplier true ∅ ∅ in
  (optionsVersion s = None /\ composerVersion s = None /\ PhpVersion s = "") /\
  PhpVersion (SetupPhpVersion sampleMatch s).1 = "7.4.0" /\
  SetupPhpVersion sampleMatch (sampleSupplier false ∅ ∅)
    = (sampleSupplier false ∅ ∅, Some "no default version for php").
Proof.
  intros s.
  destruct (no_declared_version_uses_default sampleMatch s)
    as [H1 _]; [reflexivity..|].
  destruct (no_declared_version_uses_default sampleMatch (sampleSupplier false ∅ ∅))
    as [_ H2]; [reflexivity..|].
  split; [done|]. split.
  - by apply (H1 {| Name := "php"; Version := "7.4.0" |}).
  - by apply H2.
Defined.

(** X2. [SetupPhpVersion] fails only with the error of the default-version
    lookup; when it succeeds, the resolved version is either the non-empty
    version the matcher returned for the candidate or the version of the
    catalog default. *)
Theorem resolved_version_provenance
    (F : string -> list string -> string + error) (s : Supplier) :
  (forall e, (SetupPhpVersion F s).2 = Some e ->
     DefaultVersion (manifest s) "php" = inr e) /\
  ((SetupPhpVersion F s).2 = None ->
   (candidate s <> "" /\
    F (candidate s) (AllDependencyVersions (manifest s) "php")
      = inl (PhpVersion (SetupPhpVersion F s).1) /\
    PhpVersion (SetupPhpVersion F s).1 <> "") \/
   (exists dep, DefaultVersion (manifest s) "php" = inl dep /\
                PhpVersion (SetupPhpVersion F s).1 = Version dep)).
Proof.
  unfold SetupPhpVersion, matchCatalog. fold (candidate s).
  rewrite candidate_manifest.
  destruct (bool_decide_reflect (candidate s <> "")) as [Hc|Hc].
  - destruct (F (candidate s) (AllDependencyVersions (manifest s) "php"))
      as [v|e'] eqn:HF; unfold defaultVersion; simpl.
    + destruct (bool_decide_reflect (v = "")) as [->|Hv]; simpl.
      * rewrite candidate_manifest.
        destruct (DefaultVersion (manifest s) "php") as [dep|e0]; simpl;
          split; try done; try (intros e [= <-]; done).
        intros _. right. by exists dep.
      * split; [done|]. intros _. left. done.
    + rewrite candidate_manifest.
      destruct (DefaultVersion (manifest s) "php") as [dep|e0]; simpl;
        split; try done; try (intros e [= <-]; done).
      intros _. right. by exists dep.
  - unfold defaultVersion. fold (candidate s). rewrite candidate_manifest.
    destruct (bool_decide_reflect (candidate s = "")) as [Hc'|Hc'];
      [|by destruct (decide (candidate s = ""))].
    destruct (DefaultVersion (manifest s) "php") as [dep|e0]; simpl;
      split; try done; try (intros e [= <-]; done).
    intros _. right. by exists dep.
Qed.

Lemma versionFromOptions_rest (s : Supplier) :
  stager (versionFromOptions s) = stager s /\
  PhpExtensions (versionFromOptions s) = PhpExtensions s /\
  ZendExtensions (versionFromOptions s) = ZendExtensions s /\
  WebDir (versionFromOptions s) = WebDir s.
Proof.
  unfold versionFromOptions.
  destruct (as_string (OptionsJson s !! "PHP_VERSION")) as [version|]; [|done].
  destruct (bool_decide (version <> "")); [|done].
  by destruct (FindStringSubmatch version) as [|? [|? [|? [|? ?]]]].
Qed.

Lemma versionFromComposer_rest (s : Supplier) :
  stager (versionFromComposer s) = stager s /\
  PhpExtensions (versionFromComposer s) = PhpExtensions s /\
  ZendExtensions (versionFromComposer s) = ZendExtensions s /\
  WebDir (versionFromComposer s) = WebDir s.
Proof.
  unfold versionFromComposer.
  destruct (as_object (ComposerJson s !! "require")) as [require|]; [|done].
  destruct (as_string (require !! "php")) as [version|]; [|done].
  destruct (bool_decide (version <> "")); [|done].
  by destruct (bool_decide (PhpVersion s <> "")).
Qed.

Lemma catalog_steps_frame (F : string -> list string -> string + error)
    (s : Supplier) :
  let s' := (defaultVersion (matchCatalog F s)).1 in
  manifest s' = manifest s /\ stager s' = stager s /\
  ComposerJson s' = ComposerJson s /\ OptionsJson s' = OptionsJson s /\
  PhpExtensions s' = PhpExtensions s /\ ZendExtensions s' = ZendExtensions s /\
  WebDir s' = WebDir s.
Proof.
  unfold matchCatalog, defaultVersion.
  destruct (bool_decide (PhpVersion s <> "")).
  - destruct (F _ _) as [v|e]; simpl.
    + destruct (bool_decide (v = "")); [|done]. simpl.
      by destruct (DefaultVersion _ _).
    + by destruct (DefaultVersion _ _).
  - destruct (bool_decide (PhpVersion s = "")); [|done].
    by destruct (DefaultVersion _ _).
Qed.

(** X3. [SetupPhpVersion] writes nothing but [PhpVersion] and the log: the
    collaborators, both decoded JSON files, both extension sets and the
    web directory are as before, and the log only grows. *)
Theorem SetupPhpVersion_frame
    (F : string -> list string -> string + error) (s : Supplier) :
  let s' := (SetupPhpVersion F s).1 in
  manifest s' = manifest s /\ stager s' = stager s /\
  ComposerJson s' = ComposerJson s /\ OptionsJson s' = OptionsJson s /\
  PhpExtensions s' = PhpExtensions s /\ ZendExtensions s' = ZendExtensions s /\
  WebDir s' = WebDir s /\
  exists new, Log s' = Log s ++ new.
Proof.
  unfold SetupPhpVersion.
  destruct (catalog_steps_frame F (versionFromComposer (versionFromOptions s)))
    as (-> & -> & -> & -> & -> & -> & ->).
  destruct (versionFromComposer_frame (versionFromOptions s)) as (-> & -> & ->).
  destruct (versionFromComposer_rest (versionFromOptions s)) as (-> & -> & -> & ->).
  destruct (versionFromOptions_frame s) as (-> & -> & ->).
  destruct (versionFromOptions_rest s) as (-> & -> & -> & ->).
  repeat (split; [done|]).
  destruct (log_versionFromOptions s) as (n1 & E1 & _).
  destruct (log_versionFromComposer (versionFromOptions s)) as (n2 & E2 & _).
  destruct (log_matchCatalog F (versionFromComposer (versionFromOptions s)))
    as (n3 & E3 & _).
  destruct (log_defaultVersion
    (matchCatalog F (versionFromComposer (versionFromOptions s))))
    as (n4 & E4 & _).
  exists (n1 ++ n2 ++ n3 ++ n4).
  rewrite E4, E3, E2, E1. by rewrite <- !app_assoc.
Qed.

Lemma FindStringSubmatch_embedded (pre post : string) (d1 d2 : ascii) :
  without "P" pre = true -> isDigit d1 = true -> isDigit d2 = true ->
  FindStringSubmatch (pre +:+ "PHP_" +:+ String d1 (String d2 "_LATEST") +:+ post)
  = ["PHP_" +:+ String d1 (String d2 "_LATEST"); String d1 ""; String d2 ""].
Proof.
  intros Hpre H1 H2. induction pre as [|c pre IH].
  - unfold FindStringSubmatch, alias_match_here. simpl.
    by rewrite H1, H2.
  - simpl in Hpre. apply andb_true_iff in Hpre as [Hc Hpre].
    apply negb_true_iff in Hc.
    change (String c pre +:+ "PHP_" +:+ String d1 (String d2 "_LATEST") +:+ post)
      with (String c (pre +:+ "PHP_" +:+ String d1 (String d2 "_LATEST") +:+ post)).
    cbv beta iota delta [FindStringSubmatch]; fold FindStringSubmatch.
    unfold alias_match_here at 1. simpl strings.HasPrefix. rewrite Hc.
    by apply IH.
Qed.

(** X4. The alias pattern is not anchored: a [PHP_VERSION] that carries
    [PHP_<d><d>_LATEST] anywhere (after text free of the letter P) expands
    to [<d>.<d>.x], whatever surrounds the alias. *)
Theorem expandAlias_unanchored (pre post : string) (d1 d2 : ascii) :
  without "P" pre = true -> isDigit d1 = true -> isDigit d2 = true ->
  expandAlias (pre +:+ "PHP_" +:+ String d1 (String d2 "_LATEST") +:+ post)
  = String d1 (String "." (String d2 ".x")).
Proof.
  intros Hpre H1 H2. unfold expandAlias.
  by rewrite FindStringSubmatch_embedded.
Qed.

Lemma expandAlias_unanchored_witness :
  expandAlias ("my-" +:+ "PHP_" +:+ String "5" (String "6" "_LATEST") +:+ "-build")
  = "5.6.x".
Proof. by apply (expandAlias_unanchored "my-" "-build" "5" "6"). Defined.

(** ** [SetupExtensions] beyond the claims *)

Lemma SetupExtensions_ZendExtensions (order : list string) (s : Supplier) :
  ZendExtensions (SetupExtensions order s) =
  match as_array (OptionsJson s !! "ZEND_EXTENSIONS") with
  | Some arr => addStrings arr ∅
  | None => ∅
  end.
Proof.
  unfold SetupExtensions, extensionsFromComposer, extensionsFromOptions,
    extensionsDefaults. simpl.
  destruct (as_array (OptionsJson s !! "PHP_EXTENSIONS")); simpl;
    destruct (as_array (OptionsJson s !! "ZEND_EXTENSIONS")); simpl;
    by destruct (as_object (ComposerJson s !! "require")).
Qed.

Lemma SetupExtensions_frame (order : list string) (s : Supplier) :
  manifest (SetupExtensions order s) = manifest s /\
  stager (SetupExtensions order s) = stager s /\
  PhpVersion (SetupExtensions order s) = PhpVersion s /\
  ComposerJson (SetupExtensions order s) = ComposerJson s /\
  OptionsJson (SetupExtensions order s) = OptionsJson s /\
  WebDir (SetupExtensions order s) = WebDir s.
Proof.
  unfold SetupExtensions, extensionsFromComposer, extensionsFromOptions,
    extensionsDefaults. simpl.
  destruct (as_array (OptionsJson s !! "PHP_EXTENSIONS")); simpl;
    destruct (as_array (OptionsJson s !! "ZEND_EXTENSIONS")); simpl;
    by destruct (as_object (ComposerJson s !! "require")).
Qed.

(** X5. The zend extension set is the strings of the [ZEND_EXTENSIONS]
    array of options.json and nothing else: it has no built-in default and
    composer.json never adds to it. *)
Theorem zend_extensions_from_options_only (order : list string) (s : Supplier)
    (x : string) :
  is_Some (ZendExtensions (SetupExtensions order s) !! x) <->
  exists arr, OptionsJson s !! "ZEND_EXTENSIONS" = Some (JArray arr) /\
              JString x ∈ arr.
Proof.
  rewrite SetupExtensions_ZendExtensions.
  destruct (OptionsJson s !! "ZEND_EXTENSIONS") as [[| | | |arr|]|] eqn:E; simpl;
    try (rewrite lookup_empty; split; [by intros [? ?]|by intros (? & ? & _)]).
  split.
  - intros Hx. exists arr. split; [done|].
    destruct (addStrings_miss arr ∅ x) as [E'|Hin]; [|done].
    rewrite E', lookup_empty in Hx. by destruct Hx.
  - intros (arr' & [= <-] & Hin). rewrite addStrings_hit by done. by eexists.
Qed.

(** X6. Without a [PHP_EXTENSIONS] array in options.json the extension set
    is the four built-in defaults together with what the [require] keys of
    composer.json put in. *)
Theorem defaults_kept_without_options_array (order : list string) (s : Supplier)
    (x : string) :
  requireOrder s order ->
  as_array (OptionsJson s !! "PHP_EXTENSIONS") = None ->
  is_Some (PhpExtensions (SetupExtensions order s) !! x) <->
  x ∈ ["bz2"; "zlib"; "curl"; "mcrypt"] \/ requiredExtension s x.
Proof.
  intros Ho Harr.
  assert (Hdef : is_Some (defaultExtensions !! x) <->
                 x ∈ ["bz2"; "zlib"; "curl"; "mcrypt"]).
  { unfold defaultExtensions. rewrite !lookup_insert_is_Some', lookup_empty.
    rewrite !elem_of_cons, elem_of_nil.
    split; [intros [<-|[<-|[<-|[<-|[? ?]]]]]; auto; done
           |intros [->|[->|[->|[->|[]]]]]; auto]. }
  rewrite <- Hdef. rewrite SetupExtensions_PhpExtensions, Harr. simpl.
  unfold requiredExtension, requireOrder in *.
  destruct (ComposerJson s !! "require") as [[| | | | |requires]|] eqn:Hr;
    simpl in *;
    try (split; [by left|intros [?|(? & ? & ? & _)]; done]).
  split.
  - intros Hx.
    destruct (range_addRequire_miss requires order defaultExtensions x)
      as [E|(k & Hin & Hk & Hc)]; [left; by rewrite <- E|right; eauto].
  - intros [Hd|(requires' & k & [= <-] & Hk & Hc)].
    + destruct (range_addRequire_miss requires order defaultExtensions x)
        as [E|(k & Hin & Hk & Hc)]; [by rewrite E|].
      erewrite range_addRequire_hit; eauto.
    + erewrite range_addRequire_hit; eauto.
      by apply (range_of_elem requires).
Qed.

Lemma defaults_kept_without_options_array_witness :
  let s := sampleSupplier true ∅ {[ "require" := JObject sampleRequire ]} in
  requireOrder s sampleOrder /\
  as_array (OptionsJson s !! "PHP_EXTENSIONS") = None /\
  is_Some (PhpExtensions (SetupExtensions sampleOrder s) !! "zlib").
Proof.
  intros s.
  assert (Ho : requireOrder s sampleOrder).
  { apply (bool_decide_unpack _). by vm_compute. }
  split; [exact Ho|]. split; [reflexivity|].
  apply (defaults_kept_without_options_array sampleOrder s "zlib" Ho eq_refl).
  left. rewrite !elem_of_cons. auto.
Defined.

(** X7. [SetupExtensions] starts from scratch: what the two extension sets
    held before does not matter, so running it again on its own result
    gives the same two sets. *)
Theorem SetupExtensions_resets (order : list string) (s : Supplier) :
  PhpExtensions (SetupExtensions order (SetupExtensions order s))
    = PhpExtensions (SetupExtensions order s) /\
  ZendExtensions (SetupExtensions order (SetupExtensions order s))
    = ZendExtensions (SetupExtensions order s) /\
  forall php zend : gmap string bool,
    PhpExtensions (SetupExtensions order (set_ZendExtensions zend
                                            (set_PhpExtensions php s)))
      = PhpExtensions (SetupExtensions order s) /\
    ZendExtensions (SetupExtensions order (set_ZendExtensions zend
                                             (set_PhpExtensions php s)))
      = ZendExtensions (SetupExtensions order s).
Proof.
  destruct (SetupExtensions_frame order s) as (_ & _ & _ & Hc & Ho & _).
  rewrite !SetupExtensions_PhpExtensions, !SetupExtensions_ZendExtensions.
  rewrite Hc, Ho. split; [done|]. split; [done|]. intros php zend.
  by rewrite SetupExtensions_PhpExtensions, SetupExtensions_ZendExtensions.
Qed.

Lemma all_true_insert (m : gmap string bool) (k : string) :
  map_Forall (fun _ b => b = true) m ->
  map_Forall (fun _ b => b = true) (<[k := true]> m).
Proof. intros H. by apply map_Forall_insert_2. Qed.

Lemma all_true_addStrings (arr : list json) (m : gmap string bool) :
  map_Forall (fun _ b => b = true) m ->
  map_Forall (fun _ b => b = true) (addStrings arr m).
Proof.
  unfold addStrings. revert m.
  induction arr as [|v arr IH]; intros m Hm; [done|]. simpl. apply IH.
  destruct v; simpl; try done. by apply all_true_insert.
Qed.

Lemma all_true_addRequire (k : string) (m : gmap string bool) :
  map_Forall (fun _ b => b = true) m ->
  map_Forall (fun _ b => b = true) (addRequire k m).
Proof.
  intros Hm. unfold addRequire.
  destruct (strings.HasPrefix k "ext-"), (strings.HasPrefix k "ext-pdo_");
    repeat apply all_true_insert; done.
Qed.

Lemma all_true_range (requires : gmap string json) (order : list string)
    (m : gmap string bool) :
  map_Forall (fun _ b => b = true) m ->
  map_Forall (fun _ b => b = true)
    (range requires order (fun k _ m => addRequire k m) m).
Proof.
  unfold range. revert m.
  induction order as [|k order IH]; intros m Hm; [done|]. simpl. apply IH.
  destruct (requires !! k); [|done]. by apply all_true_addRequire.
Qed.

(** X8. Every entry of the two extension maps that [SetupExtensions]
    leaves is bound to [true]: membership is the presence of the key. *)
Theorem extension_maps_all_true (order : list string) (s : Supplier) :
  map_Forall (fun _ b => b = true) (PhpExtensions (SetupExtensions order s)) /\
  map_Forall (fun _ b => b = true) (ZendExtensions (SetupExtensions order s)).
Proof.
  rewrite SetupExtensions_PhpExtensions, SetupExtensions_ZendExtensions. simpl.
  assert (Hd : map_Forall (fun _ b => b = true) defaultExtensions).
  { unfold defaultExtensions. repeat apply all_true_insert.
    apply map_Forall_empty. }
  assert (He : map_Forall (fun (_ : string) b => b = true) (∅ : gmap string bool))
    by apply map_Forall_empty.
  split.
  - destruct (as_object (ComposerJson s !! "require")) as [requires|];
      destruct (as_array (OptionsJson s !! "PHP_EXTENSIONS")) as [arr|];
      try apply all_true_range; try apply all_true_addStrings; done.
  - destruct (as_array (OptionsJson s !! "ZEND_EXTENSIONS")) as [arr|];
      [by apply all_true_addStrings|done].
Qed.

(** X9. [SetupExtensions] logs exactly one warning, the deprecation
    notice, when options.json has a [PHP_EXTENSIONS] array, and none
    otherwise; a [ZEND_EXTENSIONS] array is taken without a warning. *)
Theorem deprecation_warning_only_for_php_array (order : list string)
    (s : Supplier) :
  warnings (Log (SetupExtensions order s)) =
  warnings (Log s) ++
  match as_array (OptionsJson s !! "PHP_EXTENSIONS") with
  | Some _ => [deprecationWarning]
  | None => []
  end.
Proof.
  unfold SetupExtensions, extensionsFromComposer, extensionsFromOptions,
    extensionsDefaults, warnings. simpl.
  destruct (as_array (OptionsJson s !! "PHP_EXTENSIONS")); simpl;
    destruct (as_array (OptionsJson s !! "ZEND_EXTENSIONS")); simpl;
    destruct (as_object (ComposerJson s !! "require")); simpl;
    rewrite ?filter_app; simpl; by rewrite ?app_nil_r.
Qed.

(** ** The binding contexts beyond the claims *)

Lemma ctxRun_ZendExtensions (phpOrder zendOrder : list string) (s : Supplier) :
  range_of (ZendExtensions s) zendOrder ->
  index (ctxRun phpOrder zendOrder s) "ZendExtensions" = zendExtensionLines zendOrder.
Proof.
  intros Ho. unfold ctxRun.
  rewrite (appendLoop_index "ZendExtensions"
             (fun ext => "zend_extension=" +:+ ext +:+ nl)).
  - rewrite (index_eq _ _ "ZendExtensions"
               (appendLoop_other "PhpExtensions"
                  (fun ext => "extension=" +:+ ext +:+ ".so" +:+ nl)
                  (PhpExtensions s) phpOrder _ "ZendExtensions" ltac:(done))).
    reflexivity.
  - intros k Hk. by apply (range_of_elem (ZendExtensions s) zendOrder).
Qed.

(** X10. The [ZendExtensions] block is the same in the two contexts: one
    line [zend_extension=<name>] for each zend extension, in the order the
    set was visited. *)
Theorem zend_block_same_in_both_contexts (s : Supplier)
    (phpOrder zendOrder ctxOrder : list string) :
  range_of (ZendExtensions s) zendOrder ->
  range_of (ctxRun phpOrder zendOrder s) ctxOrder ->
  ctxRun phpOrder zendOrder s !! "ZendExtensions"
    = Some (zendExtensionLines zendOrder) /\
  ctxStage phpOrder zendOrder ctxOrder s !! "ZendExtensions"
    = Some (zendExtensionLines zendOrder).
Proof.
  intros Hz Ho.
  assert (Hrun : ctxRun phpOrder zendOrder s !! "ZendExtensions"
                 = Some (zendExtensionLines zendOrder)).
  { assert (Hi := ctxRun_ZendExtensions phpOrder zendOrder s Hz).
    destruct (ctxRun_is_Some phpOrder zendOrder s "ZendExtensions") as [v Hv];
      [by eexists|].
    unfold index in Hi. rewrite Hv in Hi. simpl in Hi. by rewrite Hv, Hi. }
  split; [done|].
  rewrite (ctxStage_inserts _ _ _ _ Ho).
  by rewrite !lookup_insert_ne.
Qed.

Lemma zend_block_same_in_both_contexts_witness :
  let s := SetupExtensions []
             (sampleSupplier true
                {[ "ZEND_EXTENSIONS" := JArray [JString "xdebug"] ]} ∅) in
  range_of (ZendExtensions s) ["xdebug"] /\
  range_of (ctxRun samplePhpOrder ["xdebug"] s) sampleCtxOrder /\
  ctxStage samplePhpOrder ["xdebug"] sampleCtxOrder s !! "ZendExtensions"
    = Some ("zend_extension=xdebug" +:+ nl).
Proof.
  intros s.
  assert (Hz : range_of (ZendExtensions s) ["xdebug"]).
  { apply (bool_decide_unpack _). by vm_compute. }
  assert (Ho : range_of (ctxRun samplePhpOrder ["xdebug"] s) sampleCtxOrder).
  { apply (bool_decide_unpack _). by vm_compute. }
  split; [exact Hz|]. split; [exact Ho|].
  apply (zend_block_same_in_both_contexts s samplePhpOrder ["xdebug"]
           sampleCtxOrder Hz Ho).
Defined.

Lemma Split_char_single (sep : ascii) (p : string) :
  without sep p = true -> strings.Split p (String sep "") = [p].
Proof.
  induction p as [|c p IH]; intros Hp; [done|].
  simpl in Hp. apply andb_true_iff in Hp as [Hc Hp].
  rewrite Split_char_cons. apply negb_true_iff in Hc. rewrite Hc.
  by rewrite IH.
Qed.

Lemma without_append (c : ascii) (a b : string) :
  without c (a +:+ b) = without c a && without c b.
Proof.
  induction a as [|x a IH]; [done|]. simpl. rewrite IH. by rewrite andb_assoc.
Qed.

Lemma hasLine_middle (X line B : string) :
  X = "" \/ (exists Y, X = Y +:+ nl) ->
  without (ascii_of_nat 10) line = true ->
  hasLine line (X +:+ (line +:+ nl) +:+ B) = true.
Proof.
  intros HX Hline. unfold hasLine. apply bool_decide_eq_true_2.
  apply (Split_char_single (ascii_of_nat 10)) in Hline. fold nl in Hline.
  unfold nl at 1.
  replace (X +:+ (line +:+ String (ascii_of_nat 10) "") +:+ B)
    with ((X +:+ line) +:+ String (ascii_of_nat 10) B)
    by (by rewrite !append_assoc).
  unfold nl. rewrite Split_char_app. fold nl. apply elem_of_app. left.
  destruct HX as [->|[Y ->]].
  - simpl. rewrite Hline. by apply list_elem_of_singleton.
  - rewrite append_assoc. unfold nl. simpl. rewrite Split_char_app. fold nl.
    apply elem_of_app. right. rewrite Hline. by apply list_elem_of_singleton.
Qed.

Lemma extensionLines_app (o1 o2 : list string) :
  extensionLines (o1 ++ o2) = extensionLines o1 +:+ extensionLines o2.
Proof.
  induction o1 as [|e o1 IH]; [done|]. simpl. by rewrite IH, !append_assoc.
Qed.

Lemma index_Some (m : gmap string string) (k v : string) :
  m !! k = Some v -> index m k = v.
Proof. unfold index. by intros ->. Qed.

(** X11. Every extension of the set whose name has no line feed has its
    own line [extension=<name>.so] in the [PhpExtensions] block of the run
    context and of the stage context. *)
Theorem every_extension_has_its_line (s : Supplier)
    (phpOrder zendOrder ctxOrder : list string) (ext : string) :
  range_of (PhpExtensions s) phpOrder ->
  is_Some (PhpExtensions s !! ext) ->
  without (ascii_of_nat 10) ext = true ->
  hasLine ("extension=" +:+ ext +:+ ".so")
    (index (ctxRun phpOrder zendOrder s) "PhpExtensions") = true /\
  hasLine ("extension=" +:+ ext +:+ ".so")
    (index (ctxStage phpOrder zendOrder ctxOrder s) "PhpExtensions") = true.
Proof.
  intros Ho Hext Hnl.
  apply (range_of_elem (PhpExtensions s) phpOrder ext Ho) in Hext.
  apply list_elem_of_split in Hext as (o1 & o2 & ->).
  assert (Hline : without (ascii_of_nat 10) ("extension=" +:+ ext +:+ ".so") = true).
  { rewrite !without_append, Hnl. reflexivity. }
  assert (Hblock : extensionLines (o1 ++ ext :: o2) =
    extensionLines o1 +:+ (("extension=" +:+ ext +:+ ".so") +:+ nl)
      +:+ extensionLines o2).
  { rewrite extensionLines_app. simpl. by rewrite !append_assoc. }
  split.
  - rewrite (ctxRun_PhpExtensions _ _ _ Ho), Hblock.
    apply hasLine_middle; [apply extensionLines_shape|done].
  - rewrite (index_Some _ _ _ (ctxStage_PhpExtensions _ _ _ _)).
    rewrite (ctxRun_PhpExtensions _ _ _ Ho), Hblock.
    replace ((extensionLines o1 +:+ (("extension=" +:+ ext +:+ ".so") +:+ nl)
                +:+ extensionLines o2) +:+ "extension=openssl.so" +:+ nl)
      with (extensionLines o1 +:+ (("extension=" +:+ ext +:+ ".so") +:+ nl)
              +:+ (extensionLines o2 +:+ "extension=openssl.so" +:+ nl))
      by (by rewrite !append_assoc).
    apply hasLine_middle; [apply extensionLines_shape|done].
Qed.

Lemma every_extension_has_its_line_witness :
  range_of (PhpExtensions sampleStaged) samplePhpOrder /\
  is_Some (PhpExtensions sampleStaged !! "curl") /\
  without (ascii_of_nat 10) "curl" = true /\
  hasLine "extension=curl.so"
    (index (ctxStage samplePhpOrder [] sampleCtxOrder sampleStaged)
       "PhpExtensions") = true.
Proof.
  assert (Ho : range_of (PhpExtensions sampleStaged) samplePhpOrder).
  { apply (bool_decide_unpack _). by vm_compute. }
  assert (Hc : is_Some (PhpExtensions sampleStaged !! "curl")) by (by eexists).
  split; [exact Ho|]. split; [exact Hc|]. split; [reflexivity|].
  apply (every_extension_has_its_line sampleStaged samplePhpOrder []
           sampleCtxOrder "curl" Ho Hc eq_refl).
Defined.

(** ** [versionLine] beyond the claim *)

(** X13. Versions that differ only in their last dot-separated component
    have the same version line, so they select the same directory of
    default templates; and the last component of a version line is always
    [x]. *)
Theorem versionLine_shared_by_patch_versions :
  (forall (cs : list string) (c d : string),
     Forall (fun p => without "." p = true) (cs ++ [c]) ->
     Forall (fun p => without "." p = true) (cs ++ [d]) ->
     versionLine (strings.Join (cs ++ [c]) ".") =
     versionLine (strings.Join (cs ++ [d]) ".")) /\
  (forall v, last (strings.Split (versionLine v) ".") = Some "x").
Proof.
  split.
  - intros cs c d Hc Hd. by rewrite !versionLine_Join.
  - intros v. destruct (Split_dot_snoc v) as (cs & c & E).
    assert (Hall := Split_dot_without v). rewrite E in Hall.
    apply Forall_app in Hall as [Hcs _].
    unfold versionLine at 1. rewrite E, set_last_snoc.
    rewrite Split_Join_dot; [apply last_snoc|by destruct cs|].
    apply Forall_app. split; [done|]. by repeat constructor.
Qed.

Lemma versionLine_shared_by_patch_versions_witness :
  versionLine (strings.Join (["7"; "2"] ++ ["14"]) ".") =
  versionLine (strings.Join (["7"; "2"] ++ ["9"]) ".").
Proof.
  apply (proj1 versionLine_shared_by_patch_versions ["7"; "2"] "14" "9");
    repeat constructor.
Defined.

(** ** The start scripts *)

Ltac flatten_strings :=
  repeat (progress (rewrite ?append_assoc; simpl)); try reflexivity.

Lemma supply_start_text (idx : string) :
  Sprintf supplyStartFormat
    [FmtString idx; FmtString idx; FmtString idx; FmtString idx;
     FmtString idx; FmtString idx; FmtString idx; FmtString idx] =
  "#!/usr/bin/env bash" +:+ nl +:+ startScriptBody idx +:+
  "%!(EXTRA string=" +:+ idx +:+ ", string=" +:+ idx +:+ ")".
Proof.
  unfold Sprintf, supplyStartFormat, startScriptBody, nl, dq. flatten_strings.
Qed.

Lemma finalize_start_text (idx : string) :
  Sprintf finalize.startFormat
    [FmtString idx; FmtString idx; FmtString idx; FmtString idx;
     FmtString idx; FmtString idx; FmtString idx; FmtString idx] =
  "#!/usr/bin/env bash" +:+ nl +:+ varifyLine idx +:+ nl +:+ startScriptBody idx.
Proof.
  unfold Sprintf, finalize.startFormat, varifyFormat, varifyLine,
    startScriptBody, nl, dq.
  flatten_strings.
Qed.

(** X14. The start script of the supply phase is written with mode 0755
    to [bin/php_buildpack_start] under the dependency directory.  Its
    format has six verbs and is given eight operands, so after the two
    command lines the script ends with the text [fmt] appends for the two
    operands left over. *)
Theorem supply_start_script_has_extra_operands
    (J : list string -> string) (outcome : Call -> option error) (s : Supplier) :
  let idx := DepsIdx (stager s) in
  let script :=
    "#!/usr/bin/env bash" +:+ nl +:+ startScriptBody idx +:+
    "%!(EXTRA string=" +:+ idx +:+ ", string=" +:+ idx +:+ ")" in
  let c := CallWriteFile (J [DepDir (stager s); "bin"; "php_buildpack_start"])
             script 493 in
  WriteStartFile J outcome s =
  (logf LBeginStep "Writing start script (php_buildpack_start)" [] s,
   [c], outcome c).
Proof.
  intros idx script c. unfold WriteStartFile, call. cbn [stager logf].
  fold idx. by rewrite (supply_start_text idx).
Qed.

(** X15. The start script of the finalize phase gives each of its eight
    verbs one operand: it is the shebang, the varify line and the lines
    the supply script has, with nothing after them. *)
Theorem finalize_start_script
    (J : list string -> string) (outcome : finalize.Call -> option error)
    (f : finalize.Finalizer) :
  let idx := DepsIdx (finalize.stager f) in
  let script :=
    "#!/usr/bin/env bash" +:+ nl +:+ varifyLine idx +:+ nl +:+ startScriptBody idx in
  let c := finalize.CallWriteFile
             (J [DepDir (finalize.stager f); "bin"; "php_buildpack_start"])
             script 493 in
  finalize.WriteStartFile J outcome f = ([c], outcome c).
Proof.
  intros idx script c. unfold finalize.WriteStartFile.
  fold idx. by rewrite (finalize_start_text idx).
Qed.

(** X16. The finalize phase writes the release descriptor only after the
    start script was written: when writing the script fails, that error is
    returned and logged and no descriptor is written; otherwise the
    descriptor maps the process type [web] to the start script under
    [$DEPS_DIR/<idx>/bin] and its write decides the result. *)
Theorem finalize_run_order
    (J : list string -> string) (outcome : finalize.Call -> option error)
    (f : finalize.Finalizer) :
  let f1 := finalize.logf LBeginStep "Finalizing php" [] f in
  exists script,
    let c1 := finalize.CallWriteFile
                (J [DepDir (finalize.stager f); "bin"; "php_buildpack_start"])
                script 493 in
    let c2 := finalize.CallYAMLWrite "/tmp/php-buildpack-release-step.yml"
                {[ "default_process_types" :=
                     {[ "web" := "$DEPS_DIR/" +:+ DepsIdx (finalize.stager f)
                                 +:+ "/bin/php_buildpack_start" ]} ]} in
    (forall err, outcome c1 = Some err ->
       finalize.Run J outcome f =
       (finalize.logf LError "Error writing start file: %v" [AString err] f1,
        [c1], Some err)) /\
    (outcome c1 = None ->
       finalize.Run J outcome f = (f1, [c1; c2], outcome c2)).
Proof.
  intros f1.
  exists (Sprintf finalize.startFormat
            (repeat (FmtString (DepsIdx (finalize.stager f))) 8)).
  intros c1 c2. unfold finalize.Run. fold f1.
  unfold finalize.WriteStartFile.
  split; [intros err Herr|intros Herr];
    match goal with
    | |- context [match outcome ?c with _ => _ end] => change c with c1
    end; by rewrite Herr.
Qed.

(** X17. [WriteProfileD] hands the stager one script named
    [bp_env_vars.sh]: the [PHPRC] export, the server-admin export, the
    [PHP_INI_SCAN_DIR] export exactly when [php/etc/php.ini.d] exists under
    the dependency directory, and the varify line.  When the existence
    check fails nothing is written and that error is returned. *)
Theorem profile_script_contents
    (J : list string -> string) (outcome : Call -> option error)
    (FileExists : string -> bool + error) (s : Supplier) :
  let idx := DepsIdx (stager s) in
  let s1 := logf LBeginStep "Writing profile.d script" [] s in
  let iniDir := J [DepDir (stager s); "php/etc/php.ini.d"] in
  (forall err, FileExists iniDir = inr err ->
     WriteProfileD J outcome FileExists s = (s1, [], Some err)) /\
  (forall found, FileExists iniDir = inl found ->
     let c := CallWriteProfileD "bp_env_vars.sh"
                ("export PHPRC=$DEPS_DIR/" +:+ idx +:+ "/php/etc" +:+ nl +:+
                 "export HTTPD_SERVER_ADMIN=admin@localhost" +:+ nl +:+
                 (if found
                  then "export PHP_INI_SCAN_DIR=$DEPS_DIR/" +:+ idx
                       +:+ "/php/etc/php.ini.d" +:+ nl
                  else "") +:+
                 varifyLine idx +:+ nl) in
     WriteProfileD J outcome FileExists s = (s1, [c], outcome c)).
Proof.
  intros idx s1 iniDir. unfold WriteProfileD, call. cbn [stager logf].
  fold iniDir idx. split.
  - by intros err ->.
  - intros found ->. cbv zeta.
    assert (forall a b : string, a = b ->
      (s1, [CallWriteProfileD "bp_env_vars.sh" a],
       outcome (CallWriteProfileD "bp_env_vars.sh" a)) =
      (s1, [CallWriteProfileD "bp_env_vars.sh" b],
       outcome (CallWriteProfileD "bp_env_vars.sh" b))) as Heq
      by (by intros a b ->).
    apply Heq.
    unfold Sprintf, varifyFormat, varifyLine, nl, dq.
    destruct found; flatten_strings.
Qed.

Lemma profile_script_contents_witness :
  let exists_ := fun _ : string => inl true : bool + error in
  WriteProfileD (fun l => strings.Join l "/") (fun _ => None) exists_
    (sampleSupplier true ∅ ∅) =
  (logf LBeginStep "Writing profile.d script" [] (sampleSupplier true ∅ ∅),
   [CallWriteProfileD "bp_env_vars.sh"
      ("export PHPRC=$DEPS_DIR/0/php/etc" +:+ nl +:+
       "export HTTPD_SERVER_ADMIN=admin@localhost" +:+ nl +:+
       ("export PHP_INI_SCAN_DIR=$DEPS_DIR/0/php/etc/php.ini.d" +:+ nl) +:+
       varifyLine "0" +:+ nl)],
   None).
Proof.
  intros exists_.
  apply (proj2 (profile_script_contents (fun l => strings.Join l "/")
                  (fun _ => None) exists_ (sampleSupplier true ∅ ∅)) true).
  reflexivity.
Defined.

(** X18. [InstallComposer] fetches composer only when the catalog lists
    exactly one version of it, and then that version, to [bin/composer]
    under the dependency directory; with no version or several it makes
    no call and returns an error that names the count. *)
Theorem composer_needs_exactly_one_version
    (J : list string -> string) (outcome : Call -> option error) (s : Supplier) :
  let versions := AllDependencyVersions (manifest s) "composer" in
  (forall v, versions = [v] ->
     let c := CallFetchDependency {| Name := "composer"; Version := v |}
                (J [DepDir (stager s); "bin"; "composer"]) in
     InstallComposer J outcome s =
     (logf LBeginStep "Installing composer %s" [AString v] s, [c], outcome c)) /\
  (List.length versions <> 1 ->
     InstallComposer J outcome s =
     (s, [], Some ("expected 1 version of composer, found "
                   +:+ decimal (Z.of_nat (List.length versions))))).
Proof.
  intros versions. subst versions. unfold InstallComposer.
  destruct (AllDependencyVersions (manifest s) "composer") as [|v [|w rest]].
  - split; [done|]. intros _. reflexivity.
  - split; [by intros v' [= <-]|]. intros Hlen. by destruct Hlen.
  - split; [done|]. intros _. unfold Sprintf. simpl sprintf_scan.
    by rewrite append_nil_r.
Qed.

Lemma composer_needs_exactly_one_version_witness :
  let s := sampleSupplier true ∅ ∅ in
  List.length (AllDependencyVersions (manifest s) "composer") <> 1 /\
  InstallComposer (fun l => strings.Join l "/") (fun _ => None) s =
  (s, [], Some "expected 1 version of composer, found 3").
Proof.
  intros s.
  assert (H : List.length (AllDependencyVersions (manifest s) "composer") <> 1)
    by (simpl; lia).
  split; [exact H|].
  apply (proj2 (composer_needs_exactly_one_version
                  (fun l => strings.Join l "/") (fun _ => None) s) H).
Defined.

(** ** [InstallHTTPD] *)

Lemma replace_scan_text_end (c0 : ascii) (old' new t : string) :
  without c0 t = true -> strings.replace_scan (String c0 old') new 0 t = t.
Proof.
  intros Ht. rewrite <- (append_nil_r t) at 1.
  rewrite replace_scan_text by done. simpl. apply append_nil_r.
Qed.

Lemma HasPrefix_Contains (a b s : string) :
  strings.HasPrefix s (a +:+ b) = true -> Contains s b = true.
Proof.
  revert s. induction a as [|x a IH]; intros s H.
  - destruct s; cbn [Contains]; simpl in H; by rewrite H.
  - destruct s as [|c s]; [done|]. simpl in H.
    destruct (Ascii.eqb c x); [|done].
    cbn [Contains]. rewrite (IH s H). apply orb_true_r.
Qed.

Lemma Contains_suffix (a b s : string) :
  Contains s (a +:+ b) = true -> Contains s b = true.
Proof.
  induction s as [|c s IH]; cbn [Contains]; intros H.
  - apply orb_true_iff in H as [H|H]; [|done].
    apply HasPrefix_Contains in H. by cbn [Contains] in H.
  - apply orb_true_iff in H as [H|H].
    + apply HasPrefix_Contains in H. by cbn [Contains] in H.
    + rewrite (IH H). apply orb_true_r.
Qed.

(** X19. [InstallHTTPD] writes apachectl back only when the install of
    httpd, the links of [bin] and [lib] and the read of the file all
    succeeded, and it is the last thing it does; the text written is the
    text read after the two replacements, with mode 0755. *)
Theorem apachectl_written_after_install
    (J : list string -> string) (outcome : Call -> option error)
    (ReadFile : string -> string + error) (s : Supplier) :
  let dir := DepDir (stager s) in
  let c1 := CallInstallOnlyVersion "httpd" dir in
  let c2 := CallLinkDirectoryInDepDir (J [dir; "httpd"; "bin"]) "bin" in
  let c3 := CallLinkDirectoryInDepDir (J [dir; "httpd"; "lib"]) "lib" in
  let path := J [dir; "httpd/bin/apachectl"] in
  (forall txt,
     outcome c1 = None -> outcome c2 = None -> outcome c3 = None ->
     ReadFile path = inl txt ->
     let w := CallWriteFile path (rewriteApachectl (DepsIdx (stager s)) txt) 493 in
     (InstallHTTPD J outcome ReadFile s).1.2 = [c1; c2; c3; w] /\
     (InstallHTTPD J outcome ReadFile s).2 = outcome w) /\
  (forall p content perm,
     CallWriteFile p content perm ∈ (InstallHTTPD J outcome ReadFile s).1.2 ->
     outcome c1 = None /\ outcome c2 = None /\ outcome c3 = None /\
     exists txt, ReadFile path = inl txt /\ p = path /\
                 content = rewriteApachectl (DepsIdx (stager s)) txt).
Proof.
  intros dir c1 c2 c3 path. unfold InstallHTTPD. cbn [linkDirectories].
  unfold call, andThen. fold dir. fold c1.
  destruct (outcome c1) as [e1|] eqn:E1.
  { split; [done|]. intros p content perm. cbn.
    rewrite list_elem_of_singleton. done. }
  cbn [stager logf]. fold dir. fold c2.
  destruct (outcome c2) as [e2|] eqn:E2.
  { split; [done|]. intros p content perm. cbn.
    rewrite !elem_of_cons, elem_of_nil. intros [?|[?|?]]; done. }
  cbn [stager logf]. fold dir. fold c3.
  destruct (outcome c3) as [e3|] eqn:E3.
  { split; [done|]. intros p content perm. cbn.
    rewrite !elem_of_cons, elem_of_nil. intros [?|[?|[?|?]]]; done. }
  cbn [stager logf]. fold dir. fold path.
  destruct (ReadFile path) as [txt|err] eqn:ER.
  - split.
    + intros txt' _ _ _ [= <-]. done.
    + intros p content perm. cbn. rewrite !elem_of_cons, elem_of_nil.
      intros [?|[?|[?|[[= -> -> ->]|?]]]]; try done.
      repeat split; try done. by exists txt.
  - split; [done|]. intros p content perm. cbn.
    rewrite !elem_of_cons, elem_of_nil. intros [?|[?|[?|?]]]; done.
Qed.

Lemma apachectl_written_after_install_witness :
  let J := fun l => strings.Join l "/" in
  let outcome := fun _ : Call => None : option error in
  let ReadFile := fun _ : string => inl "HTTPD='/app/httpd/bin/httpd'" : string + error in
  (InstallHTTPD J outcome ReadFile (sampleSupplier true ∅ ∅)).2 = None.
Proof.
  intros J outcome ReadFile.
  destruct (apachectl_written_after_install J outcome ReadFile
              (sampleSupplier true ∅ ∅)) as [H _].
  destruct (H "HTTPD='/app/httpd/bin/httpd'") as [_ He]; [reflexivity..|].
  exact He.
Defined.

(** X20. The two replacements turn the line that sets [HTTPD] to the
    single-quoted [/app/httpd/bin/httpd] into the double-quoted path under
    [$DEPS_DIR/<idx>/httpd/], leaving the text around it (here free of [H]
    and [/]) as it is. *)
Theorem rewriteApachectl_httpd_line (idx pre post : string) :
  without "H" pre = true -> without "/" pre = true ->
  without "H" post = true -> without "/" post = true ->
  rewriteApachectl idx (pre +:+ "HTTPD='/app/httpd/bin/httpd'" +:+ post) =
  pre +:+ "HTTPD=" +:+ dq +:+ "$DEPS_DIR/" +:+ idx +:+ "/httpd/bin/httpd" +:+ dq
  +:+ post.
Proof.
  intros H1 H2 H3 H4. unfold rewriteApachectl, strings.Replace.
  rewrite (replace_scan_text "H"%char) by done.
  cbn [strings.replace_scan strings.HasPrefix String.append String.length
       Ascii.eqb Bool.eqb Nat.sub].
  rewrite (replace_scan_text_end "H"%char) by done.
  rewrite !append_assoc.
  rewrite (replace_scan_text "/"%char) by done.
  unfold dq, Sprintf.
  cbn [strings.replace_scan strings.HasPrefix String.append String.length
       Ascii.eqb Bool.eqb Nat.sub sprintf_scan printVerb extraArgs
       ascii_of_nat ascii_of_pos Pos.of_succ_nat Pos.succ shift].
  rewrite (replace_scan_text_end "/"%char) by done.
  flatten_strings.
Qed.

Lemma rewriteApachectl_httpd_line_witness :
  rewriteApachectl "0" ("# set " +:+ "HTTPD='/app/httpd/bin/httpd'" +:+ " # done") =
  "# set " +:+ "HTTPD=" +:+ dq +:+ "$DEPS_DIR/" +:+ "0" +:+ "/httpd/bin/httpd" +:+ dq
  +:+ " # done".
Proof.
  by apply (rewriteApachectl_httpd_line "0" "# set " " # done").
Defined.

(** X21. An apachectl that does not mention [/app/httpd/] is written back
    unchanged. *)
Theorem rewriteApachectl_without_app_path (idx txt : string) :
  Contains txt "/app/httpd/" = false -> rewriteApachectl idx txt = txt.
Proof.
  intros H. unfold rewriteApachectl, strings.Replace.
  assert (H1 : Contains txt "HTTPD='/app/httpd/bin/httpd'" = false).
  { destruct (Contains txt "HTTPD='/app/httpd/bin/httpd'") eqn:E; [|done].
    assert (Contains txt "/app/httpd/bin/httpd'" = true)
      by (by apply (Contains_suffix "HTTPD='")).
    assert (Hc : forall u, strings.HasPrefix u "/app/httpd/bin/httpd'" = true ->
                           strings.HasPrefix u "/app/httpd/" = true).
    { intros u Hu. simpl in *.
      repeat (destruct u as [|? u]; [done|];
              match goal with
              | H : (if ?b then _ else false) = true |- _ =>
                  destruct b; [|done]
              end).
      done. }
    exfalso. revert H H0. clear -Hc.
    induction txt as [|c txt IH]; cbn [Contains]; intros Hno Hyes.
    - apply orb_false_iff in Hno as [Hno _].
      apply orb_true_iff in Hyes as [Hyes|]; [|done].
      by rewrite (Hc _ Hyes) in Hno.
    - apply orb_false_iff in Hno as [Hno Hno'].
      apply orb_true_iff in Hyes as [Hyes|Hyes].
      + by rewrite (Hc _ Hyes) in Hno.
      + by apply IH. }
  rewrite (replace_scan_absent _ _ _ H1).
  by apply replace_scan_absent.
Qed.

Lemma rewriteApachectl_without_app_path_witness :
  rewriteApachectl "0" "HTTPD='/usr/sbin/httpd'" = "HTTPD='/usr/sbin/httpd'".
Proof. by apply (rewriteApachectl_without_app_path "0"). Defined.

(** ** [ReadConfig] *)

Section ConfigFacts.

Variable J : list string -> string.
Variable Getenv : string -> string.
Variable FileExists : string -> bool + error.
Variable IsNotExist : error -> bool.
Variable JSONLoad : string -> gmap string json -> gmap string json * option error.

Lemma loadComposer_facts (s : Supplier) (c : ComposerFields) :
  let r := loadComposer IsNotExist JSONLoad s c in
  r.1.2 = c /\ OptionsJson r.1.1 = OptionsJson s /\ WebDir r.1.1 = WebDir s /\
  stager r.1.1 = stager s /\
  (forall e, r.2 = Some e ->
     exists path m obj, JSONLoad path m = (obj, Some e) /\ IsNotExist e = false).
Proof.
  unfold loadComposer.
  destruct (bool_decide (ComposerPath c <> "")); [|by repeat split].
  destruct (JSONLoad (ComposerPath c) (ComposerJson s)) as [obj [e|]] eqn:EL;
    [|by repeat split].
  destruct (IsNotExist e) eqn:EN; simpl; repeat split; try done.
  intros e' [= <-]. eauto.
Qed.

Lemma findComposer_facts (s : Supplier) (c : ComposerFields) :
  let r := findComposer J Getenv FileExists IsNotExist JSONLoad s c in
  OptionsJson r.1.1 = OptionsJson s /\
  WebDir r.1.1 = match as_string (OptionsJson s !! "WEBDIR") with
                 | Some val => val
                 | None => ""
                 end /\
  (forall e, r.2 = Some e ->
     (exists path m obj, JSONLoad path m = (obj, Some e) /\ IsNotExist e = false) \/
     (exists path, FileExists path = inr e)).
Proof.
  unfold findComposer.
  repeat match goal with
         | |- context [match FileExists ?p with _ => _ end] =>
             destruct (FileExists p) as [[|]|?] eqn:?
         | |- context [if bool_decide ?P then _ else _] =>
             destruct (bool_decide P)
         end;
    try match goal with
        | |- context [loadComposer _ _ ?s' ?c'] =>
            destruct (loadComposer_facts s' c') as (_ & -> & -> & _ & He)
        end;
    repeat split; try done;
    try (intros e' He'; left; by apply He);
    intros e' [= <-]; right; by eauto.
Qed.

(** X22. [ReadConfig] fails only with an error of [FileExists] or with
    the error of a JSON load that is not a not-exist error: a missing
    options.json or composer.json never makes it fail. *)
Theorem ReadConfig_error_provenance (s : Supplier) (c : ComposerFields) (e : error) :
  (ReadConfig J Getenv FileExists IsNotExist JSONLoad s c).2 = Some e ->
  (exists path m obj, JSONLoad path m = (obj, Some e) /\ IsNotExist e = false) \/
  (exists path, FileExists path = inr e).
Proof.
  unfold ReadConfig.
  destruct (JSONLoad (J [BuildDir (stager s); ".bp-config"; "options.json"])
              (OptionsJson s)) as [obj [e0|]] eqn:EL.
  - destruct (IsNotExist e0) eqn:EN; simpl.
    + match goal with
      | |- context [findComposer _ _ _ _ _ ?s' ?c'] =>
          destruct (findComposer_facts s' c') as (_ & _ & He)
      end. apply He.
    + intros [= <-]. left. eauto.
  - match goal with
    | |- context [findComposer _ _ _ _ _ ?s' ?c'] =>
        destruct (findComposer_facts s' c') as (_ & _ & He)
    end. apply He.
Qed.

(** X23. When [ReadConfig] succeeds, [WebDir] is the [WEBDIR] string of
    the options it leaves in [OptionsJson], and the empty string when
    there is no such string: no earlier value of [WebDir] survives. *)
Theorem ReadConfig_WebDir (s : Supplier) (c : ComposerFields) :
  let r := ReadConfig J Getenv FileExists IsNotExist JSONLoad s c in
  r.2 = None ->
  WebDir r.1.1 = match as_string (OptionsJson r.1.1 !! "WEBDIR") with
                 | Some val => val
                 | None => ""
                 end.
Proof.
  unfold ReadConfig.
  destruct (JSONLoad (J [BuildDir (stager s); ".bp-config"; "options.json"])
              (OptionsJson s)) as [obj [e0|]] eqn:EL.
  - destruct (IsNotExist e0) eqn:EN; simpl; [|done].
    match goal with
    | |- context [findComposer _ _ _ _ _ ?s' ?c'] =>
        destruct (findComposer_facts s' c') as (-> & -> & _)
    end. done.
  - match goal with
    | |- context [findComposer _ _ _ _ _ ?s' ?c'] =>
        destruct (findComposer_facts s' c') as (-> & -> & _)
    end. done.
Qed.

(** X24. A composer.json under [COMPOSER_PATH] takes precedence over one
    in the build directory: when the options load is not fatal, the
    variable is set and the file under it exists, [ComposerPath] is that
    file and [ComposerJson] is loaded from it, whether or not the build
    directory has a composer.json of its own. *)
Theorem composer_path_env_precedence (s : Supplier) (c : ComposerFields)
    (obj : gmap string json) (oerr : option error) (found : bool) :
  let build := BuildDir (stager s) in
  let envPath := J [build; Getenv "COMPOSER_PATH"; "composer.json"] in
  JSONLoad (J [build; ".bp-config"; "options.json"]) (OptionsJson s) = (obj, oerr) ->
  (forall e, oerr = Some e -> IsNotExist e = true) ->
  FileExists (J [build; "composer.json"]) = inl found ->
  Getenv "COMPOSER_PATH" <> "" ->
  FileExists envPath = inl true ->
  envPath <> "" ->
  let r := ReadConfig J Getenv FileExists IsNotExist JSONLoad s c in
  ComposerPath r.1.2 = envPath /\
  ComposerJson r.1.1 = (JSONLoad envPath (ComposerJson s)).1.
Proof.
  intros build envPath HL Hoerr HF1 Henv HF2 Hne.
  assert (Hload : forall s' c',
    ComposerPath c' = envPath -> ComposerJson s' = ComposerJson s ->
    let r := loadComposer IsNotExist JSONLoad s' c' in
    ComposerPath r.1.2 = envPath /\
    ComposerJson r.1.1 = (JSONLoad envPath (ComposerJson s)).1).
  { intros s' c' Hc Hs. unfold loadComposer. rewrite Hc, Hs.
    rewrite (bool_decide_eq_true_2 _ Hne).
    destruct (JSONLoad envPath (ComposerJson s)) as [o [e|]]; [|done].
    by destruct (IsNotExist e). }
  assert (Hfind : forall s',
    stager s' = stager s -> ComposerJson s' = ComposerJson s ->
    let r := findComposer J Getenv FileExists IsNotExist JSONLoad s' c in
    ComposerPath r.1.2 = envPath /\
    ComposerJson r.1.1 = (JSONLoad envPath (ComposerJson s)).1).
  { intros s' Hst Hcj. unfold findComposer. cbn [stager set_WebDir].
    rewrite Hst. fold build. rewrite HF1.
    rewrite (bool_decide_eq_true_2 _ Henv).
    destruct found; cbn [stager logf set_WebDir]; rewrite Hst; fold build;
      fold envPath; rewrite HF2; by apply Hload. }
  unfold ReadConfig. fold build. rewrite HL.
  destruct oerr as [e|].
  - rewrite (Hoerr e eq_refl). simpl. by apply Hfind.
  - by apply Hfind.
Qed.

End ConfigFacts.

Lemma composer_path_env_precedence_witness :
  let J := fun l => strings.Join l "/" in
  let Getenv := fun k => if bool_decide (k = "COMPOSER_PATH") then "site" else "" in
  let FileExists := fun _ : string => inl true : bool + error in
  let IsNotExist := fun _ : error => true in
  let JSONLoad := fun (path : string) (m : gmap string json) =>
    if bool_decide (path = "/tmp/app/site/composer.json")
    then ({[ "require" := JObject sampleRequire ]}, None)
    else (m, Some "no such file") in
  let r := ReadConfig J Getenv FileExists IsNotExist JSONLoad (sampleSupplier true ∅ ∅)
             {| ComposerPath := ""; ComposerGithubToken := "" |} in
  ComposerPath r.1.2 = "/tmp/app/site/composer.json" /\
  ComposerJson r.1.1 = {[ "require" := JObject sampleRequire ]}.
Proof.
  intros J Getenv FileExists IsNotExist JSONLoad.
  apply (composer_path_env_precedence J Getenv FileExists IsNotExist JSONLoad
           (sampleSupplier true ∅ ∅) {| ComposerPath := ""; ComposerGithubToken := "" |}
           ∅ (Some "no such file") true); try reflexivity; try done.
Defined.

Lemma ReadConfig_error_provenance_witness :
  let J := fun l => strings.Join l "/" in
  let Getenv := fun _ : string => "" in
  let FileExists := fun _ : string => inl false : bool + error in
  let IsNotExist := fun _ : error => false in
  let JSONLoad := fun (_ : string) (m : gmap string json) =>
    (m, Some "unexpected end of JSON input") in
  (ReadConfig J Getenv FileExists IsNotExist JSONLoad (sampleSupplier true ∅ ∅)
     {| ComposerPath := ""; ComposerGithubToken := "" |}).2
    = Some "unexpected end of JSON input" /\
  ((exists path m obj, JSONLoad path m = (obj, Some "unexpected end of JSON input") /\
                       IsNotExist "unexpected end of JSON input" = false) \/
   (exists path, FileExists path = inr "unexpected end of JSON input")).
Proof.
  intros J Getenv FileExists IsNotExist JSONLoad.
  assert (H : (ReadConfig J Getenv FileExists IsNotExist JSONLoad
                 (sampleSupplier true ∅ ∅)
                 {| ComposerPath := ""; ComposerGithubToken := "" |}).2
              = Some "unexpected end of JSON input") by reflexivity.
  split; [exact H|].
  exact (ReadConfig_error_provenance J Getenv FileExists IsNotExist JSONLoad _ _ _ H).
Defined.

Lemma ReadConfig_WebDir_witness :
  let J := fun l => strings.Join l "/" in
  let Getenv := fun _ : string => "" in
  let FileExists := fun _ : string => inl false : bool + error in
  let IsNotExist := fun _ : error => true in
  let JSONLoad := fun (_ : string) (_ : gmap string json) =>
    ({[ "WEBDIR" := JString "public" ]} : gmap string json, None : option error) in
  let r := ReadConfig J Getenv FileExists IsNotExist JSONLoad (sampleSupplier true ∅ ∅)
             {| ComposerPath := ""; ComposerGithubToken := "" |} in
  r.2 = None /\ WebDir r.1.1 = "public".
Proof.
  intros J Getenv FileExists IsNotExist JSONLoad r.
  assert (H : r.2 = None) by reflexivity.
  split; [exact H|].
  exact (ReadConfig_WebDir J Getenv FileExists IsNotExist JSONLoad _ _ H).
Defined.

(** ** [RunComposer] *)

Section ComposerFacts.

Variable J : list string -> string.
Variable outcome : Call -> option error.
Variable Environ : list string.
Variable HttpGet : string -> string -> error + (error + gmap string json).

(** X25. A GitHub token counts as valid exactly when the request
    succeeded, its body decoded, and the decoded object has the key
    [resources]; the token is sent as the [Authorization] header
    [token <token>]. *)
Theorem token_valid_iff_resources (token : string) (s : Supplier) :
  (isComposerTokenValid HttpGet token s).2 = true <->
  exists hash,
    HttpGet "https://api.github.com/rate_limit" ("token " +:+ token)
      = inr (inr hash) /\
    is_Some (hash !! "resources").
Proof.
  unfold isComposerTokenValid.
  destruct (HttpGet _ _) as [e|[e|hash]]; simpl.
  - split; [done|]. by intros (? & ? & _).
  - split; [done|]. by intros (? & ? & _).
  - rewrite bool_decide_eq_true. split.
    + intros H. by exists hash.
    + by intros (hash' & [= <-] & H).
Qed.

(** The install command of [RunComposer]. *)
Lemma composerInstall_call (s : Supplier) (c : ComposerFields) :
  exists cmd,
    composerInstall J outcome Environ s c = (s, [CallRun cmd], outcome (CallRun cmd)) /\
    Args cmd = ["php"; J [DepDir (stager s); "bin"; "composer"];
                "install"; "--no-progress"; "--no-dev"] /\
    Env cmd = composerEnv Environ s c /\ Dir cmd = BuildDir (stager s).
Proof. eexists. by repeat split. Qed.

Lemma composerEnv_stager (s1 s2 : Supplier) (c : ComposerFields) :
  stager s1 = stager s2 -> composerEnv Environ s1 c = composerEnv Environ s2 c.
Proof. intros H. unfold composerEnv. by rewrite H. Qed.

Lemma composerInstall_stager (s1 s2 : Supplier) (c : ComposerFields) :
  stager s1 = stager s2 ->
  composerInstall J outcome Environ s1 c =
  let cmd := {| Args := ["php"; J [DepDir (stager s2); "bin"; "composer"];
                         "install"; "--no-progress"; "--no-dev"];
                Env := composerEnv Environ s2 c;
                Dir := BuildDir (stager s2); Indented := true |} in
  (s1, [CallRun cmd], outcome (CallRun cmd)).
Proof.
  intros H. unfold composerInstall.
  by rewrite (composerEnv_stager s1 s2 c H), H.
Qed.

(** X26. The token never decides whether [composer install] runs, except
    through the config command: without a token, or with a token that is
    not valid, [RunComposer] runs the install command alone and returns
    its result; with a valid token it first runs [composer config] with
    the token, and runs the install only if that command succeeded. *)
Theorem RunComposer_token_handling (s : Supplier) (c : ComposerFields) :
  let composer := J [DepDir (stager s); "bin"; "composer"] in
  let install := CallRun {| Args := ["php"; composer; "install";
                                     "--no-progress"; "--no-dev"];
                            Env := composerEnv Environ s c;
                            Dir := BuildDir (stager s); Indented := true |} in
  let config := CallRun {| Args := ["php"; composer; "config"; "-g";
                                    "github-oauth.github.com";
                                    ComposerGithubToken c];
                           Env := composerEnv Environ s c;
                           Dir := BuildDir (stager s); Indented := false |} in
  let r := RunComposer J outcome Environ HttpGet s c in
  let valid := (isComposerTokenValid HttpGet (ComposerGithubToken c)
                  (logf LBeginStep "Running composer" [] s)).2 in
  (ComposerGithubToken c = "" \/ valid = false ->
     r.1.2 = [install] /\ r.2 = outcome install) /\
  (ComposerGithubToken c <> "" -> valid = true ->
     (forall err, outcome config = Some err ->
        r.1.2 = [config] /\ r.2 = Some err) /\
     (outcome config = None ->
        r.1.2 = [config; install] /\ r.2 = outcome install)).
Proof.
  intros composer install config r valid. subst composer install config r.
  unfold RunComposer.
  destruct (bool_decide_reflect (ComposerGithubToken c <> "")) as [Ht|Ht].
  - fold valid.
    destruct (isComposerTokenValid HttpGet (ComposerGithubToken c)
                (logf LBeginStep "Running composer" [] s)) as [s' v] eqn:Ev.
    assert (Hst : stager s' = stager s).
    { revert Ev. unfold isComposerTokenValid.
      destruct (HttpGet _ _) as [e|[e|hash]]; by intros [= <- _]. }
    simpl in valid. subst valid.
    destruct v.
    + unfold andThen.
      rewrite (composerInstall_stager _ s c) by done.
      rewrite (composerEnv_stager _ s c) by done.
      cbn [stager logf]. rewrite Hst.
      split; [intros [?|?]; done|]. intros _ _.
      match goal with
      | |- context [match outcome ?c with _ => _ end] =>
          destruct (outcome c) as [err|]
      end.
      * split; [|done]. by intros err' [= <-].
      * split; [done|]. done.
    + rewrite (composerInstall_stager _ s c) by done.
      split; [done|]. done.
  - assert (ComposerGithubToken c = "") as Hempty
      by (destruct (decide (ComposerGithubToken c = "")); done).
    rewrite (composerInstall_stager _ s c) by done.
    split; [|done]. intros _. done.
Qed.

(** X27. Both commands of [RunComposer] get the process environment
    followed by the interaction, cache, vendor, bin, [PHPRC] and [TMPDIR]
    settings, and by [COMPOSER=<path>] exactly when a composer.json was
    found; they run in the build directory. *)
Theorem composer_commands_environment (s : Supplier) (c : ComposerFields)
    (cmd : Cmd) :
  CallRun cmd ∈ (RunComposer J outcome Environ HttpGet s c).1.2 ->
  Dir cmd = BuildDir (stager s) /\
  Env cmd =
    Environ ++
    ["COMPOSER_NO_INTERACTION=1";
     "COMPOSER_CACHE_DIR=" +:+ CacheDir (stager s) +:+ "/composer";
     "COMPOSER_VENDOR_DIR=" +:+ BuildDir (stager s) +:+ "/vendor";
     "COMPOSER_BIN_DIR=" +:+ DepDir (stager s) +:+ "/php/bin";
     "PHPRC=/tmp/php_etc/php/etc";
     "TMPDIR=/tmp"] ++
    (if bool_decide (ComposerPath c <> "")
     then ["COMPOSER=" +:+ ComposerPath c] else []).
Proof.
  intros Hin.
  assert (Henv : composerEnv Environ s c =
    Environ ++
    ["COMPOSER_NO_INTERACTION=1";
     "COMPOSER_CACHE_DIR=" +:+ CacheDir (stager s) +:+ "/composer";
     "COMPOSER_VENDOR_DIR=" +:+ BuildDir (stager s) +:+ "/vendor";
     "COMPOSER_BIN_DIR=" +:+ DepDir (stager s) +:+ "/php/bin";
     "PHPRC=/tmp/php_etc/php/etc";
     "TMPDIR=/tmp"] ++
    (if bool_decide (ComposerPath c <> "")
     then ["COMPOSER=" +:+ ComposerPath c] else [])).
  { unfold composerEnv. cbv zeta.
    destruct (bool_decide (ComposerPath c <> ""));
      rewrite <- ?app_assoc, ?app_nil_r; reflexivity. }
  rewrite <- Henv. clear Henv. revert Hin. unfold RunComposer.
  destruct (bool_decide (ComposerGithubToken c <> "")).
  - destruct (isComposerTokenValid HttpGet (ComposerGithubToken c)
                (logf LBeginStep "Running composer" [] s)) as [s' v] eqn:Ev.
    assert (Hst : stager s' = stager s).
    { revert Ev. unfold isComposerTokenValid.
      destruct (HttpGet _ _) as [e|[e|hash]]; by intros [= <- _]. }
    destruct v.
    + unfold andThen.
      rewrite (composerInstall_stager _ s c) by done.
      rewrite (composerEnv_stager _ s c) by done.
      cbn [stager logf]. rewrite Hst.
      match goal with
      | |- context [match outcome ?c with _ => _ end] => destruct (outcome c)
      end; simpl; rewrite !elem_of_cons, elem_of_nil.
      * intros [H|[]]. by injection H as ->.
      * intros [H|[H|[]]]; by injection H as ->.
    + rewrite (composerInstall_stager _ s c) by done. simpl.
      intros H. apply list_elem_of_singleton in H. by injection H as ->.
  - rewrite (composerInstall_stager _ s c) by done. simpl.
    intros H. apply list_elem_of_singleton in H. by injection H as ->.
Qed.

End ComposerFacts.

Lemma RunComposer_token_handling_witness :
  let J := fun l => strings.Join l "/" in
  let outcome := fun _ : Call => None : option error in
  let HttpGet := fun (_ _ : string) =>
    inr (inr {[ "resources" := JObject ∅ ]}) : error + (error + gmap string json) in
  let s := sampleSupplier true ∅ ∅ in
  let c := {| ComposerPath := "/tmp/app/composer.json"; ComposerGithubToken := "t0ken" |} in
  map Args
    (omap (fun call => match call with CallRun cmd => Some cmd | _ => None end)
       (RunComposer J outcome ["PATH=/bin"] HttpGet s c).1.2)
  = [["php"; "/tmp/deps/0/bin/composer"; "config"; "-g"; "github-oauth.github.com";
      "t0ken"];
     ["php"; "/tmp/deps/0/bin/composer"; "install"; "--no-progress"; "--no-dev"]].
Proof.
  intros J outcome HttpGet s c.
  destruct (RunComposer_token_handling J outcome ["PATH=/bin"] HttpGet s c) as [_ H].
  destruct H as [_ H]; [done|reflexivity|].
  destruct (H eq_refl) as [-> _]. reflexivity.
Defined.

Lemma composer_commands_environment_witness :
  let J := fun l => strings.Join l "/" in
  let outcome := fun _ : Call => None : option error in
  let HttpGet := fun (_ _ : string) =>
    inl "offline" : error + (error + gmap string json) in
  let s := sampleSupplier true ∅ ∅ in
  let c := {| ComposerPath := "/tmp/app/composer.json"; ComposerGithubToken := "" |} in
  let cmd := {| Args := ["php"; "/tmp/deps/0/bin/composer"; "install";
                         "--no-progress"; "--no-dev"];
                Env := composerEnv ["PATH=/bin"] s c;
                Dir := "/tmp/app"; Indented := true |} in
  CallRun cmd ∈ (RunComposer J outcome ["PATH=/bin"] HttpGet s c).1.2 /\
  Env cmd =
    ["PATH=/bin"; "COMPOSER_NO_INTERACTION=1"; "COMPOSER_CACHE_DIR=/tmp/cache/composer";
     "COMPOSER_VENDOR_DIR=/tmp/app/vendor"; "COMPOSER_BIN_DIR=/tmp/deps/0/php/bin";
     "PHPRC=/tmp/php_etc/php/etc"; "TMPDIR=/tmp";
     "COMPOSER=/tmp/app/composer.json"].
Proof.
  intros J outcome HttpGet s c cmd.
  assert (Hin : elem_of (CallRun cmd)
                   (snd (fst (RunComposer J outcome ["PATH=/bin"] HttpGet s c)))).
  { apply list_elem_of_singleton. reflexivity. }
  split; [exact Hin|].
  exact (proj2 (composer_commands_environment J outcome ["PATH=/bin"] HttpGet s c cmd Hin)).
Defined.

(** ** [WriteConfigFiles]: the walks *)

Section Traces.

Variable I : Supplier -> Prop.
Variable Q : option error -> Prop.
Variable T : list Call -> Prop.
Hypothesis Q_ok : Q None.
Hypothesis T_nil : T [].
Hypothesis T_app : forall a b, T a -> T b -> T (a ++ b).

Lemma traced_ret (s : Supplier) (e : option error) :
  I s -> traced I Q T (s, [], e).
Proof. by split. Qed.

Lemma traced_andThen (r : Step) (k : Supplier -> Step) :
  traced I Q T r -> (forall s, I s -> traced I Q T (k s)) ->
  traced I Q T (andThen r k).
Proof.
  destruct r as [[s cs] [e|]]; simpl; intros [Hi Hr] Hk; [done|].
  specialize (Hk s Hi). destruct (k s) as [[s2 cs2] e2].
  destruct Hk as [Hi2 Hk]. split; [done|].
  intros H. apply T_app; [by apply Hr|by apply Hk].
Qed.

Lemma traced_rangeSteps {V} (m : gmap string V) (order : list string)
    (body : string -> V -> Supplier -> Step) :
  (forall k v s, I s -> m !! k = Some v -> traced I Q T (body k v s)) ->
  forall s, I s -> traced I Q T (rangeSteps m order body s).
Proof.
  intros Hbody. induction order as [|k order IH]; intros s Hs; simpl;
    [by apply traced_ret|].
  destruct (m !! k) eqn:Hk; [|by apply IH].
  apply traced_andThen; [by apply Hbody|apply IH].
Qed.

Lemma traced_walkSteps (entries : list (string * bool))
    (fn : string * bool -> Supplier -> Step) :
  (forall entry s, I s -> entry ∈ entries -> traced I Q T (fn entry s)) ->
  forall s, I s -> traced I Q T (walkSteps entries fn s).
Proof.
  induction entries as [|entry entries IH]; intros Hfn s Hs; simpl;
    [by apply traced_ret|].
  apply traced_andThen.
  - apply Hfn; [done|]. apply elem_of_cons. by left.
  - apply IH. intros e s1 H1 He. apply Hfn; [done|]. apply elem_of_cons. by right.
Qed.

Lemma traced_walk (w : Walk) (fn : string * bool -> Supplier -> Step) :
  (forall entry s, I s -> entry ∈ w.1 -> traced I Q T (fn entry s)) ->
  forall s, I s -> traced I Q T (walk w fn s).
Proof.
  intros Hfn s Hs. unfold walk. apply traced_andThen.
  - by apply traced_walkSteps.
  - intros s1 H1. by apply traced_ret.
Qed.

End Traces.

Lemma walkSteps_app (a b : list (string * bool))
    (fn : string * bool -> Supplier -> Step) (s : Supplier) :
  walkSteps (a ++ b) fn s = andThen (walkSteps a fn s) (walkSteps b fn).
Proof.
  revert s. induction a as [|entry a IH]; intros s; simpl.
  - destruct (walkSteps b fn s) as [[s1 cs] e]. done.
  - destruct (fn entry s) as [[s1 cs] [e|]]; simpl; [done|].
    rewrite IH. destruct (walkSteps a fn s1) as [[s2 cs2] [e2|]]; simpl; [done|].
    destruct (walkSteps b fn s2) as [[s3 cs3] e3]. by rewrite app_assoc.
Qed.

Lemma renderedFiles_app (a b : list Call) (fs : gmap string string) :
  renderedFiles (a ++ b) fs = renderedFiles b (renderedFiles a fs).
Proof. apply foldl_app. Qed.

Lemma Execute_in_renderings (l : list (string * string * string)) path content :
  CallExecute path content ∈ l ≫= renderCalls ->
  exists dir, (dir, path, content) ∈ l.
Proof.
  intros H. apply list_elem_of_bind in H as ([[dir file] text] & Hin & Hl).
  simpl in Hin. rewrite !elem_of_cons, elem_of_nil in Hin.
  destruct Hin as [?|[?|[[= -> ->]|[]]]]; try done. by exists dir.
Qed.

(** After a sequence of renderings, a file rendered among them holds a
    text rendered among them, whatever was there before. *)
Lemma renderedFiles_renderings (l : list (string * string * string))
    (fs : gmap string string) dir path content :
  (dir, path, content) ∈ l ->
  exists dir' content',
    (dir', path, content') ∈ l /\
    renderedFiles (l ≫= renderCalls) fs !! path = Some content'.
Proof.
  revert dir content. induction l as [|[[d f] c] l IH] using rev_ind; intros dir content Hin.
  - by apply elem_of_nil in Hin.
  - rewrite bind_app, renderedFiles_app. simpl.
    destruct (decide (f = path)) as [->|Hne].
    + exists d, c. split; [apply elem_of_app; right; by apply list_elem_of_singleton|].
      by rewrite lookup_insert_eq.
    + apply elem_of_app in Hin as [Hin|Hin].
      * destruct (IH _ _ Hin) as (d' & c' & Hin' & Hl).
        exists d', c'. split; [apply elem_of_app; by left|].
        by rewrite !lookup_insert_ne.
      * apply list_elem_of_singleton in Hin. by injection Hin as -> -> ->.
Qed.

Lemma andThen_skip (r : Step) (k : Supplier -> Step) :
  k r.1.1 = (r.1.1, [], None) -> andThen r k = r.
Proof.
  destruct r as [[s cs] [e|]]; simpl; [done|]. intros ->. by rewrite app_nil_r.
Qed.

Lemma rangeSteps_skip {V} (m : gmap string V) (order : list string)
    (body : string -> V -> Supplier -> Step) (s : Supplier) :
  (forall k v s, m !! k = Some v -> body k v s = (s, [], None)) ->
  rangeSteps m order body s = (s, [], None).
Proof.
  intros H. induction order as [|k order IH]; simpl; [done|].
  destruct (m !! k) eqn:E; [|done]. rewrite (H _ _ _ E). simpl. by rewrite IH.
Qed.

Section WalkFacts.

Variable Template : Type.
Variable template_Parse : string -> string -> Template + error.
Variable template_Execute : Template -> gmap string string -> string * option error.
Variable J : list string -> string.
Variable Rel : string -> string -> string + error.
Variable Dir' : string -> string.
Variable outcome : Call -> option error.
Variable FileExists : string -> bool + error.
Variable ReadFile : string -> string + error.
Variable boxBytes : string -> string + error.
Variable boxWalk : string -> Walk.
Variable dirWalk : string -> Walk.
Variable rootsOrder : string -> list string.

Lemma renderInto_supplier (t : Template) (dest destFile basedir : string)
    (ctx : gmap string string) (s : Supplier) :
  (renderInto Template template_Execute J Dir' outcome t dest destFile basedir ctx s).1.1
  = s.
Proof.
  unfold renderInto, call, andThen. cbv zeta.
  destruct (outcome (CallMkdirAll _ _)); [done|].
  destruct (outcome (CallCreate _)); [done|].
  destruct (template_Execute t ctx) as [text err].
  by destruct (outcome (CallExecute _ _)).
Qed.

Section Handler.

Variable I : Supplier -> Prop.
Variable Q : option error -> Prop.
Variable T : list Call -> Prop.
Hypothesis Q_ok : Q None.
Hypothesis T_nil : T [].
Hypothesis T_app : forall a b, T a -> T b -> T (a ++ b).
Hypothesis I_logf : forall l f a s, I s -> I (logf l f a s).

Lemma traced_handleEntry src dest readAll run stage entry (s : Supplier) :
  I s ->
  (forall path destFile bytes t basedir ctx s1,
     I s1 -> entry = (path, false) ->
     Rel src path = inl destFile ->
     readAll (J [src; destFile]) = inl bytes ->
     template_Parse (J [src; destFile]) (rewriteLegacy bytes) = inl t ->
     renderRoots s run stage !! basedir = Some ctx ->
     traced I Q T (renderInto Template template_Execute J Dir' outcome
                     t dest destFile basedir ctx s1)) ->
  traced I Q T (handleEntry Template template_Parse template_Execute J Rel Dir'
                  outcome rootsOrder src dest readAll run stage entry s).
Proof.
  intros Hs Hr. unfold handleEntry. destruct entry as [path [|]];
    [by apply traced_ret|].
  destruct (Rel src path) as [destFile|err] eqn:HRel;
    [|by apply traced_ret, I_logf].
  destruct (readAll _) as [bytes|err] eqn:Hread; [|by apply traced_ret, I_logf].
  destruct (template_Parse _ _) as [t|err] eqn:Ht; [|by apply traced_ret, I_logf].
  apply traced_rangeSteps; try done; [|by apply I_logf].
  intros basedir ctx s1 H1 Hl. by apply Hr with path bytes.
Qed.

(** The facts a rendering of the second loop comes with. *)
Lemma traced_userPhase run stage userOrder (s : Supplier) :
  I s ->
  (forall s1, I s1 -> renderRoots s1 run stage = renderRoots s run stage) ->
  (forall src dest path destFile bytes t basedir ctx s1,
     I s1 ->
     overrideTrees J s !! src = Some dest ->
     FileExists src = inl true ->
     (path, false) ∈ (dirWalk src).1 ->
     Rel src path = inl destFile ->
     ReadFile (J [src; destFile]) = inl bytes ->
     template_Parse (J [src; destFile]) (rewriteLegacy bytes) = inl t ->
     renderRoots s run stage !! basedir = Some ctx ->
     traced I Q T (renderInto Template template_Execute J Dir' outcome
                     t dest destFile basedir ctx s1)) ->
  traced I Q T (userPhase Template template_Parse template_Execute J Rel Dir'
                  outcome FileExists ReadFile dirWalk rootsOrder
                  run stage userOrder s).
Proof.
  intros Hs Hroots Hr. unfold userPhase. apply traced_rangeSteps; try done.
  intros src dest s1 H1 Hl.
  destruct (FileExists src) as [[|]|err] eqn:Hf; try by apply traced_ret.
  apply traced_walk; try done. intros entry s2 H2 Hin.
  apply traced_handleEntry; [done|].
  intros path destFile bytes t basedir ctx s3 H3 -> HRel Hread Ht Hb.
  rewrite Hroots in Hb by done. by apply Hr with src path bytes.
Qed.

Lemma traced_boxPhase run stage boxOrder (s : Supplier) :
  I s ->
  (forall t dest destFile basedir ctx s1,
     I s1 ->
     traced I Q T (renderInto Template template_Execute J Dir' outcome
                     t dest destFile basedir ctx s1)) ->
  traced I Q T (boxPhase Template template_Parse template_Execute J Rel Dir'
                  outcome boxBytes boxWalk rootsOrder run stage boxOrder s).
Proof.
  intros Hs Hr. unfold boxPhase. apply traced_rangeSteps; try done;
    [|by apply I_logf].
  intros src dest s1 H1 Hl. apply traced_walk; try done.
  intros entry s2 H2 Hin. apply traced_handleEntry; [done|].
  intros. by apply Hr.
Qed.

Lemma traced_WriteConfigFiles phpOrder zendOrder ctxOrder boxOrder userOrder
    (s : Supplier) :
  I s ->
  (forall t dest destFile basedir ctx s1,
     I s1 ->
     traced I Q T (renderInto Template template_Execute J Dir' outcome
                     t dest destFile basedir ctx s1)) ->
  traced I Q T (WriteConfigFiles Template template_Parse template_Execute J Rel Dir'
                  outcome FileExists ReadFile boxBytes boxWalk dirWalk rootsOrder
                  phpOrder zendOrder ctxOrder boxOrder userOrder s).
Proof.
  intros Hs Hr. unfold WriteConfigFiles. cbv zeta. apply traced_andThen; try done.
  - apply traced_boxPhase; [by repeat apply I_logf|done].
  - intros s1 H1. unfold userPhase. apply traced_rangeSteps; try done.
    intros src dest s2 H2 Hl.
    destruct (FileExists src) as [[|]|err]; try by apply traced_ret.
    apply traced_walk; try done. intros entry s3 H3 Hin.
    apply traced_handleEntry; [done|]. intros. by apply Hr.
Qed.

End Handler.

(** X12. A template that does not parse is noticed before anything is
    made for it: the walk ends there with the error of the parser, having
    made the calls of the entries before it and no other, so neither root
    gets a directory or a file for it.  A template that parses and fails
    while it is executed is noticed after [os.Create]: the file of the
    first root is left with the text written so far, and the other root is
    not rendered. *)
Theorem unparsed_template_writes_nothing
    (src dest : string) (readAll : string -> string + error)
    (run stage : gmap string string)
    (before after : list (string * bool)) (werr : option error)
    (path destFile bytes : string) (s s1 : Supplier) (cs : list Call) :
  let name := J [src; destFile] in
  let fn := handleEntry Template template_Parse template_Execute J Rel Dir' outcome
              rootsOrder src dest readAll run stage in
  let logged := logf LDebug "WriteConfigFile: %s" [AString path] s1 in
  Rel src path = inl destFile ->
  readAll name = inl bytes ->
  walkSteps before fn s = (s1, cs, None) ->
  (forall err,
     template_Parse name (rewriteLegacy bytes) = inr err ->
     walk (before ++ (path, false) :: after, werr) fn s = (logged, cs, Some err)) /\
  (forall t basedir rest ctx text err,
     template_Parse name (rewriteLegacy bytes) = inl t ->
     rootsOrder name = basedir :: rest ->
     renderRoots s1 run stage !! basedir = Some ctx ->
     template_Execute t ctx = (text, Some err) ->
     let file := J [basedir; dest; destFile] in
     outcome (CallMkdirAll (Dir' file) 493) = None ->
     outcome (CallCreate file) = None ->
     outcome (CallExecute file text) = None ->
     walk (before ++ (path, false) :: after, werr) fn s =
       (logged, cs ++ renderCalls (Dir' file, file, text), Some err)).
Proof.
  intros name fn logged HRel Hread Hbefore. split.
  - intros err Ht. unfold walk. simpl fst. rewrite walkSteps_app, Hbefore.
    cbn [andThen walkSteps]. unfold fn at 1, handleEntry.
    rewrite HRel. fold name. rewrite Hread, Ht. simpl. by rewrite app_nil_r.
  - intros t basedir rest ctx text err Ht Ho Hctx He file H1 H2 H3.
    unfold walk. simpl fst. rewrite walkSteps_app, Hbefore.
    cbn [andThen walkSteps]. unfold fn at 1, handleEntry.
    rewrite HRel. fold name. rewrite Hread, Ht, Ho. cbn [rangeSteps].
    change (renderRoots (logf LDebug "WriteConfigFile: %s" [AString path] s1) run stage)
      with (renderRoots s1 run stage).
    rewrite Hctx. unfold renderInto, call. fold file.
    cbn [andThen]. rewrite H1. cbn [andThen]. rewrite H2, He. cbn [andThen].
    rewrite H3. simpl. by rewrite ?app_nil_r.
Qed.

(** When it succeeds, every call of [WriteConfigFiles] succeeded. *)
Lemma WriteConfigFiles_calls_succeeded phpOrder zendOrder ctxOrder boxOrder userOrder
    (s : Supplier) :
  traced (fun _ => True) (fun e => e = None) (Forall (fun c => outcome c = None))
    (WriteConfigFiles Template template_Parse template_Execute J Rel Dir' outcome
       FileExists ReadFile boxBytes boxWalk dirWalk rootsOrder
       phpOrder zendOrder ctxOrder boxOrder userOrder s).
Proof.
  apply traced_WriteConfigFiles; try done; [apply Forall_app_2|].
  intros t dest destFile basedir ctx s1 _. split; [done|]. intros He.
  destruct (renderInto Template template_Execute J Dir' outcome t dest destFile
              basedir ctx s1) as [[s2 cs] e] eqn:E.
  simpl in He. subst e.
  by destruct (renderInto_ok _ _ _ _ _ _ _ _ _ _ _ _ _ E) as (_ & _ & _ & ?).
Qed.

(** The suppliers of the walks differ from the one they start from in the
    log only. *)
Lemma boxPhase_stager run stage boxOrder (s : Supplier) :
  stager (boxPhase Template template_Parse template_Execute J Rel Dir' outcome
            boxBytes boxWalk rootsOrder run stage boxOrder s).1.1 = stager s.
Proof.
  apply (traced_boxPhase (fun s1 => stager s1 = stager s) (fun _ => True)
           (fun _ => True)); try done.
  intros t dest destFile basedir ctx s1 H1. split; [|done].
  by rewrite renderInto_supplier.
Qed.

(** When it succeeds, the calls of the second loop are a sequence of
    renderings of templates of the override trees. *)
Lemma userPhase_renderings run stage userOrder (s0 s : Supplier) :
  stager s = stager s0 ->
  traced (fun s1 => stager s1 = stager s0) (fun e => e = None)
    (fun cs => exists l,
       cs = l ≫= renderCalls /\
       Forall (fun '(_, file, text) =>
                 fromOverride template_Parse template_Execute J Rel FileExists
                   ReadFile dirWalk s0 run stage file text) l)
    (userPhase Template template_Parse template_Execute J Rel Dir' outcome
       FileExists ReadFile dirWalk rootsOrder run stage userOrder s).
Proof.
  intros Hs.
  assert (Htrees : overrideTrees J s = overrideTrees J s0)
    by (unfold overrideTrees; by rewrite Hs).
  apply traced_userPhase; try done.
  - by exists [].
  - intros a b (la & -> & Ha) (lb & -> & Hb). exists (la ++ lb).
    split; [by rewrite bind_app|by apply Forall_app_2].
  - intros s1 H1. unfold renderRoots. by rewrite H1, Hs.
  - intros src dest path destFile bytes t basedir ctx s1 H1 Hl Hf Hin HRel Hread
      Ht Hb.
    split; [by rewrite renderInto_supplier|]. intros He.
    destruct (renderInto Template template_Execute J Dir' outcome t dest destFile
                basedir ctx s1) as [[s2 cs] e] eqn:E.
    simpl in He. subst e.
    destruct (renderInto_ok _ _ _ _ _ _ _ _ _ _ _ _ _ E) as (_ & -> & _).
    exists [(Dir' (J [basedir; dest; destFile]), J [basedir; dest; destFile],
             (template_Execute t ctx).1)].
    split; [done|]. constructor; [|done].
    exists src, dest, path, destFile, bytes, t, basedir, ctx.
    rewrite <- Htrees. repeat split; try done.
    revert Hb. unfold renderRoots. by rewrite Hs.
Qed.

(** X28. The override trees of the application are rendered after the
    default trees, so that they win.  When [WriteConfigFiles] succeeds, its
    calls are those of the walks over the defaults followed by those of
    the walks over the overrides, every call succeeded, and every file the
    second loop executes holds at the end the rendering, in the context of
    its root, of a template that the loop found in an override tree, read
    with [ioutil.ReadFile] and rewrote - whatever the defaults had written
    there. *)
Theorem override_layer_shadows_defaults
    (phpOrder zendOrder ctxOrder boxOrder userOrder : list string)
    (s s' : Supplier) (cs : list Call) :
  let run := ctxRun phpOrder zendOrder s in
  let stage := ctxStage phpOrder zendOrder ctxOrder s in
  let s0 := logf LDebug "ZendExtensions: %s" [AString (index run "ZendExtensions")]
              (logf LDebug "PhpExtensions: %s"
                 [AString (index (ctxRun phpOrder [] s) "PhpExtensions")]
                 (logf LBeginStep "Write config files" [] s)) in
  WriteConfigFiles Template template_Parse template_Execute J Rel Dir' outcome
    FileExists ReadFile boxBytes boxWalk dirWalk rootsOrder
    phpOrder zendOrder ctxOrder boxOrder userOrder s = (s', cs, None) ->
  exists s1 boxCalls userCalls,
    boxPhase Template template_Parse template_Execute J Rel Dir' outcome
      boxBytes boxWalk rootsOrder run stage boxOrder s0 = (s1, boxCalls, None) /\
    userPhase Template template_Parse template_Execute J Rel Dir' outcome
      FileExists ReadFile dirWalk rootsOrder run stage userOrder s1
      = (s', userCalls, None) /\
    cs = boxCalls ++ userCalls /\
    Forall (fun c => outcome c = None) cs /\
    forall file text fs,
      CallExecute file text ∈ userCalls ->
      exists text',
        fromOverride template_Parse template_Execute J Rel FileExists ReadFile
          dirWalk s run stage file text' /\
        renderedFiles cs fs !! file = Some text'.
Proof.
  intros run stage s0 H.
  pose proof (WriteConfigFiles_calls_succeeded
                phpOrder zendOrder ctxOrder boxOrder userOrder s) as [_ Hok].
  rewrite H in Hok. specialize (Hok eq_refl).
  change (andThen
            (boxPhase Template template_Parse template_Execute J Rel Dir' outcome
               boxBytes boxWalk rootsOrder run stage boxOrder s0)
            (userPhase Template template_Parse template_Execute J Rel Dir' outcome
               FileExists ReadFile dirWalk rootsOrder run stage userOrder)
          = (s', cs, None)) in H.
  apply andThen_ok in H as (s1 & boxCalls & userCalls & Hbox & Huser & ->).
  exists s1, boxCalls, userCalls. repeat split; try done.
  intros file text fs Hin.
  assert (Hs1 : stager s1 = stager s).
  { change s1 with (s1, boxCalls, @None error).1.1. rewrite <- Hbox.
    by rewrite boxPhase_stager. }
  assert (Hl : exists l,
    userCalls = l ≫= renderCalls /\
    Forall (fun '(_, file, text) =>
              fromOverride template_Parse template_Execute J Rel FileExists
                ReadFile dirWalk s run stage file text) l).
  { destruct (userPhase_renderings run stage userOrder s s1 Hs1) as [_ Hl].
    rewrite Huser in Hl. by apply Hl. }
  destruct Hl as (l & -> & Hfrom).
  apply Execute_in_renderings in Hin as [dir Hin].
  destruct (renderedFiles_renderings l (renderedFiles boxCalls fs) _ _ _ Hin)
    as (dir' & text' & Hin' & Hlook).
  exists text'. split.
  - rewrite Forall_forall in Hfrom. exact (Hfrom _ Hin').
  - by rewrite renderedFiles_app.
Qed.

(** Without the two override directories the second loop does nothing. *)
Lemma userPhase_absent run stage userOrder (s : Supplier) :
  FileExists (J [BuildDir (stager s); ".bp-config"; "php"]) = inl false ->
  FileExists (J [BuildDir (stager s); ".bp-config"; "httpd"]) = inl false ->
  userPhase Template template_Parse template_Execute J Rel Dir' outcome
    FileExists ReadFile dirWalk rootsOrder run stage userOrder s = (s, [], None).
Proof.
  intros Hphp Hhttpd. unfold userPhase, overrideTrees. apply rangeSteps_skip.
  intros src dest s1 Hl.
  apply lookup_insert_Some in Hl as [[<- _]|[_ Hl]]; [by rewrite Hhttpd|].
  apply lookup_insert_Some in Hl as [[<- _]|[_ Hl]]; [by rewrite Hphp|].
  by rewrite lookup_empty in Hl.
Qed.

(** X29. The override directories are optional: when neither
    [.bp-config/php] nor [.bp-config/httpd] exists in the build directory,
    [WriteConfigFiles] is the walks over the default trees and nothing
    else, in whatever order the two override directories are visited. *)
Theorem no_override_dirs_only_defaults
    (phpOrder zendOrder ctxOrder boxOrder userOrder : list string) (s : Supplier) :
  let run := ctxRun phpOrder zendOrder s in
  let stage := ctxStage phpOrder zendOrder ctxOrder s in
  let s0 := logf LDebug "ZendExtensions: %s" [AString (index run "ZendExtensions")]
              (logf LDebug "PhpExtensions: %s"
                 [AString (index (ctxRun phpOrder [] s) "PhpExtensions")]
                 (logf LBeginStep "Write config files" [] s)) in
  FileExists (J [BuildDir (stager s); ".bp-config"; "php"]) = inl false ->
  FileExists (J [BuildDir (stager s); ".bp-config"; "httpd"]) = inl false ->
  WriteConfigFiles Template template_Parse template_Execute J Rel Dir' outcome
    FileExists ReadFile boxBytes boxWalk dirWalk rootsOrder
    phpOrder zendOrder ctxOrder boxOrder userOrder s
  = boxPhase Template template_Parse template_Execute J Rel Dir' outcome
      boxBytes boxWalk rootsOrder run stage boxOrder s0.
Proof.
  intros run stage s0 Hphp Hhttpd.
  unfold WriteConfigFiles. cbv zeta. apply andThen_skip.
  apply userPhase_absent; by rewrite boxPhase_stager.
Qed.

End WalkFacts.

Lemma unparsed_template_writes_nothing_witness :
  let fn := handleEntry (list node) sampleParse sampleExecute
              (fun l => strings.Join l "/") (fun _ _ => inl "php.ini")
              (fun p => p +:+ "/..") (fun _ => None)
              (fun _ => ["/tmp/php_etc"; "/tmp/deps/0"])
              "php/7.2.x" "php/etc" (fun _ => inl "listen = {{.PhpFpmListen")
              ∅ ∅ in
  walk ([("php/7.2.x", true); ("php/7.2.x/php.ini", false);
         ("php/7.2.x/php-fpm.conf", false)], None) fn sampleStaged
  = (logf LDebug "WriteConfigFile: %s" [AString "php/7.2.x/php.ini"] sampleStaged,
     [], Some "template: php/7.2.x/php.ini: outside the fragment").
Proof.
  intros fn.
  destruct (unparsed_template_writes_nothing (list node) sampleParse sampleExecute
              (fun l => strings.Join l "/") (fun _ _ => inl "php.ini")
              (fun p => p +:+ "/..") (fun _ => None)
              (fun _ => ["/tmp/php_etc"; "/tmp/deps/0"])
              "php/7.2.x" "php/etc" (fun _ => inl "listen = {{.PhpFpmListen")
              ∅ ∅ [("php/7.2.x", true)] [("php/7.2.x/php-fpm.conf", false)] None
              "php/7.2.x/php.ini" "php.ini" "listen = {{.PhpFpmListen"
              sampleStaged sampleStaged [] eq_refl eq_refl eq_refl) as [H _].
  exact (H "template: php/7.2.x/php.ini: outside the fragment" eq_refl).
Defined.

Lemma override_layer_shadows_defaults_witness :
  let J := sampleJoin in
  let Rel := fun _ _ : string => inl "php.ini" : string + error in
  let Dir' := fun p : string => p +:+ "/.." in
  let outcome := fun _ : Call => None : option error in
  let FileExists := fun p : string =>
    inl (bool_decide (p = "/tmp/app/.bp-config/php")) : bool + error in
  let ReadFile := fun _ : string => inl "memory_limit=1G" : string + error in
  let boxBytes := fun _ : string => inl "memory_limit=128M" : string + error in
  let rootsOrder := fun _ : string => ["/tmp/php_etc"; "/tmp/deps/0"] in
  let s := set_PhpVersion "7.2.9" sampleStaged in
  let r := WriteConfigFiles (list node) sampleParse sampleExecute J Rel Dir' outcome
             FileExists ReadFile boxBytes sampleWalk sampleWalk rootsOrder
             samplePhpOrder [] sampleCtxOrder
             ["httpd"; "php/7.2.x"] ["/tmp/app/.bp-config/php"] s in
  r.2 = None /\
  renderedFiles r.1.2 ∅ !! "/tmp/deps/0/php/etc/php.ini" = Some "memory_limit=1G".
Proof.
  intros J Rel Dir' outcome FileExists ReadFile boxBytes rootsOrder s r.
  assert (H : r = (r.1.1, r.1.2, None)) by (vm_compute; reflexivity).
  split; [by rewrite H|].
  destruct (override_layer_shadows_defaults (list node) sampleParse sampleExecute
              J Rel Dir' outcome FileExists ReadFile boxBytes sampleWalk sampleWalk
              rootsOrder samplePhpOrder [] sampleCtxOrder
              ["httpd"; "php/7.2.x"] ["/tmp/app/.bp-config/php"] s _ _ H)
    as (s1 & boxCalls & userCalls & Hbox & Huser & _ & _ & Hlast).
  destruct (Hlast "/tmp/deps/0/php/etc/php.ini" "memory_limit=1G" ∅)
    as (text' & _ & Hlook).
  { replace userCalls with (r.1.1, userCalls, @None error).1.2 by done.
    rewrite <- Huser.
    replace s1 with (s1, boxCalls, @None error).1.1 by done. rewrite <- Hbox.
    vm_compute. repeat constructor. }
  rewrite Hlook. f_equal.
  assert (Hc : renderedFiles r.1.2 ∅ !! "/tmp/deps/0/php/etc/php.ini"
               = Some "memory_limit=1G") by (vm_compute; reflexivity).
  rewrite Hlook in Hc. by injection Hc.
Defined.

Lemma no_override_dirs_only_defaults_witness :
  let J := sampleJoin in
  let Rel := fun _ _ : string => inl "php.ini" : string + error in
  let Dir' := fun p : string => p +:+ "/.." in
  let outcome := fun _ : Call => None : option error in
  let FileExists := fun _ : string => inl false : bool + error in
  let ReadFile := fun _ : string => inr "no such file" : string + error in
  let boxBytes := fun _ : string => inl "memory_limit=128M" : string + error in
  let rootsOrder := fun _ : string => ["/tmp/php_etc"; "/tmp/deps/0"] in
  length (WriteConfigFiles (list node) sampleParse sampleExecute J Rel Dir' outcome
            FileExists ReadFile boxBytes sampleWalk sampleWalk rootsOrder
            samplePhpOrder [] sampleCtxOrder
            ["httpd"; "php/7.2.x"] ["/tmp/app/.bp-config/php"]
            (set_PhpVersion "7.2.9" sampleStaged)).1.2 = 12.
Proof.
  intros J Rel Dir' outcome FileExists ReadFile boxBytes rootsOrder.
  rewrite (no_override_dirs_only_defaults (list node) sampleParse sampleExecute
             J Rel Dir' outcome FileExists ReadFile boxBytes sampleWalk sampleWalk
             rootsOrder samplePhpOrder [] sampleCtxOrder
             ["httpd"; "php/7.2.x"] ["/tmp/app/.bp-config/php"]
             (set_PhpVersion "7.2.9" sampleStaged) eq_refl eq_refl).
  vm_compute. reflexivity.
Defined.

(** ** [Run] *)

Section RunFacts.

Variable Template : Type.
Variable template_Parse : string -> string -> Template + error.
Variable template_Execute : Template -> gmap string string -> string * option error.
Variable J : list string -> string.
Variable Rel : string -> string -> string + error.
Variable Dir' : string -> string.
Variable Getenv : string -> string.
Variable Environ : list string.
Variable FileExists : string -> bool + error.
Variable ReadFile : string -> string + error.
Variable IsNotExist : error -> bool.
Variable JSONLoad : string -> gmap string json -> gmap string json * option error.
Variable F : string -> list string -> string + error.
Variable outcome : Call -> option error.
Variable HttpGet : string -> string -> error + (error + gmap string json).
Variable RootDir : string.
Variable boxBytes : string -> string + error.
Variable boxWalk : string -> Walk.
Variable dirWalk : string -> Walk.
Variable rootsOrder : string -> list string.
Variable requireOrder phpOrder zendOrder ctxOrder boxOrder userOrder : list string.

Lemma withoutComposer_ret (s : Supplier) (e : option error) :
  withoutComposer (s, [], e).
Proof. split; [done|]. intros _. constructor. Qed.

Lemma withoutComposer_call (c : Call) (s : Supplier) :
  composerCall c = false -> withoutComposer (call outcome c s).
Proof. intros H. split; [done|]. intros _. by repeat constructor. Qed.

Lemma withoutComposer_andThen (r : Step) (k : Supplier -> Step) :
  withoutComposer r -> (forall s, withoutComposer (k s)) ->
  withoutComposer (andThen r k).
Proof.
  intros Hr Hk. unfold withoutComposer.
  apply traced_andThen; [done|apply Forall_app_2|done|]. intros s _. apply Hk.
Qed.

Lemma withoutComposer_logError (fmt : string) (r : Step) :
  withoutComposer r -> withoutComposer (logError fmt r).
Proof. destruct r as [[s cs] [e|]]; simpl; done. Qed.

Lemma withoutComposer_wrapError (fmt : string) (r : Step) :
  withoutComposer r -> withoutComposer (wrapError fmt r).
Proof. destruct r as [[s cs] [e|]]; simpl; done. Qed.

Lemma withoutComposer_linkDirectories (name : string) (dirs : list string)
    (s : Supplier) :
  withoutComposer (linkDirectories J outcome name dirs s).
Proof.
  revert s. induction dirs as [|dir dirs IH]; intros s; cbn [linkDirectories];
    [apply withoutComposer_ret|].
  apply withoutComposer_andThen; [by apply withoutComposer_call|apply IH].
Qed.

Lemma withoutComposer_InstallHTTPD (s : Supplier) :
  withoutComposer (InstallHTTPD J outcome ReadFile s).
Proof.
  unfold InstallHTTPD.
  apply withoutComposer_andThen; [by apply withoutComposer_call|intros s1].
  apply withoutComposer_andThen; [apply withoutComposer_linkDirectories|intros s2].
  cbv zeta. destruct (ReadFile _);
    [by apply withoutComposer_call|apply withoutComposer_ret].
Qed.

Lemma withoutComposer_InstallPHP (s : Supplier) :
  withoutComposer (InstallPHP J outcome s).
Proof.
  unfold InstallPHP.
  apply withoutComposer_andThen; [by apply withoutComposer_call|intros s1].
  apply withoutComposer_linkDirectories.
Qed.

Lemma withoutComposer_WriteConfigFiles (s : Supplier) :
  withoutComposer (WriteConfigFiles Template template_Parse template_Execute
                     J Rel Dir' outcome FileExists ReadFile boxBytes
                     boxWalk dirWalk rootsOrder
                     phpOrder zendOrder ctxOrder boxOrder userOrder s).
Proof.
  unfold withoutComposer.
  apply traced_WriteConfigFiles; try done; [apply Forall_app_2|].
  intros t dest destFile basedir ctx s1 _. unfold renderInto.
  apply withoutComposer_andThen; [by apply withoutComposer_call|intros s2].
  apply withoutComposer_andThen; [by apply withoutComposer_call|intros s3].
  destruct (template_Execute t ctx) as [text err].
  apply withoutComposer_andThen; [by apply withoutComposer_call|intros s4].
  apply withoutComposer_ret.
Qed.

Lemma withoutComposer_InstallVarify (s : Supplier) :
  withoutComposer (InstallVarify J outcome FileExists RootDir s).
Proof.
  unfold InstallVarify. cbv zeta.
  destruct (FileExists _) as [[|]|err]; try apply withoutComposer_ret.
  by apply withoutComposer_call.
Qed.

Lemma withoutComposer_WriteProfileD (s : Supplier) :
  withoutComposer (WriteProfileD J outcome FileExists s).
Proof.
  unfold WriteProfileD. cbv zeta.
  destruct (FileExists _) as [found|err]; [|apply withoutComposer_ret].
  by apply withoutComposer_call.
Qed.

Lemma withoutComposer_WriteStartFile (s : Supplier) :
  withoutComposer (WriteStartFile J outcome s).
Proof. unfold WriteStartFile. by apply withoutComposer_call. Qed.

Lemma withoutComposer_installAndRender (s : Supplier) (c : ComposerFields) :
  ComposerPath c = "" ->
  withoutComposer
    (installAndRender Template template_Parse template_Execute J Rel Dir' Environ
       FileExists ReadFile outcome HttpGet RootDir boxBytes boxWalk dirWalk
       rootsOrder phpOrder zendOrder ctxOrder boxOrder userOrder s c).
Proof.
  intros Hc. unfold installAndRender. rewrite Hc.
  apply withoutComposer_andThen;
    [apply withoutComposer_wrapError, withoutComposer_InstallHTTPD|intros s1].
  apply withoutComposer_andThen;
    [apply withoutComposer_wrapError, withoutComposer_InstallPHP|intros s2].
  apply withoutComposer_andThen;
    [apply withoutComposer_logError, withoutComposer_WriteConfigFiles|intros s3].
  apply withoutComposer_andThen; [apply withoutComposer_ret|intros s4].
  apply withoutComposer_andThen;
    [apply withoutComposer_logError, withoutComposer_InstallVarify|intros s5].
  apply withoutComposer_andThen;
    [apply withoutComposer_logError, withoutComposer_WriteProfileD|intros s6].
  apply withoutComposer_logError, withoutComposer_WriteStartFile.
Qed.

(** X30. [Run] touches nothing before the configuration is read and the
    PHP version is resolved: when [ReadConfig] fails, or [SetupPhpVersion]
    after it, [Run] makes no call and returns the error behind the prefix
    of the step.  When no composer.json was found, no call of [Run]
    downloads composer or runs a command. *)
Theorem Run_stops_before_installing (s : Supplier) (c : ComposerFields) :
  let rc := ReadConfig J Getenv FileExists IsNotExist JSONLoad
              (logf LBeginStep "Supplying php" [] s)
              (set_ComposerGithubToken (Getenv "COMPOSER_GITHUB_OAUTH_TOKEN") c) in
  let rv := SetupPhpVersion F rc.1.1 in
  let r := Run Template template_Parse template_Execute J Rel Dir' Getenv Environ
             FileExists ReadFile IsNotExist JSONLoad F outcome HttpGet RootDir
             boxBytes boxWalk dirWalk rootsOrder
             requireOrder phpOrder zendOrder ctxOrder boxOrder userOrder s c in
  (forall err, rc.2 = Some err ->
     r = (rc.1.1, rc.1.2, [], Some ("reading config: " +:+ err))) /\
  (rc.2 = None -> forall err, rv.2 = Some err ->
     r = (rv.1, rc.1.2, [], Some ("Initialiizing: php version: " +:+ err))) /\
  (ComposerPath rc.1.2 = "" ->
     Forall (fun call => composerCall call = false) r.1.2).
Proof.
  intros rc rv r. subst r rv. unfold Run. cbv zeta. fold rc.
  destruct rc as [[s1 c1] [e|]]; simpl.
  { split; [|split]; [|done|by intros _].
    intros err [= ->]. unfold Sprintf. simpl. by rewrite append_nil_r. }
  destruct (SetupPhpVersion F s1) as [s2 [e|]]; simpl.
  { split; [done|split]; [|by intros _].
    intros _ err [= ->]. unfold Sprintf. simpl. by rewrite append_nil_r. }
  split; [done|split]; [done|].
  intros Hc.
  pose proof (withoutComposer_installAndRender (SetupExtensions requireOrder s2) c1 Hc)
    as [_ H].
  destruct (installAndRender _ _ _ _ _ _ _ _ _ _ _ _ _ _ _ _ _ _ _ _ _ _ _)
    as [[s3 cs] e]. by apply H.
Qed.

End RunFacts.

Lemma Run_stops_before_installing_witness :
  let J := fun l => strings.Join l "/" in
  let Rel := fun _ _ : string => inl "php.ini" : string + error in
  let noFile := fun _ : string => inr "no such file" : string + error in
  let noWalk := fun _ : string => ([], None) : Walk in
  let Getenv := fun _ : string => "" in
  let FileExists := fun _ : string => inl false : bool + error in
  let IsNotExist := fun _ : error => false in
  let JSONLoad := fun (_ : string) (m : gmap string json) =>
    (m, Some "unexpected end of JSON input") in
  let outcome := fun _ : Call => None : option error in
  let HttpGet := fun (_ _ : string) =>
    inl "offline" : error + (error + gmap string json) in
  (Run (list node) sampleParse sampleExecute J Rel (fun p => p) Getenv []
     FileExists noFile IsNotExist JSONLoad sampleMatch
     outcome HttpGet "/buildpack" noFile noWalk noWalk
     (fun _ => []) [] [] [] [] [] [] (sampleSupplier true ∅ ∅)
     {| ComposerPath := ""; ComposerGithubToken := "" |}).2
  = Some "reading config: unexpected end of JSON input".
Proof.
  intros J Rel noFile noWalk Getenv FileExists IsNotExist JSONLoad outcome HttpGet.
  destruct (Run_stops_before_installing (list node) sampleParse sampleExecute
              J Rel (fun p => p) Getenv [] FileExists noFile
              IsNotExist JSONLoad sampleMatch outcome HttpGet "/buildpack" noFile
              noWalk noWalk (fun _ => []) [] [] [] [] [] []
              (sampleSupplier true ∅ ∅)
              {| ComposerPath := ""; ComposerGithubToken := "" |}) as [H _].
  by rewrite (H "unexpected end of JSON input" eq_refl).
Defined.
